(** * ftag.mock: synthetic jet and track record arrays

    A shallow embedding of [src/ftag/mock.py] and the properties its
    specification states.

    - numpy scalars are IEEE 754 values: [spec_float], the Standard
      Library's specification of binary floating point, at the precisions of
      float32 ("f4") and float64, rounding to nearest even, bit for bit.
    - A record array is its shape and its named fields, each field a typed
      column over the records in row-major order.
    - Exceptions are values ([result]); a computation runs in a world, the
      trace of its calls into numpy.random, the file system and h5py, and
      what it did before raising stays done.
    - numpy's generator, libm's [exp], numpy's reductions, [tempfile],
      [pathlib] and the names h5py accepts are interfaces: the generator with
      numpy's documented contract as laws.  The properties hold for every
      implementation; [Replay] is one, used for concrete runs, and [Pcg64]
      is numpy's own [default_rng], bit for bit in its seeding and in
      [random].
    - [ftag.hdf5.join_structured_arrays] is not among the sources and is
      modelled from section 4.1 of the specification. *)

From Stdlib Require Import String.
From Stdlib Require Import ZArith List Bool Lia QArith Qabs Qpower Lqa Sorted.
From Stdlib Require Import Floats.SpecFloat.
Import ListNotations.
Open Scope string_scope.
Open Scope list_scope.
Open Scope Z_scope.

(** ** IEEE 754 scalars *)

Module IEEE.

(** [float32] is numpy's "f4", [float64] is a Python float / numpy "f8". *)
Definition f4_prec : Z := 24.
Definition f4_emax : Z := 128.
Definition f8_prec : Z := 53.
Definition f8_emax : Z := 1024.

Definition f4_mul : spec_float -> spec_float -> spec_float := SFmul f4_prec f4_emax.
Definition f4_sub : spec_float -> spec_float -> spec_float := SFsub f4_prec f4_emax.
Definition f8_sub : spec_float -> spec_float -> spec_float := SFsub f8_prec f8_emax.
Definition f8_div : spec_float -> spec_float -> spec_float := SFdiv f8_prec f8_emax.

(** A literal [m * 2^e], rounded into the format. *)
Definition f4_lit (m e : Z) : spec_float := binary_normalize f4_prec f4_emax m e false.
Definition f8_lit (m e : Z) : spec_float := binary_normalize f8_prec f8_emax m e false.

(** The cast float64 -> float32 (round to nearest, ties to even). *)
Definition f8_to_f4 (x : spec_float) : spec_float :=
  match x with
  | S754_finite s m e => binary_round f4_prec f4_emax s m e
  | _ => x
  end.

Definition int32_min : Z := - 2 ^ 31.
Definition int32_max : Z := 2 ^ 31 - 1.

(** Two's complement wrap of an integer into 32 bits (int64 -> int32). *)
Definition wrap32 (z : Z) : Z := (z + 2 ^ 31) mod 2 ^ 32 - 2 ^ 31.

(** The cast of a float (of either width) to int32: truncation toward zero;
    what does not fit (and NaN, infinities) gives the "integer indefinite"
    value, as the conversion instruction of x86-64 does. *)
Definition float_to_i4 (x : spec_float) : Z :=
  match x with
  | S754_zero _ => 0
  | S754_finite s m e =>
      let t := cond_Zopp s (Z.shiftl (Zpos m) e) in
      if (int32_min <=? t) && (t <=? int32_max) then t else int32_min
  | _ => int32_min
  end.

Definition is_finite (x : spec_float) : bool :=
  match x with
  | S754_zero _ | S754_finite _ _ _ => true
  | _ => false
  end.

(** The rational a finite value denotes (0 for NaN and the infinities,
    which [is_finite] tells apart). *)
Definition to_Q (x : spec_float) : Q :=
  match x with
  | S754_finite s m e =>
      match e with
      | Zneg k => Qmake (cond_Zopp s (Zpos m)) (2 ^ k)%positive
      | _ => inject_Z (cond_Zopp s (Zpos m * 2 ^ e))
      end
  | _ => 0%Q
  end.

(** A float64 drawn from the unit interval [0, 1): a valid binary64 value,
    compared with the Standard Library's [SFleb] and [SFltb]. *)
Definition unit_f8 (x : spec_float) : bool :=
  valid_binary f8_prec f8_emax x
  && SFleb (S754_zero false) x
  && SFltb x (SFone f8_prec f8_emax).

End IEEE.

Import IEEE.


(** ** Exceptions *)

(** The exceptions the modelled code can raise.  [KeyError], [IndexError],
    [ValueError] and [TypeError] are Python's, [AxisError] is numpy's; the
    last two are the error kinds the specification gives the Schema Merger. *)
Inductive error : Type :=
| KeyError (key : Z)
| IndexError (index : nat)
| ValueError (msg : string)
| TypeError (msg : string)
| AxisError (axis : Z) (ndim : nat)
| ShapeMismatchError (s1 s2 : list nat)
| SchemaConflictError (name : string).

Inductive result (A : Type) : Type :=
| Ok (a : A)
| Err (e : error).

Arguments Ok {A} a.
Arguments Err {A} e.

(** ** numpy arrays *)

Module Np.

(** The element types [mock.py] uses: "f4", "i4" and [bool]. *)
Inductive dtype : Type := f4 | i4 | b1.

(** One field of a record array, over all its records in row-major order. *)
Inductive column : Type :=
| F4col (xs : list spec_float)
| I4col (zs : list Z)
| Boolcol (bs : list bool).

Definition col_dtype (c : column) : dtype :=
  match c with
  | F4col _ => f4
  | I4col _ => i4
  | Boolcol _ => b1
  end.

Definition col_len (c : column) : nat :=
  match c with
  | F4col xs => length xs
  | I4col zs => length zs
  | Boolcol bs => length bs
  end.

(** A structured (record) array: its shape and its named fields in schema
    order. *)
Record recarray : Type := {
  shape : list nat;
  fields : list (string * column)
}.

(** Number of elements of a shape. *)
Definition size (s : list nat) : nat := fold_right Nat.mul 1%nat s.

Definition names (a : recarray) : list string := map fst (fields a).

Definition descr (a : recarray) : list (string * dtype) :=
  map (fun f => (fst f, col_dtype (snd f))) (fields a).

(** An unstructured float64 array of shape [lead ++ [last]], one row per
    index of the leading axes. *)
Record ndarray : Type := {
  lead : list nat;
  last : nat;
  rows : list (list spec_float)
}.

(** [np.zeros((n, k))] *)
Definition zeros (n k : nat) : ndarray :=
  {| lead := [n]; last := k; rows := repeat (repeat (S754_zero false) k) n |}.

(** An axis as numpy reads it for an array of [ndim] axes: counted from the
    end when negative. *)
Definition normalize_axis (axis : Z) (ndim : nat) : option nat :=
  if (0 <=? axis) && (axis <? Z.of_nat ndim) then Some (Z.to_nat axis)
  else if (- Z.of_nat ndim <=? axis) && (axis <? 0) then
    Some (Z.to_nat (axis + Z.of_nat ndim))
  else None.

Definition is_nonzero (x : spec_float) : bool :=
  match x with
  | S754_zero _ => false
  | _ => true
  end.

(** [astype] from float64. *)
Definition astype (t : dtype) (xs : list spec_float) : column :=
  match t with
  | f4 => F4col (map f8_to_f4 xs)
  | i4 => I4col (map float_to_i4 xs)
  | b1 => Boolcol (map is_nonzero xs)
  end.

(** [numpy.lib.recfunctions.unstructured_to_structured]: the last axis
    becomes the fields of [dt], each cast to its type. *)
Definition u2s (a : ndarray) (dt : list (string * dtype)) : result recarray :=
  if (last a =? length dt)%nat then
    Ok {| shape := lead a;
          fields :=
            map (fun kf : nat * (string * dtype) =>
                   (fst (snd kf),
                    astype (snd (snd kf)) (map (fun r => nth (fst kf) r S754_nan) (rows a))))
                (combine (seq 0 (length dt)) dt) |}
  else
    Err (ValueError
           "The length of the last dimension of arr must be equal to the number of fields in dtype").

(** The right-hand side of a field assignment: an int64 array or a float32
    array. *)
Inductive values : Type :=
| Ints (zs : list Z)
| Floats (xs : list spec_float).

Definition values_len (v : values) : nat :=
  match v with
  | Ints zs => length zs
  | Floats xs => length xs
  end.

(** Assignment casts to the type of the field assigned. *)
Definition cast_values (t : dtype) (v : values) : column :=
  match t, v with
  | f4, Ints zs => F4col (map (fun z => f4_lit z 0) zs)
  | i4, Ints zs => I4col (map wrap32 zs)
  | b1, Ints zs => Boolcol (map (fun z => negb (z =? 0)) zs)
  | f4, Floats xs => F4col xs
  | i4, Floats xs => I4col (map float_to_i4 xs)
  | b1, Floats xs => Boolcol (map is_nonzero xs)
  end.

Fixpoint lookup_field (name : string) (fs : list (string * column)) : option column :=
  match fs with
  | [] => None
  | (n, c) :: rest => if String.eqb name n then Some c else lookup_field name rest
  end.

Fixpoint update_field (name : string) (c : column) (fs : list (string * column))
  : list (string * column) :=
  match fs with
  | [] => []
  | (n, c0) :: rest =>
      if String.eqb name n then (n, c) :: rest else (n, c0) :: update_field name c rest
  end.

(** [a[name]] *)
Definition getitem (a : recarray) (name : string) : result column :=
  match lookup_field name (fields a) with
  | Some c => Ok c
  | None => Err (ValueError (String.append "no field of name " name))
  end.

(** [a[name] = v] for an array [v] with one value per record. *)
Definition setitem (a : recarray) (name : string) (v : values) : result recarray :=
  match lookup_field name (fields a) with
  | None => Err (ValueError (String.append "no field of name " name))
  | Some c =>
      if (values_len v =? size (shape a))%nat then
        Ok {| shape := shape a;
              fields := update_field name (cast_values (col_dtype c) v) (fields a) |}
      else Err (ValueError "could not broadcast input array")
  end.

(** [a[name] = z] for an integer scalar, broadcast over the records. *)
Definition setitem_scalar (a : recarray) (name : string) (z : Z) : result recarray :=
  setitem a name (Ints (repeat z (size (shape a)))).

(** [a[name]] where float32 arithmetic follows: the field has to be "f4". *)
Definition getitem_f4 (a : recarray) (name : string) : result (list spec_float) :=
  match getitem a name with
  | Ok (F4col xs) => Ok xs
  | Ok _ => Err (TypeError (String.append "field is not float32: " name))
  | Err e => Err e
  end.

(** [a[name]] where integer labels are read: the field has to be "i4". *)
Definition getitem_i4 (a : recarray) (name : string) : result (list Z) :=
  match getitem a name with
  | Ok (I4col zs) => Ok zs
  | Ok _ => Err (TypeError (String.append "field is not int32: " name))
  | Err e => Err e
  end.

(** [a[name] *= c] on a float32 field; the Python scalar [c] is taken in
    float32. *)
Definition imul (a : recarray) (name : string) (c : spec_float) : result recarray :=
  match getitem_f4 a name with
  | Ok xs => setitem a name (Floats (map (fun x => f4_mul x c) xs))
  | Err e => Err e
  end.

(** [np.unique(labels, return_counts=True)]: the distinct values in
    ascending order, each with the number of its occurrences. *)
Fixpoint bump (x : Z) (l : list (Z * nat)) : list (Z * nat) :=
  match l with
  | [] => [(x, 1%nat)]
  | (y, c) :: rest =>
      if x <? y then (x, 1%nat) :: l
      else if x =? y then (y, S c) :: rest
      else (y, c) :: bump x rest
  end.

Definition unique_counts (labels : list Z) : list (Z * nat) :=
  fold_right bump [] labels.

Definition count_true (mask : list bool) : nat := length (filter (fun b => b) mask).

(** The rows under a true mask bit are replaced, in order, by the rows of
    [src]. *)
Fixpoint scatter (mask : list bool) (dst src : list (list spec_float))
  : list (list spec_float) :=
  match mask, dst with
  | true :: mask', d :: dst' =>
      match src with
      | s :: src' => s :: scatter mask' dst' src'
      | [] => d :: scatter mask' dst' []
      end
  | false :: mask', d :: dst' => d :: scatter mask' dst' src
  | _, _ => dst
  end.

(** [dst[mask] = src]: [src] has one row per true bit, or a single row that
    is broadcast. *)
Definition mask_assign (dst : list (list spec_float)) (mask : list bool)
  (src : list (list spec_float)) : result (list (list spec_float)) :=
  if (length src =? count_true mask)%nat then Ok (scatter mask dst src)
  else
    match src with
    | [s] => Ok (scatter mask dst (repeat s (count_true mask)))
    | _ =>
        Err (ValueError
               "NumPy boolean array indexing assignment cannot assign input values to the output values where the mask is true")
    end.

Definition shape_eqb (s1 s2 : list nat) : bool :=
  if list_eq_dec Nat.eq_dec s1 s2 then true else false.

(** The first name of a list that occurs again later in it. *)
Fixpoint first_duplicate (l : list string) : option string :=
  match l with
  | [] => None
  | x :: rest => if existsb (String.eqb x) rest then Some x else first_duplicate rest
  end.

(** Modelled from the spec: [ftag.hdf5.join_structured_arrays], the Schema
    Merger, whose source is not among the files of [src/].  Section 4.1: the
    inputs share one shape, the output has that shape and the concatenation
    of the inputs' schemas in input order, values copied field by field
    unchanged; a shape mismatch between any two inputs fails with
    [ShapeMismatchError] naming the conflicting shapes, a field name that occurs
    in two inputs with [SchemaConflictError] naming it.  The checks come before any
    copy, the shapes first.  The specification is silent on the empty
    sequence, which has no shape to give the output: it is refused. *)
Definition join_structured_arrays (arrays : list recarray) : result recarray :=
  match arrays with
  | [] => Err (ValueError "need at least one array to join")
  | a :: rest =>
      match find (fun b => negb (shape_eqb (shape a) (shape b))) rest with
      | Some b => Err (ShapeMismatchError (shape a) (shape b))
      | None =>
          let fs := flat_map fields arrays in
          match first_duplicate (map fst fs) with
          | Some n => Err (SchemaConflictError n)
          | None => Ok {| shape := shape a; fields := fs |}
          end
      end
  end.

End Np.

Import Np.

(** ** The world: a trace of calls into numpy.random, the file system and h5py *)

Inductive event : Type :=
| EvDefaultRng (seed : Z)
| EvRandom (shape : list nat)
| EvChoice (population : nat) (shape : list nat)
| EvIntegers (low high : Z) (shape : list nat)
| EvNormal (loc : list spec_float) (scale : spec_float) (shape : list nat)
| EvTempFile (name : string)
| EvMkdir (path : string)
| EvOpenFile (fname mode : string)
| EvCreateDataset (fname name : string) (data : recarray)
| EvSetAttr (fname object key value : string).

Definition World : Type := list event.

(** A computation reads and extends the world and returns a value or raises;
    what it did before raising stays done. *)
Definition M (A : Type) : Type := World -> result A * World.

Definition ret {A : Type} (a : A) : M A := fun w => (Ok a, w).

Definition raise {A : Type} (e : error) : M A := fun w => (Err e, w).

Definition bind {A B : Type} (c : M A) (k : A -> M B) : M B :=
  fun w =>
    match c w with
    | (Ok a, w') => k a w'
    | (Err e, w') => (Err e, w')
    end.

Definition emit (e : event) : M unit := fun w => (Ok tt, w ++ [e]).

Definition lift {A : Type} (r : result A) : M A := fun w => (r, w).

Declare Scope m_scope.
Delimit Scope m_scope with M.
Notation "x <- c ;; k" := (bind c (fun x => k))
  (at level 61, c at next level, right associativity) : m_scope.
Notation "' p <- c ;; k" := (bind c (fun x => match x with p => k end))
  (at level 61, p pattern, c at next level, right associativity) : m_scope.
Notation "c ;; k" := (bind c (fun _ => k))
  (at level 61, right associativity) : m_scope.
Open Scope m_scope.

(** ** numpy.random.Generator and the platform *)

(** A pseudorandom generator with numpy's interface.  The state is passed
    explicitly: every draw returns the values and the next state.  The laws
    are numpy's documented contract: the requested shape, [random] in
    [0, 1), [choice] within the population. *)
Class Generator (G : Type) : Type := {
  rng_seed : Z -> G;
  rng_random : G -> list nat -> nat -> list (list spec_float) * G;
  rng_choice : G -> nat -> list nat -> list nat * G;
  rng_integers : G -> Z -> Z -> list nat -> list Z * G;
  rng_normal : G -> list spec_float -> spec_float -> nat -> nat -> list (list spec_float) * G;
  random_rows : forall g sh k, length (fst (rng_random g sh k)) = size sh;
  random_unit : forall g sh k,
    Forall (fun r => length r = k /\ Forall (fun u => unit_f8 u = true) r)
           (fst (rng_random g sh k));
  choice_count : forall g n sh, length (fst (rng_choice g n sh)) = size sh;
  choice_range : forall g n sh, (0 < n)%nat ->
    Forall (fun i => (i < n)%nat) (fst (rng_choice g n sh));
  integers_count : forall g lo hi sh, length (fst (rng_integers g lo hi sh)) = size sh;
  normal_rows : forall g loc sc n k, length (fst (rng_normal g loc sc n k)) = n;
  normal_cols : forall g loc sc n k,
    Forall (fun r => length r = k) (fst (rng_normal g loc sc n k))
}.

(** What the code takes from libm, numpy's reductions, [tempfile] and
    [pathlib].  [tmp_name] is the name [NamedTemporaryFile] picks in a fresh
    directory: it depends on what happened before. *)
Class Platform : Type := {
  np_exp : spec_float -> spec_float;
  np_max : list spec_float -> spec_float;
  np_sum : list spec_float -> spec_float;
  tmp_name : World -> string;
  path_parent : string -> string
}.

(** What the code takes from h5py: whether [create_dataset] accepts a name
    in a file that holds the datasets [present], and what it raises when it
    does not.  How h5py reads a name (as a path, with groups made on the way)
    is its own; the contract kept here is that a name that is taken is refused
    with [ValueError], and that a file just opened for writing takes "jets". *)
Class H5py : Type := {
  create_dataset_error : list string -> string -> option error;
  name_exists : forall present name,
    In name present -> exists msg, create_dataset_error present name = Some (ValueError msg);
  fresh_jets : create_dataset_error [] "jets" = None
}.

(** ** src/ftag/mock.py *)

Definition JET_VARS : list (string * dtype) :=
  [ ("pt", f4);
    ("eta", f4);
    ("abs_eta", f4);
    ("mass", f4);
    ("pt_btagJes", f4);
    ("eta_btagJes", f4);
    ("n_tracks", i4);
    ("HadronConeExclTruthLabelID", i4);
    ("HadronConeExclTruthLabelPt", f4);
    ("R10TruthLabel_R22v1", i4);
    ("n_truth_promptLepton", i4);
    ("flavour_label", i4) ].

Definition TRACK_VARS : list (string * dtype) :=
  [ ("d0", f4);
    ("z0SinTheta", f4);
    ("dphi", f4);
    ("deta", f4);
    ("qOverP", f4);
    ("IP3D_signed_d0_significance", f4);
    ("IP3D_signed_z0_significance", f4);
    ("phiUncertainty", f4);
    ("thetaUncertainty", f4);
    ("qOverPUncertainty", f4);
    ("numberOfPixelHits", i4);
    ("numberOfSCTHits", i4);
    ("numberOfInnermostPixelLayerHits", i4);
    ("numberOfNextToInnermostPixelLayerHits", i4);
    ("numberOfInnermostPixelLayerSharedHits", i4);
    ("numberOfInnermostPixelLayerSplitHits", i4);
    ("numberOfPixelSharedHits", i4);
    ("numberOfPixelSplitHits", i4);
    ("numberOfSCTSharedHits", i4);
    ("numberOfPixelHoles", i4);
    ("numberOfSCTHoles", i4) ].

(** A Python [dict] with integer keys, in insertion order; setting a key
    that is present replaces its value. *)
Fixpoint dict_set {V : Type} (d : list (Z * V)) (k : Z) (v : V) : list (Z * V) :=
  match d with
  | [] => [(k, v)]
  | (k0, v0) :: rest => if k =? k0 then (k0, v) :: rest else (k0, v0) :: dict_set rest k v
  end.

Fixpoint dict_get {V : Type} (d : list (Z * V)) (k : Z) : option V :=
  match d with
  | [] => None
  | (k0, v0) :: rest => if k =? k0 then Some v0 else dict_get rest k
  end.

(** [dict(zip(keys, vals))] *)
Definition dict_zip {V : Type} (keys : list Z) (vals : list V) : list (Z * V) :=
  fold_left (fun d kv => dict_set d (fst kv) (snd kv)) (combine keys vals) [].

Definition means : list (list spec_float) :=
  [ [f8_lit 2 0; f8_lit 0 0; f8_lit 0 0; f8_lit 0 0];
    [f8_lit 0 0; f8_lit 1 0; f8_lit 0 0; f8_lit 0 0];
    [f8_lit 0 0; f8_lit 0 0; f8_lit 7 (-1); f8_lit 0 0];
    [f8_lit 0 0; f8_lit 0 0; f8_lit 0 0; f8_lit 1 0] ].

Definition label_dict (is_xbb : bool) : list (string * Z) :=
  if negb is_xbb then [("u", 0); ("c", 4); ("b", 5); ("tau", 15)]
  else [("hbb", 11); ("hcc", 12); ("top", 1); ("qcd", 10)].

Definition label_mapping (is_xbb : bool) : list (Z * list spec_float) :=
  dict_zip (map snd (label_dict is_xbb)) means.

(** [scales = [1, 2.5, 5, 1]] *)
Definition scales : list spec_float :=
  [f8_lit 1 0; f8_lit 5 (-1); f8_lit 5 0; f8_lit 1 0].

Definition tagger_name (is_xbb : bool) : string :=
  if is_xbb then "MockXbbTagger" else "MockTagger".

(** [[f"{name}_p{x}" for x in label_dict]] *)
Definition score_cols (is_xbb : bool) : list string :=
  map (fun x => String.append (tagger_name is_xbb) (String.append "_p" (fst x)))
      (label_dict is_xbb).

(** Python's truth value of the [tracks_name] argument: [None] and the empty
    string are false. *)
Definition truthy (s : option string) : bool :=
  match s with
  | Some s => negb (String.eqb s "")
  | None => false
  end.

(** The handle [h5py.File] returns: the file it is open on and the names
    of the datasets the file holds. *)
Record h5file : Type := { h5_filename : string; h5_datasets : list string }.

Section Mock.

Context {G : Type} {gen : Generator G} {platform : Platform} {h5 : H5py}.

(** [np.random.default_rng(seed)] *)
Definition default_rng (seed : Z) : M G :=
  emit (EvDefaultRng seed) ;; ret (rng_seed seed).

(** [rng.random(sh + (k,))] *)
Definition random (rng : G) (sh : list nat) (k : nat) : M (ndarray * G) :=
  emit (EvRandom (sh ++ [k])) ;;
  ret ({| lead := sh; last := k; rows := fst (rng_random rng sh k) |},
       snd (rng_random rng sh k)).

(** [rng.choice(a, size=sh)]: uniformly drawn indices into [a]. *)
Definition choice {A : Type} (rng : G) (a : list A) (sh : list nat) : M (list A * G) :=
  match a with
  | [] => raise (ValueError "a cannot be empty unless no samples are taken")
  | a0 :: _ =>
      emit (EvChoice (length a) sh) ;;
      ret (map (fun i => nth i a a0) (fst (rng_choice rng (length a) sh)),
           snd (rng_choice rng (length a) sh))
  end.

(** [rng.integers(lo, hi, size=sh)] *)
Definition integers (rng : G) (lo hi : Z) (sh : list nat) : M (list Z * G) :=
  emit (EvIntegers lo hi sh) ;; ret (rng_integers rng lo hi sh).

(** [rng.normal(loc=loc, scale=scale, size=(n, k))] *)
Definition normal (rng : G) (loc : list spec_float) (scale : spec_float) (n k : nat)
  : M (list (list spec_float) * G) :=
  emit (EvNormal loc scale [n; k]) ;; ret (rng_normal rng loc scale n k).

(** [softmax(x, axis=1)], row by row:
    [e_x = exp(x - max(x)); e_x / e_x.sum()]. *)
Definition softmax_row (x : list spec_float) : list spec_float :=
  let e_x := map (fun v => np_exp (f8_sub v (np_max x))) x in
  map (fun v => f8_div v (np_sum e_x)) e_x.

(** The same along axis [k] of the leading axes: the values that share all
    other indices with the one at flat index [f] are taken, with stride
    [inner], from the flattened array. *)
Definition softmax_axis (x : ndarray) (k : nat) : list (list spec_float) :=
  let da := nth k (lead x) 0%nat in
  let inner := (size (skipn (S k) (lead x)) * last x)%nat in
  let flat := concat (rows x) in
  let group (f : nat) :=
    map (fun j => nth ((f / (da * inner)) * (da * inner) + j * inner + f mod inner)%nat
                      flat S754_nan)
        (seq 0 da) in
  map (fun rr : nat * list spec_float =>
         map (fun cv : nat * spec_float =>
                let g := group (fst rr * last x + fst cv)%nat in
                let m := np_max g in
                f8_div (np_exp (f8_sub (snd cv) m))
                       (np_sum (map (fun u => np_exp (f8_sub u m)) g)))
             (combine (seq 0 (length (snd rr))) (snd rr)))
      (combine (seq 0 (length (rows x))) (rows x)).

(** And over the whole array, for [axis=None]. *)
Definition softmax_all (x : ndarray) : list (list spec_float) :=
  let flat := concat (rows x) in
  let m := np_max flat in
  let s := np_sum (map (fun u => np_exp (f8_sub u m)) flat) in
  map (map (fun v => f8_div (np_exp (f8_sub v m)) s)) (rows x).

(** [softmax(x, axis)].  The maximum and the sum are taken along [axis] with
    [keepdims=True] and broadcast back, so the result has the shape of [x].
    An axis the array does not have is numpy's [AxisError]; the maximum along
    an axis of length 0, or over an empty array for [axis=None], has no
    identity. *)
Definition softmax (x : ndarray) (axis : option Z) : result ndarray :=
  let zero_size :=
    ValueError "zero-size array to reduction operation maximum which has no identity" in
  match axis with
  | None =>
      match concat (rows x) with
      | [] => Err zero_size
      | _ :: _ => Ok {| lead := lead x; last := last x; rows := softmax_all x |}
      end
  | Some a =>
      match normalize_axis a (S (length (lead x))) with
      | None => Err (AxisError a (S (length (lead x))))
      | Some k =>
          if (k =? length (lead x))%nat then
            if (last x =? 0)%nat then Err zero_size
            else Ok {| lead := lead x; last := last x; rows := map softmax_row (rows x) |}
          else
            if (nth k (lead x) 0 =? 0)%nat then Err zero_size
            else Ok {| lead := lead x; last := last x; rows := softmax_axis x k |}
      end
  end.

(** The [for] loop of [get_mock_scores] over the enumerated (label, count)
    pairs of [np.unique(labels, return_counts=True)], from the [i]-th on.  The
    arguments of [rng.normal] are evaluated left to right:
    [label_mapping[label]] before [scales[i]]. *)
Fixpoint scores_loop (labels : list Z) (mapping : list (Z * list spec_float))
  (nclass : nat) (items : list (Z * nat)) (i : nat) (rng : G)
  (scores : list (list spec_float)) : M (list (list spec_float)) :=
  match items with
  | [] => ret scores
  | (label, count) :: rest =>
      loc <- match dict_get mapping label with
             | Some loc => ret loc
             | None => raise (KeyError label)
             end ;;
      scale <- match nth_error scales i with
               | Some s => ret s
               | None => raise (IndexError i)
               end ;;
      ' (draw, rng') <- normal rng loc scale count nclass ;;
      scores' <- lift (mask_assign scores (map (Z.eqb label) labels) draw) ;;
      scores_loop labels mapping nclass rest (S i) rng' scores'
  end.

Definition get_mock_scores (labels : list Z) (is_xbb : bool) : M recarray :=
  rng <- default_rng 42 ;;
  let nclass := length (label_dict is_xbb) in
  let scores := zeros (length labels) nclass in
  raw <- scores_loop labels (label_mapping is_xbb) nclass (unique_counts labels) 0 rng
                     (rows scores) ;;
  sm <- lift (softmax {| lead := lead scores; last := last scores; rows := raw |} (Some 1)) ;;
  lift (u2s sm (map (fun c => (c, f4)) (score_cols is_xbb))).

Definition mock_jets (num_jets : nat) : M recarray :=
  rng <- default_rng 42 ;;
  ' (u, rng) <- random rng [num_jets] (length JET_VARS) ;;
  jets <- lift (u2s u JET_VARS) ;;
  ' (fl, rng) <- choice rng [0; 4; 5] [num_jets] ;;
  jets <- lift (setitem jets "flavour_label" (Ints fl)) ;;
  jets <- lift (imul jets "pt" (f4_lit 400000 0)) ;;
  jets <- lift (imul jets "mass" (f4_lit 50000 0)) ;;
  eta <- lift (getitem_f4 jets "eta") ;;
  jets <- lift (setitem jets "eta"
                  (Floats (map (fun x => f4_mul (f4_sub x (f4_lit 1 (-1))) (f4_lit 6 0)) eta))) ;;
  eta <- lift (getitem_f4 jets "eta") ;;
  jets <- lift (setitem jets "abs_eta" (Floats (map SFabs eta))) ;;
  jets <- lift (setitem_scalar jets "n_truth_promptLepton" 0) ;;
  ' (ids, rng) <- choice rng [0; 4; 5; 15] [num_jets] ;;
  jets <- lift (setitem jets "HadronConeExclTruthLabelID" (Ints ids)) ;;
  ' (r10, rng) <- choice rng [1; 10; 11; 12] [num_jets] ;;
  jets <- lift (setitem jets "R10TruthLabel_R22v1" (Ints r10)) ;;
  labels <- lift (getitem_i4 jets "HadronConeExclTruthLabelID") ;;
  scores <- get_mock_scores labels false ;;
  xbb_labels <- lift (getitem_i4 jets "R10TruthLabel_R22v1") ;;
  xbb_scores <- get_mock_scores xbb_labels true ;;
  lift (join_structured_arrays [jets; scores; xbb_scores]).

Definition mock_tracks (num_jets num_tracks : nat) : M recarray :=
  rng <- default_rng 42 ;;
  ' (u, rng) <- random rng [num_jets; num_tracks] (length TRACK_VARS) ;;
  tracks <- lift (u2s u TRACK_VARS) ;;
  tracks <- lift (imul tracks "d0" (f4_lit 5 0)) ;;
  ' (hits, rng) <- integers rng 0 3 [num_jets; num_tracks] ;;
  tracks <- lift (setitem tracks "numberOfPixelSharedHits" (Ints hits)) ;;
  ' (hits, rng) <- integers rng 0 3 [num_jets; num_tracks] ;;
  tracks <- lift (setitem tracks "numberOfSCTSharedHits" (Ints hits)) ;;
  ' (valid, rng) <- choice rng [true; false] [num_jets; num_tracks] ;;
  let valid := {| shape := [num_jets; num_tracks]; fields := [("valid", Boolcol valid)] |} in
  lift (join_structured_arrays [tracks; valid]).

(** [NamedTemporaryFile(suffix=".h5", dir=mkdtemp()).name] *)
Definition named_temporary_file : M string :=
  fun w => (Ok (tmp_name w), w ++ [EvTempFile (tmp_name w)]).

(** [h5py.File(fname, "w")]: the file is made anew, it holds nothing. *)
Definition h5py_File (fname mode : string) : M h5file :=
  emit (EvOpenFile fname mode) ;; ret {| h5_filename := fname; h5_datasets := [] |}.

(** [f.create_dataset(name, data=data)]: h5py raises when it refuses the
    name, and then nothing is written. *)
Definition create_dataset (f : h5file) (name : string) (data : recarray) : M h5file :=
  match create_dataset_error (h5_datasets f) name with
  | Some e => raise e
  | None =>
      emit (EvCreateDataset (h5_filename f) name data) ;;
      ret {| h5_filename := h5_filename f; h5_datasets := h5_datasets f ++ [name] |}
  end.

(** [get_mock_file]: the file system is taken to make the directory, the
    temporary file and the file that are asked for (a path that cannot be
    written is not modelled); h5py's refusal of a dataset name is. *)
Definition get_mock_file (num_jets : nat) (fname : option string)
  (tracks_name : option string) (num_tracks : nat) : M (string * h5file) :=
  jets <- mock_jets num_jets ;;
  fname <- match fname with
           | None => named_temporary_file
           | Some fname => emit (EvMkdir (path_parent fname)) ;; ret fname
           end ;;
  f <- h5py_File fname "w" ;;
  f <- create_dataset f "jets" jets ;;
  emit (EvSetAttr fname "/" "test" "test") ;;
  emit (EvSetAttr fname "jets" "test" "test") ;;
  f <- (if truthy tracks_name then
          tracks <- mock_tracks num_jets num_tracks ;;
          create_dataset f (match tracks_name with Some n => n | None => "" end) tracks
        else ret f) ;;
  ret (fname, f).

End Mock.

(** ** A generator and a platform for tests *)

Module Replay.

(** The generator replays a cycle of four float64 values of [0, 1), the last
    one the largest there is ([1 - 2^-53]); its state is the position in the
    cycle. *)
Definition palette : list spec_float :=
  [f8_lit 1 (-2); f8_lit 1 (-1); f8_lit 3 (-2); S754_finite false (2 ^ 53 - 1) (-53)].

Definition pick (i : nat) : spec_float := nth (i mod 4) palette (S754_zero false).

Definition seed (z : Z) : nat := Z.to_nat z.

Definition random (g : nat) (sh : list nat) (k : nat) : list (list spec_float) * nat :=
  (map (fun r => map (fun c => pick (g + r * k + c)) (seq 0 k)) (seq 0 (size sh)),
   (g + size sh * k)%nat).

Definition choice (g n : nat) (sh : list nat) : list nat * nat :=
  (map (fun i => ((g + i) mod n)%nat) (seq 0 (size sh)), (g + size sh)%nat).

Definition integers (g : nat) (lo hi : Z) (sh : list nat) : list Z * nat :=
  (map (fun i => lo + Z.of_nat (g + i) mod (hi - lo)) (seq 0 (size sh)), (g + size sh)%nat).

(** Every row is the mean vector, cut or padded to [k] columns. *)
Definition normal (g : nat) (loc : list spec_float) (sc : spec_float) (n k : nat)
  : list (list spec_float) * nat :=
  (repeat (firstn k (loc ++ repeat (S754_zero false) k)) n, (g + n * k)%nat).

Definition exp (x : spec_float) : spec_float := f8_lit 1 0.

Definition max (l : list spec_float) : spec_float :=
  fold_left (fun a b => match SFcompare a b with Some Lt => b | _ => a end)
            (tl l) (hd S754_nan l).

Definition sum (l : list spec_float) : spec_float :=
  fold_left (SFadd f8_prec f8_emax) l (S754_zero false).

(** The largest entry, by value. *)
Definition largest (l : list spec_float) : spec_float :=
  fold_left (fun a b => if Qle_bool (to_Q a) (to_Q b) then b else a)
            (tl l) (hd S754_nan l).

(** One for a zero, a half for anything else. *)
Definition exp_half (x : spec_float) : spec_float :=
  match x with
  | S754_zero _ => f8_lit 1 0
  | _ => f8_lit 1 (-1)
  end.

Definition tmp (w : World) : string := "/tmp/tmpmock/tmpmock.h5".

(** h5py as far as the contract goes: a name is refused when it is, letter
    for letter, the name of a dataset of the file. *)
Definition create_dataset_error (present : list string) (name : string) : option error :=
  if existsb (String.eqb name) present then
    Some (ValueError "Unable to create dataset (name already exists)")
  else None.

Definition parent (p : string) : string := ".".

End Replay.

#[export] Instance replay_platform : Platform := {|
  np_exp := Replay.exp;
  np_max := Replay.max;
  np_sum := Replay.sum;
  tmp_name := Replay.tmp;
  path_parent := Replay.parent
|}.

(** A second platform for tests: the maximum is taken by value, and [exp]
    tells a zero from the rest. *)
Definition ordered_platform : Platform := {|
  np_exp := Replay.exp_half;
  np_max := Replay.largest;
  np_sum := Replay.sum;
  tmp_name := Replay.tmp;
  path_parent := Replay.parent
|}.

(** ** numpy's default generator: SeedSequence and PCG64 *)

Module Pcg64.

(** [SeedSequence] hashes the seed into a pool of four 32-bit words
    (numpy/random/bit_generator.pyx). *)
Definition INIT_A : Z := 0x43b0d7e5.
Definition MULT_A : Z := 0x931e8875.
Definition INIT_B : Z := 0x8b51f9dd.
Definition MULT_B : Z := 0x58f38ded.
Definition MIX_MULT_L : Z := 0xca01f9dd.
Definition MIX_MULT_R : Z := 0x4973f715.
Definition XSHIFT : Z := 16.

Definition uint32 (z : Z) : Z := z mod 2 ^ 32.

(** [hashmix(value, hash_const)]: the hashed value and the new constant. *)
Definition hashmix (value hash_const : Z) : Z * Z :=
  let value := Z.lxor value hash_const in
  let hash_const := uint32 (hash_const * MULT_A) in
  let value := uint32 (value * hash_const) in
  (Z.lxor value (Z.shiftr value XSHIFT), hash_const).

Definition mix (x y : Z) : Z :=
  let r := uint32 (MIX_MULT_L * x - MIX_MULT_R * y) in
  Z.lxor r (Z.shiftr r XSHIFT).

(** The seed as little-endian 32-bit words; 0 is the one word 0. *)
Fixpoint uint32_words_fuel (fuel : nat) (z : Z) : list Z :=
  match fuel with
  | O => []
  | S fuel' =>
      uint32 z :: (if z / 2 ^ 32 =? 0 then [] else uint32_words_fuel fuel' (z / 2 ^ 32))
  end.

Definition uint32_words (z : Z) : list Z :=
  uint32_words_fuel (S (Z.to_nat (Z.log2 z / 32))) z.

Definition set_word (i : nat) (v : Z) (pool : list Z) : list Z :=
  firstn i pool ++ v :: skipn (S i) pool.

(** [mix_entropy]: the pool of four words from the entropy words. *)
Definition mix_entropy (entropy : list Z) : list Z :=
  let '(pool, hc) :=
    fold_left (fun (st : list Z * Z) (i : nat) =>
                 let '(h, hc) := hashmix (nth i entropy 0) (snd st) in (fst st ++ [h], hc))
              (seq 0 4) ([], INIT_A) in
  let '(pool, hc) :=
    fold_left (fun (st : list Z * Z) (sd : nat * nat) =>
                 if (fst sd =? snd sd)%nat then st
                 else
                   let '(h, hc) := hashmix (nth (fst sd) (fst st) 0) (snd st) in
                   (set_word (snd sd) (mix (nth (snd sd) (fst st) 0) h) (fst st), hc))
              (list_prod (seq 0 4) (seq 0 4)) (pool, hc) in
  fst (fold_left (fun (st : list Z * Z) (sd : nat * nat) =>
                    let '(h, hc) := hashmix (nth (fst sd) entropy 0) (snd st) in
                    (set_word (snd sd) (mix (nth (snd sd) (fst st) 0) h) (fst st), hc))
                 (list_prod (seq 4 (length entropy - 4)) (seq 0 4)) (pool, hc)).

(** [generate_state(n_words, uint32)] *)
Definition generate_state (pool : list Z) (n_words : nat) : list Z :=
  fst (fold_left (fun (st : list Z * Z) (i : nat) =>
                    let d := Z.lxor (nth (i mod 4) pool 0) (snd st) in
                    let hc := uint32 (snd st * MULT_B) in
                    let d := uint32 (d * hc) in
                    (fst st ++ [Z.lxor d (Z.shiftr d XSHIFT)], hc))
                 (seq 0 n_words) ([], INIT_B)).

(** The state of PCG64 (numpy/random/src/pcg64): a 128-bit linear
    congruential generator with an odd increment. *)
Record pcg64 : Type := { state : Z; inc : Z }.

Definition MULTIPLIER : Z := 2549297995355413924 * 2 ^ 64 + 4865540595714422341.

Definition uint128 (z : Z) : Z := z mod 2 ^ 128.

(** [pcg_setseq_128_step_r] *)
Definition step (g : pcg64) : pcg64 :=
  {| state := uint128 (state g * MULTIPLIER + inc g); inc := inc g |}.

(** [pcg_setseq_128_srandom_r] *)
Definition srandom (initstate initseq : Z) : pcg64 :=
  let g := step {| state := 0; inc := uint128 (Z.lor (Z.shiftl initseq 1) 1) |} in
  step {| state := uint128 (state g + initstate); inc := inc g |}.

(** [PCG64(seed)]: four 64-bit words out of the seed sequence, the first two
    the initial state (high word first), the last two the stream. *)
Definition seed (z : Z) : pcg64 :=
  let w := generate_state (mix_entropy (uint32_words z)) 8 in
  let u64 (i : nat) := nth (2 * i) w 0 + nth (2 * i + 1) w 0 * 2 ^ 32 in
  srandom (u64 0%nat * 2 ^ 64 + u64 1%nat) (u64 2%nat * 2 ^ 64 + u64 3%nat).

(** [pcg_output_xsl_rr_128_64]: the two halves xored, rotated right by the
    top six bits. *)
Definition output (g : pcg64) : Z :=
  let x := Z.lxor (Z.shiftr (state g) 64) (state g mod 2 ^ 64) in
  let rot := Z.shiftr (state g) 122 in
  (Z.lor (Z.shiftr x rot) (Z.shiftl x ((64 - rot) mod 64))) mod 2 ^ 64.

(** The generator after [n] draws of 64 bits. *)
Definition advance (n : N) (g : pcg64) : pcg64 := N.iter n step g.

(** [next_double]: [(next_uint64 >> 11) * (1.0 / 9007199254740992.0)], a
    product that is exact in float64. *)
Definition to_double (m : Z) : spec_float :=
  match m with
  | Zpos p =>
      S754_finite false (Pos.shiftl p (Z.to_N (53 - Zpos (digits2_pos p))))
                  (Zpos (digits2_pos p) - 106)
  | _ => S754_zero false
  end.

Definition next_double (g : pcg64) : spec_float :=
  to_double (Z.shiftr (output (step g)) 11).

(** [Generator.random(sh + (k,))]: the doubles in row-major order. *)
Definition random (g : pcg64) (sh : list nat) (k : nat) : list (list spec_float) * pcg64 :=
  (map (fun r => map (fun c => next_double (advance (N.of_nat (r * k + c)) g)) (seq 0 k))
       (seq 0 (size sh)),
   advance (N.of_nat (size sh * k)) g).

(** Stand-ins for the three other draws, which keep the contract and use up
    the stream but are not numpy's algorithms (bounded integers by rejection,
    normal deviates by the ziggurat): they come after [random] in every
    builder, so what [random] returns does not depend on them. *)
Definition choice (g : pcg64) (n : nat) (sh : list nat) : list nat * pcg64 :=
  (map (fun i => Z.to_nat (output (advance (N.of_nat (S i)) g) mod Z.of_nat n))
       (seq 0 (size sh)),
   advance (N.of_nat (size sh)) g).

Definition integers (g : pcg64) (lo hi : Z) (sh : list nat) : list Z * pcg64 :=
  (map (fun i => lo + output (advance (N.of_nat (S i)) g) mod (hi - lo)) (seq 0 (size sh)),
   advance (N.of_nat (size sh)) g).

Definition normal (g : pcg64) (loc : list spec_float) (sc : spec_float) (n k : nat)
  : list (list spec_float) * pcg64 :=
  (repeat (firstn k (loc ++ repeat (S754_zero false) k)) n, advance (N.of_nat (n * k)) g).

(** [n] steps at once: the steps compose to one map [s -> a * s + c] modulo
    2^128, by squaring. *)
Fixpoint affine_pow (p : positive) (a c : Z) : Z * Z :=
  match p with
  | xH => (uint128 a, uint128 c)
  | xO p' =>
      let '(a', c') := affine_pow p' a c in
      (uint128 (a' * a'), uint128 (a' * c' + c'))
  | xI p' =>
      let '(a', c') := affine_pow p' a c in
      let a2 := uint128 (a' * a') in
      let c2 := uint128 (a' * c' + c') in
      (uint128 (a * a2), uint128 (a * c2 + c))
  end.

Definition jump (n : N) (g : pcg64) : pcg64 :=
  match n with
  | N0 => g
  | Npos p =>
      let '(a, c) := affine_pow p MULTIPLIER (inc g) in
      {| state := uint128 (a * state g + c); inc := inc g |}
  end.

End Pcg64.

(** ** The vocabulary of the properties *)

(** [mag_le K j x]: [x] is finite and [|x| <= K * 2^j]. *)
Definition mag_le (K j : Z) (x : spec_float) : Prop :=
  match x with
  | S754_zero _ => True
  | S754_finite _ m e => e <= j /\ Zpos m <= K * 2 ^ (j - e)
  | _ => False
  end.

Definition has_sign (s : bool) (x : spec_float) : Prop :=
  match x with
  | S754_zero s' | S754_finite s' _ _ => s' = s
  | _ => False
  end.

Definition nonneg (x : spec_float) : Prop :=
  match x with
  | S754_zero _ => True
  | S754_finite s _ _ => s = false
  | _ => False
  end.

(** [runs c r t]: whatever the world, [c] returns [r] and appends [t] to the
    trace. *)
Definition runs {A : Type} (c : M A) (r : result A) (t : list event) : Prop :=
  forall w, c w = (r, w ++ t).

Definition keys (items : list (Z * nat)) : list Z := map fst items.

(** The label values that have an entry in the active mapping. *)
Definition known_labels (is_xbb : bool) : list Z := map snd (label_dict is_xbb).

(** [item_ok labels mapping it]: the label of the pair has a mapping entry
    and its count is the number of its occurrences. *)
Definition item_ok (labels : list Z) (mapping : list (Z * list spec_float))
  (it : Z * nat) : Prop :=
  dict_get mapping (fst it) <> None /\ snd it = count_true (map (Z.eqb (fst it)) labels).

(** The calls of [rng.normal] the loop makes from index [i] on, as long as
    the labels have a mapping entry and the index is within [scales]. *)
Fixpoint normal_calls (mapping : list (Z * list spec_float)) (nclass : nat)
  (items : list (Z * nat)) (i : nat) : list event :=
  match items with
  | [] => []
  | (l, c) :: rest =>
      match dict_get mapping l, nth_error scales i with
      | Some loc, Some s => EvNormal loc s [c; nclass] :: normal_calls mapping nclass rest (S i)
      | _, _ => []
      end
  end.

(** Column [k] of the rows of an unstructured array. *)
Definition column_of (k : nat) (rws : list (list spec_float)) : list spec_float :=
  map (fun r => nth k r S754_nan) rws.

(** [(x - 0.5) * 6.0] in float32. *)
Definition eta_formula (x : spec_float) : spec_float :=
  f4_mul (f4_sub x (f4_lit 1 (-1))) (f4_lit 6 0).

(** The twelve base fields of the jets once [mock_jets] has filled them,
    from the uniform draws [rws] and the three label draws. *)
Definition jets_fields (rws : list (list spec_float)) (fl ids r10 : list Z) (n : nat)
  : list (string * column) :=
  [ ("pt", F4col (map (fun x => f4_mul x (f4_lit 400000 0))
                      (map f8_to_f4 (column_of 0 rws))));
    ("eta", F4col (map eta_formula (map f8_to_f4 (column_of 1 rws))));
    ("abs_eta", F4col (map SFabs (map eta_formula (map f8_to_f4 (column_of 1 rws)))));
    ("mass", F4col (map (fun x => f4_mul x (f4_lit 50000 0))
                        (map f8_to_f4 (column_of 3 rws))));
    ("pt_btagJes", F4col (map f8_to_f4 (column_of 4 rws)));
    ("eta_btagJes", F4col (map f8_to_f4 (column_of 5 rws)));
    ("n_tracks", I4col (map float_to_i4 (column_of 6 rws)));
    ("HadronConeExclTruthLabelID", I4col (map wrap32 ids));
    ("HadronConeExclTruthLabelPt", F4col (map f8_to_f4 (column_of 8 rws)));
    ("R10TruthLabel_R22v1", I4col (map wrap32 r10));
    ("n_truth_promptLepton", I4col (map wrap32 (repeat 0 n)));
    ("flavour_label", I4col (map wrap32 fl)) ].

(** The events that are calls into numpy.random. *)
Definition rng_event (e : event) : bool :=
  match e with
  | EvDefaultRng _ | EvRandom _ | EvChoice _ _ | EvIntegers _ _ _ | EvNormal _ _ _ => true
  | _ => false
  end.

(** The names of the datasets a trace creates, in order. *)
Fixpoint datasets_written (t : list event) : list string :=
  match t with
  | [] => []
  | EvCreateDataset _ name _ :: rest => name :: datasets_written rest
  | _ :: rest => datasets_written rest
  end.

(** What [get_mock_file] does to the file once the jets are there. *)
Definition jets_events (fname : string) (jets : recarray) : list event :=
  [ EvOpenFile fname "w";
    EvCreateDataset fname "jets" jets;
    EvSetAttr fname "/" "test" "test";
    EvSetAttr fname "jets" "test" "test" ].

(** The file name [get_mock_file] settles on in world [w], and the event
    that goes with it. *)
Definition chosen_name {platform : Platform} (fname : option string) (w : World) : string :=
  match fname with
  | None => tmp_name w
  | Some f => f
  end.

Definition name_event {platform : Platform} (fname : option string) (w : World) : event :=
  match fname with
  | None => EvTempFile (tmp_name w)
  | Some f => EvMkdir (path_parent f)
  end.

Definition succeeds {A : Type} (r : result A) : bool :=
  match r with
  | Ok _ => true
  | Err _ => false
  end.

Definition is_normal (e : event) : bool :=
  match e with
  | EvNormal _ _ _ => true
  | _ => false
  end.

(** Merging arrays of shapes (10,) and (20,). *)
Definition ten : recarray := {| shape := [10%nat]; fields := [("a", I4col (repeat 0 10))] |}.
Definition twenty : recarray := {| shape := [20%nat]; fields := [("b", I4col (repeat 0 20))] |}.

(** The scale list as the claim words it: cycled. *)
Definition cycled_scale (i : nat) : spec_float :=
  nth (i mod length scales) scales S754_nan.

(** ** More vocabulary: draws, ranks and signs *)

(** [occurrences labels l j]: how many of the first [j] labels are [l]. *)
Definition occurrences (labels : list Z) (l : Z) (j : nat) : nat :=
  count_true (map (Z.eqb l) (firstn j labels)).

(** The number of distinct label values of the array that are smaller than
    [l]. *)
Definition rank (labels : list Z) (l : Z) : nat :=
  length (filter (fun k => k <? l) (nodup Z.eq_dec labels)).

(** The sign bit of [x] is [s], or [x] is NaN. *)
Definition sign_is (s : bool) (x : spec_float) : Prop :=
  match x with
  | S754_nan => True
  | S754_zero s' | S754_infinity s' | S754_finite s' _ _ => s' = s
  end.

Definition sign_clear (x : spec_float) : Prop := sign_is false x.

(** The comparison [x < 0] is false. *)
Definition not_negative (x : spec_float) : bool := negb (SFltb x (S754_zero false)).

Section Draws.

Context {G : Type} {gen : Generator G}.

(** The arrays [rng.normal] returns to the loop of [get_mock_scores], in
    order, from index [i] and generator state [rng] on. *)
Fixpoint loop_draws (mapping : list (Z * list spec_float)) (nclass : nat)
  (items : list (Z * nat)) (i : nat) (rng : G) : list (list (list spec_float)) :=
  match items with
  | [] => []
  | (l, c) :: rest =>
      match dict_get mapping l, nth_error scales i with
      | Some loc, Some s =>
          fst (rng_normal rng loc s c nclass)
          :: loop_draws mapping nclass rest (S i) (snd (rng_normal rng loc s c nclass))
      | _, _ => []
      end
  end.

End Draws.

(** The fields of the array [get_mock_scores] returns, from the rows [sm]
    the softmax gives: column [k] of [sm], cast to "f4", under the [k]-th
    score name. *)
Definition scores_fields (is_xbb : bool) (sm : list (list spec_float))
  : list (string * column) :=
  map (fun kc : nat * string => (snd kc, F4col (map f8_to_f4 (column_of (fst kc) sm))))
      (combine (seq 0 4) (score_cols is_xbb)).

(** The number of rows a call of [rng.normal] asks for. *)
Definition rows_requested (e : event) : nat :=
  match e with
  | EvNormal _ _ (n :: _) => n
  | _ => 0%nat
  end.

(** The twenty-one fields of the tracks once [mock_tracks] has filled them,
    from the uniform draws [rws] and the two integer draws. *)
Definition tracks_fields (rws : list (list spec_float)) (h1 h2 : list Z)
  : list (string * column) :=
  [ ("d0", F4col (map (fun x => f4_mul x (f4_lit 5 0)) (map f8_to_f4 (column_of 0 rws))));
    ("z0SinTheta", F4col (map f8_to_f4 (column_of 1 rws)));
    ("dphi", F4col (map f8_to_f4 (column_of 2 rws)));
    ("deta", F4col (map f8_to_f4 (column_of 3 rws)));
    ("qOverP", F4col (map f8_to_f4 (column_of 4 rws)));
    ("IP3D_signed_d0_significance", F4col (map f8_to_f4 (column_of 5 rws)));
    ("IP3D_signed_z0_significance", F4col (map f8_to_f4 (column_of 6 rws)));
    ("phiUncertainty", F4col (map f8_to_f4 (column_of 7 rws)));
    ("thetaUncertainty", F4col (map f8_to_f4 (column_of 8 rws)));
    ("qOverPUncertainty", F4col (map f8_to_f4 (column_of 9 rws)));
    ("numberOfPixelHits", I4col (map float_to_i4 (column_of 10 rws)));
    ("numberOfSCTHits", I4col (map float_to_i4 (column_of 11 rws)));
    ("numberOfInnermostPixelLayerHits", I4col (map float_to_i4 (column_of 12 rws)));
    ("numberOfNextToInnermostPixelLayerHits", I4col (map float_to_i4 (column_of 13 rws)));
    ("numberOfInnermostPixelLayerSharedHits", I4col (map float_to_i4 (column_of 14 rws)));
    ("numberOfInnermostPixelLayerSplitHits", I4col (map float_to_i4 (column_of 15 rws)));
    ("numberOfPixelSharedHits", I4col (map wrap32 h1));
    ("numberOfPixelSplitHits", I4col (map float_to_i4 (column_of 17 rws)));
    ("numberOfSCTSharedHits", I4col (map wrap32 h2));
    ("numberOfPixelHoles", I4col (map float_to_i4 (column_of 19 rws)));
    ("numberOfSCTHoles", I4col (map float_to_i4 (column_of 20 rws))) ].

(** The integer fields of the tracks that [mock_tracks] never assigns, and
    its float fields other than "d0". *)
Definition unassigned_hit_fields : list string :=
  [ "numberOfPixelHits"; "numberOfSCTHits"; "numberOfInnermostPixelLayerHits";
    "numberOfNextToInnermostPixelLayerHits"; "numberOfInnermostPixelLayerSharedHits";
    "numberOfInnermostPixelLayerSplitHits"; "numberOfPixelSplitHits";
    "numberOfPixelHoles"; "numberOfSCTHoles" ].

Definition unscaled_track_fields : list string :=
  [ "z0SinTheta"; "dphi"; "deta"; "qOverP"; "IP3D_signed_d0_significance";
    "IP3D_signed_z0_significance"; "phiUncertainty"; "thetaUncertainty";
    "qOverPUncertainty" ].

(** The float fields of the jets that [mock_jets] leaves as drawn. *)
Definition unscaled_jet_fields : list string :=
  [ "pt_btagJes"; "eta_btagJes"; "HadronConeExclTruthLabelPt" ].

(** The seeds a trace passes to [np.random.default_rng], in order. *)
Fixpoint seeds (t : list event) : list Z :=
  match t with
  | [] => []
  | EvDefaultRng seed :: rest => seed :: seeds rest
  | _ :: rest => seeds rest
  end.

(** ** More vocabulary: rounding errors and distributions *)

(** [2^e] as a rational, and the value of a finite float through it. *)
Definition pow2 (e : Z) : Q := ((2 # 1) ^ e)%Q.

(** What rounding returns: the value [m2 * 2^T]. *)
Definition rounds_to (s : bool) (m2 T : Z) (r : spec_float) : Prop :=
  match r with
  | S754_zero s' => s' = s /\ m2 = 0
  | S754_finite s' p E => s' = s /\ T <= E /\ m2 = Zpos p * 2 ^ (E - T)
  | _ => False
  end.

(** Not above zero: a zero, a negative finite value or minus infinity. *)
Definition nonpositive (d : spec_float) : Prop :=
  match d with
  | S754_zero _ | S754_finite true _ _ | S754_infinity true => True
  | _ => False
  end.

Definition Qsum (l : list Q) : Q := fold_right Qplus 0%Q l.

(** The provisos of the score distribution: what numpy and libm are taken to
    guarantee. *)
Definition max_is_largest {platform : Platform} : Prop :=
  forall l, l <> [] -> Forall (fun v => is_finite v = true) l ->
    In (np_max l) l /\ Forall (fun v => (to_Q v <= to_Q (np_max l))%Q) l.

Definition exp_of_zero_is_one {platform : Platform} : Prop :=
  forall s, is_finite (np_exp (S754_zero s)) = true /\
            (to_Q (np_exp (S754_zero s)) == 1)%Q.

Definition exp_in_unit_interval {platform : Platform} : Prop :=
  forall d, nonpositive d ->
    is_finite (np_exp d) = true /\ (0 <= to_Q (np_exp d) <= 1)%Q.

Definition sum_of_exps_accurate {platform : Platform} (gamma : Q) : Prop :=
  forall ds, length ds = 4%nat -> Forall nonpositive ds ->
    let l := map np_exp ds in
    is_finite (np_sum l) = true /\
    (Qabs (to_Q (np_sum l) - Qsum (map to_Q l)) <= gamma * Qsum (map to_Q l))%Q.

Definition normal_draws_finite {G : Type} {gen : Generator G} : Prop :=
  forall g loc sc n, In loc means -> In sc scales ->
    Forall (Forall (fun v => is_finite v = true)) (fst (rng_normal g loc sc n 4)).

(** ** src/ftag/__init__.py *)

Module Init.

(** What the module takes from [yaml], [ftag.cuts] and [ftag.flavour], none of
    which is this package's [mock.py]: the values in a mapping of
    [flavours.yaml] (compared as dictionary keys are), the [Cuts] and [Flavour]
    objects and the container with their constructors, and what the
    constructors raise. *)
Class Library : Type := {
  yaml : Type;
  yaml_eq_dec : forall x y : yaml, {x = y} + {x <> y};
  Cuts : Type;
  Flavour : Type;
  FlavourContainer : Type;
  exn : Type;
  Cuts_from_list : yaml -> exn + Cuts;
  new_Flavour : Cuts -> list (string * yaml) -> exn + Flavour;
  new_FlavourContainer : list (yaml * Flavour) -> exn + FlavourContainer
}.

Section Load.

Context {lib : Library}.

(** One mapping of the YAML file: a Python [dict] with string keys, in
    insertion order. *)
Definition entry : Type := list (string * yaml).

Inductive error : Type :=
| KeyError (key : string)
| AssertionError (msg : string)
| Raised (e : exn).

(** [f[k]] *)
Fixpoint get (f : entry) (k : string) : option yaml :=
  match f with
  | [] => None
  | (k0, v) :: rest => if String.eqb k k0 then Some v else get rest k
  end.

(** [del f[k]] *)
Fixpoint del (f : entry) (k : string) : entry :=
  match f with
  | [] => []
  | (k0, v) :: rest => if String.eqb k k0 then del rest k else (k0, v) :: del rest k
  end.

(** [f.pop(k)]: the value and what is left of [f]. *)
Definition pop (f : entry) (k : string) : error + yaml * entry :=
  match get f k with
  | Some v => inr (v, del f k)
  | None => inl (KeyError k)
  end.

(** [d[k] = v] on the dictionary under construction: a key that is present
    keeps its place and takes the new value. *)
Fixpoint setitem (d : list (yaml * Flavour)) (k : yaml) (v : Flavour)
  : list (yaml * Flavour) :=
  match d with
  | [] => [(k, v)]
  | (k0, v0) :: rest =>
      if yaml_eq_dec k k0 then (k0, v) :: rest else (k0, v0) :: setitem rest k v
  end.

(** One turn of the comprehension,
    [f["name"]: Flavour(cuts=Cuts.from_list(f.pop("cuts")), **f)]: the key is
    evaluated before the value (Python 3.8 and later), and [**f] is [f] once
    "cuts" is popped. *)
Definition flavour_item (f : entry) : error + yaml * Flavour :=
  match get f "name" with
  | None => inl (KeyError "name")
  | Some name =>
      match pop f "cuts" with
      | inl e => inl e
      | inr (cuts, f') =>
          match Cuts_from_list cuts with
          | inl e => inl (Raised e)
          | inr c =>
              match new_Flavour c f' with
              | inl e => inl (Raised e)
              | inr fl => inr (name, fl)
              end
          end
      end
  end.

(** The dictionary comprehension over [flavours_yaml], from the dictionary
    [d] built so far. *)
Fixpoint comprehension (flavours_yaml : list entry) (d : list (yaml * Flavour))
  : error + list (yaml * Flavour) :=
  match flavours_yaml with
  | [] => inr d
  | f :: rest =>
      match flavour_item f with
      | inl e => inl e
      | inr (k, v) => comprehension rest (setitem d k v)
      end
  end.

Definition flavours_dict (flavours_yaml : list entry) : error + list (yaml * Flavour) :=
  comprehension flavours_yaml [].

(** The body of the module once [flavours.yaml] is read: the comprehension,
    the assertion, the container. *)
Definition Flavours (flavours_yaml : list entry) : error + FlavourContainer :=
  match flavours_dict flavours_yaml with
  | inl e => inl e
  | inr d =>
      if (length d =? length flavours_yaml)%nat then
        match new_FlavourContainer d with
        | inl e => inl (Raised e)
        | inr c => inr c
        end
      else inl (AssertionError "Duplicate flavour names detected")
  end.

End Load.

End Init.

(** A library for tests: values are strings, empty cuts are refused, a
    flavour records what it was built from. *)
Definition test_library : Init.Library := {|
  Init.yaml := string;
  Init.yaml_eq_dec := string_dec;
  Init.Cuts := string;
  Init.Flavour := string * list (string * string);
  Init.FlavourContainer := list (string * (string * list (string * string)));
  Init.exn := string;
  Init.Cuts_from_list := fun s => if String.eqb s "" then inl "no cuts" else inr s;
  Init.new_Flavour := fun c f => inr (c, f);
  Init.new_FlavourContainer := fun d => inr d
|}.

(** Three well-formed entries, the third with the name of the first. *)
Definition bjets : list (string * string) := [("name", "bjets"); ("cuts", "label == 5")].
Definition cjets : list (string * string) := [("name", "cjets"); ("cuts", "label == 4")].
Definition bjets_again : list (string * string) :=
  [("name", "bjets"); ("cuts", "label == 5"); ("colour", "blue")].
Definition no_cuts : list (string * string) := [("name", "ujets")].

(** The dictionary that inserting the items [its] one by one into [d]
    gives. *)
Definition insert_all {lib : Init.Library} (its : list (Init.yaml * Init.Flavour))
  (d : list (Init.yaml * Init.Flavour)) : list (Init.yaml * Init.Flavour) :=
  fold_left (fun d it => Init.setitem d (fst it) (snd it)) its d.

(** * Properties *)

(** ** Rounding in [spec_float] *)

Lemma digits2_pos_size (p : positive) : digits2_pos p = Pos.size p.
Proof. induction p; simpl; congruence. Qed.

Lemma digits2_gt (p : positive) : Zpos p < 2 ^ Zpos (digits2_pos p).
Proof.
  rewrite digits2_pos_size.
  pose proof (Pos.size_gt p) as H.
  rewrite <- Pos2Z.inj_pow. lia.
Qed.

Lemma digits2_le (p : positive) (d : Z) :
  0 <= d -> Zpos p < 2 ^ d -> Zpos (digits2_pos p) <= d.
Proof.
  intros Hd Hp. rewrite digits2_pos_size.
  pose proof (Pos.size_le p) as H.
  assert (H' : 2 ^ Zpos (Pos.size p) <= 2 * Zpos p).
  { rewrite <- Pos2Z.inj_pow. lia. }
  destruct (Z_le_gt_dec (Zpos (Pos.size p)) d) as [|Hgt]; [assumption|exfalso].
  assert (Hpow : 2 ^ (d + 1) <= 2 ^ Zpos (Pos.size p)) by (apply Z.pow_le_mono_r; lia).
  rewrite Z.pow_add_r in Hpow by lia. lia.
Qed.

Lemma iter_pos_nat {A : Type} (f : A -> A) (p : positive) (x : A) :
  iter_pos f p x = Nat.iter (Pos.to_nat p) f x.
Proof.
  revert x. induction p as [p IH|p IH|]; intros x; cbn [iter_pos].
  - rewrite !IH, Pos2Nat.inj_xI.
    replace (S (2 * Pos.to_nat p))%nat with (Pos.to_nat p + (Pos.to_nat p + 1))%nat by lia.
    rewrite !Nat.iter_add. reflexivity.
  - rewrite !IH, Pos2Nat.inj_xO.
    replace (2 * Pos.to_nat p)%nat with (Pos.to_nat p + Pos.to_nat p)%nat by lia.
    rewrite Nat.iter_add. reflexivity.
  - reflexivity.
Qed.

Lemma shr_1_spec (m : Z) (r s : bool) :
  0 <= m ->
  shr_1 (Build_shr_record m r s) = Build_shr_record (m / 2) (Z.odd m) (r || s).
Proof.
  intros Hm. rewrite <- Z.div2_div.
  destruct m as [|p|p]; [reflexivity| |lia].
  destruct p; reflexivity.
Qed.

(** [k] one-bit shifts divide by [2^k]; the sticky bits stay clear when the
    division is exact. *)
Lemma shr_iter_spec (m : Z) (k : nat) :
  0 <= m ->
  let st := Nat.iter k shr_1 (Build_shr_record m false false) in
  shr_m st = m / 2 ^ Z.of_nat k /\
  (m mod 2 ^ Z.of_nat k = 0 -> shr_r st = false /\ shr_s st = false).
Proof.
  intros Hm. induction k as [|k IH].
  - simpl. rewrite Z.div_1_r. auto.
  - cbn zeta in *. rewrite Nat.iter_succ.
    destruct (Nat.iter k shr_1 _) as [mk rk sk] eqn:E. cbn [shr_m shr_r shr_s] in IH.
    destruct IH as [IHm IHrs].
    assert (Hmk : 0 <= mk) by (subst mk; apply Z.div_pos; lia).
    rewrite shr_1_spec by assumption. cbn [shr_m shr_r shr_s].
    rewrite Nat2Z.inj_succ, Z.pow_succ_r by lia.
    split.
    + subst mk. rewrite Z.div_div by lia. f_equal. lia.
    + intros Hmod.
      assert (Hdiv : (2 * 2 ^ Z.of_nat k | m)) by (apply Z.mod_divide; lia).
      destruct Hdiv as [q Hq].
      assert (Hk : m mod 2 ^ Z.of_nat k = 0).
      { apply Z.mod_divide; [lia|]. exists (q * 2). lia. }
      destruct (IHrs Hk) as [-> ->]. split; [|reflexivity].
      subst mk. replace m with (2 * q * 2 ^ Z.of_nat k) by lia.
      rewrite Z.div_mul by lia.
      rewrite Z.odd_mul. reflexivity.
Qed.

Lemma round_nearest_even_bounds (mrs : shr_record) :
  let m2 := round_nearest_even (shr_m mrs) (loc_of_shr_record mrs) in
  shr_m mrs <= m2 <= shr_m mrs + 1 /\
  (shr_r mrs = false -> shr_s mrs = false -> m2 = shr_m mrs).
Proof.
  destruct mrs as [m [|] [|]]; simpl; repeat split; try lia; try discriminate;
    destruct (Z.even m); lia.
Qed.

Section Rounding.

Variables prec emax : Z.
Hypothesis prec_pos : 0 < prec.

Lemma fexp_le (K j : Z) (m : positive) (e : Z) :
  0 < K < 2 ^ prec -> emin prec emax <= j -> e <= j ->
  Zpos m <= K * 2 ^ (j - e) ->
  fexp prec emax (Zpos (digits2_pos m) + e) <= j.
Proof.
  intros HK Hemin He Hm.
  assert (Hd : Zpos (digits2_pos m) <= prec + (j - e)).
  { apply digits2_le; [lia|]. rewrite Z.pow_add_r by lia.
    assert (0 < 2 ^ (j - e)) by (apply Z.pow_pos_nonneg; lia). nia. }
  unfold fexp. lia.
Qed.

(** Shifting a non-negative mantissa right by [n] bits. *)
Lemma shr_exact_spec (m e n : Z) :
  0 <= m ->
  let '(mrs, e') := shr (Build_shr_record m false false) e n in
  e' = e + Z.max n 0 /\ shr_m mrs = m / 2 ^ Z.max n 0 /\
  (m mod 2 ^ Z.max n 0 = 0 -> shr_r mrs = false /\ shr_s mrs = false).
Proof.
  intros Hm. destruct n as [|p|p]; cbn [shr].
  - rewrite Z.div_1_r. cbn. repeat split; lia.
  - rewrite iter_pos_nat.
    pose proof (shr_iter_spec m (Pos.to_nat p) Hm) as H. cbn zeta in H.
    rewrite positive_nat_Z in H. rewrite Z.max_l by lia.
    destruct H as [H1 H2]. repeat split; try apply H2; auto.
  - rewrite Z.div_1_r. cbn. repeat split; lia.
Qed.

(** Rounding to nearest never crosses a bound [K * 2^j] that the format
    holds: the result is finite, of the sign given, and within the bound. *)
Lemma binary_round_aux_mag (s : bool) (mx : positive) (ex K j : Z) :
  0 < K < 2 ^ prec -> emin prec emax <= j -> j <= emax - prec ->
  ex <= j -> Zpos mx <= K * 2 ^ (j - ex) ->
  let r := binary_round_aux prec emax s (Zpos mx) ex loc_Exact in
  mag_le K j r /\ has_sign s r.
Proof.
  intros HK Hemin Hemax Hex Hmx r. subst r.
  unfold binary_round_aux, shr_fexp. cbn [Zdigits2 shr_record_of_loc].
  pose proof (fexp_le K j mx ex HK Hemin Hex Hmx) as He1.
  set (e1 := fexp prec emax (Zpos (digits2_pos mx) + ex)) in *.
  pose proof (shr_exact_spec (Zpos mx) ex (e1 - ex) ltac:(lia)) as H1.
  destruct (shr _ ex (e1 - ex)) as [mrs1 e1'].
  destruct H1 as (He1' & Hm1 & Hex1).
  pose proof (round_nearest_even_bounds mrs1) as Hr. cbn zeta in Hr.
  set (m2 := round_nearest_even (shr_m mrs1) (loc_of_shr_record mrs1)) in *.
  destruct Hr as [Hr1 Hr2].
  set (n := Z.max (e1 - ex) 0) in *.
  assert (Hn : 0 <= n) by lia.
  assert (Hpn : 0 < 2 ^ n) by (apply Z.pow_pos_nonneg; lia).
  assert (Hm1' : 0 <= shr_m mrs1) by (rewrite Hm1; apply Z.div_pos; lia).
  assert (He1j : e1' <= j) by lia.
  assert (Hm2 : 0 <= m2 <= K * 2 ^ (j - e1')).
  { split; [lia|].
    assert (Hsplit : K * 2 ^ (j - ex) = K * 2 ^ (j - e1') * 2 ^ n).
    { rewrite <- Z.mul_assoc, <- Z.pow_add_r by lia. do 2 f_equal. lia. }
    rewrite Hsplit in Hmx.
    destruct (Z.eq_dec (Zpos mx mod 2 ^ n) 0) as [Hz|Hnz].
    - destruct (Hex1 Hz) as [Hr Hs]. rewrite (Hr2 Hr Hs), Hm1.
      apply Z.div_le_upper_bound; lia.
    - assert (Zpos mx / 2 ^ n < K * 2 ^ (j - e1')); [|lia].
      apply Z.div_lt_upper_bound; [lia|].
      assert (Zpos mx <> 2 ^ n * (K * 2 ^ (j - e1'))); [|lia].
      intros Heq. apply Hnz. rewrite Heq, Z.mul_comm. apply Z.mod_mul. lia. }
  destruct (Z.eq_dec m2 0) as [Hz|Hnz].
  { rewrite Hz.
    pose proof (shr_exact_spec 0 e1' (fexp prec emax (Zdigits2 0 + e1') - e1') ltac:(lia))
      as H2.
    destruct (shr _ e1' _) as [mrs2 e2]. destruct H2 as (_ & H2 & _).
    rewrite Z.div_0_l in H2 by (apply Z.pow_nonzero; lia).
    rewrite H2. cbn. auto. }
  destruct m2 as [|p2|p2] eqn:Em2; [lia| |lia].
  pose proof (fexp_le K j p2 e1' HK Hemin He1j ltac:(lia)) as He2.
  cbn [Zdigits2].
  set (e2 := fexp prec emax (Zpos (digits2_pos p2) + e1')) in *.
  pose proof (shr_exact_spec (Zpos p2) e1' (e2 - e1') ltac:(lia)) as H2.
  destruct (shr _ e1' (e2 - e1')) as [mrs2 e2'].
  destruct H2 as (He2' & Hm3 & _).
  set (n2 := Z.max (e2 - e1') 0) in *.
  assert (Hpn2 : 0 < 2 ^ n2) by (apply Z.pow_pos_nonneg; lia).
  assert (Hm3' : 0 <= shr_m mrs2 <= K * 2 ^ (j - e2')).
  { rewrite Hm3. split; [apply Z.div_pos; lia|].
    apply Z.div_le_upper_bound; [lia|].
    replace (2 ^ n2 * (K * 2 ^ (j - e2'))) with (K * (2 ^ (j - e2') * 2 ^ n2)) by ring.
    rewrite <- Z.pow_add_r by lia.
    replace (j - e2' + n2) with (j - e1') by lia. lia. }
  destruct (shr_m mrs2) as [|p3|p3]; [cbn; auto| |lia].
  replace (e2' <=? emax - prec) with true by (symmetry; apply Z.leb_le; lia).
  cbn. split; [split; lia | reflexivity].
Qed.

Lemma shl_align_spec (mx : positive) (ex ex' : Z) :
  let '(mz, ez) := shl_align mx ex ex' in
  ez = Z.min ex ex' /\ Zpos mz = Zpos mx * 2 ^ (ex - ez).
Proof.
  unfold shl_align. destruct (ex' - ex) as [|d|d] eqn:E.
  - split; [lia|]. replace (ex - ex) with 0 by lia. lia.
  - split; [lia|]. replace (ex - ex) with 0 by lia. lia.
  - split; [lia|].
    replace (ex - ex') with (Zpos d) by lia.
    rewrite <- Pos2Z.inj_pow, <- Pos2Z.inj_mul. f_equal.
    clear E. revert mx.
    induction d using Pos.peano_ind; intros mx.
    + cbn. lia.
    + rewrite Pos.iter_succ, IHd, Pos.pow_succ_r. lia.
Qed.

Lemma binary_round_mag (s : bool) (mx : positive) (ex K j : Z) :
  0 < K < 2 ^ prec -> emin prec emax <= j -> j <= emax - prec ->
  ex <= j -> Zpos mx <= K * 2 ^ (j - ex) ->
  let r := binary_round prec emax s mx ex in
  mag_le K j r /\ has_sign s r.
Proof.
  intros HK Hemin Hemax Hex Hmx. unfold binary_round.
  pose proof (shl_align_spec mx ex (fexp prec emax (Zpos (digits2_pos mx) + ex))) as H.
  destruct (shl_align _ _ _) as [mz ez]. destruct H as [Hez Hmz].
  apply binary_round_aux_mag; try assumption; [lia|].
  rewrite Hmz.
  replace (j - ez) with ((j - ex) + (ex - ez)) by lia.
  rewrite Z.pow_add_r by lia.
  assert (0 < 2 ^ (ex - ez)) by (apply Z.pow_pos_nonneg; lia). nia.
Qed.

End Rounding.

(** ** Rounding errors *)

Lemma shr_m_iter (k : nat) (mrs : shr_record) :
  0 <= shr_m mrs -> shr_m (Nat.iter k shr_1 mrs) = shr_m mrs / 2 ^ Z.of_nat k.
Proof.
  intros Hm. induction k as [|k IH].
  - cbn. now rewrite Z.div_1_r.
  - rewrite Nat.iter_succ.
    destruct (Nat.iter k shr_1 mrs) as [mk rk sk] eqn:E. cbn [shr_m] in IH.
    assert (Hmk : 0 <= mk) by (subst mk; apply Z.div_pos; lia).
    rewrite shr_1_spec by assumption. cbn [shr_m].
    rewrite Nat2Z.inj_succ, Z.pow_succ_r by lia.
    subst mk. rewrite Z.div_div by lia. f_equal. lia.
Qed.

Lemma shr_m_spec (mrs : shr_record) (e n : Z) :
  0 <= shr_m mrs ->
  let '(mrs', e') := shr mrs e n in
  e' = e + Z.max n 0 /\ shr_m mrs' = shr_m mrs / 2 ^ Z.max n 0.
Proof.
  intros Hm. destruct n as [|p|p]; cbn [shr].
  - rewrite Z.div_1_r. split; [lia|reflexivity].
  - rewrite iter_pos_nat, shr_m_iter by assumption.
    rewrite positive_nat_Z, Z.max_l by lia. split; reflexivity.
  - rewrite Z.div_1_r. split; [lia|reflexivity].
Qed.

Lemma shr_record_of_loc_m (m : Z) (l : location) : shr_m (shr_record_of_loc m l) = m.
Proof. destruct l as [|[| |]]; reflexivity. Qed.

Lemma Zdigits2_bounds (m : Z) :
  0 < m -> 2 ^ (Zdigits2 m - 1) <= m < 2 ^ Zdigits2 m.
Proof.
  intros Hm. destruct m as [|p|p]; try lia. cbn [Zdigits2]. split; [|apply digits2_gt].
  rewrite digits2_pos_size. pose proof (Pos.size_le p) as H.
  assert (H' : 2 ^ Zpos (Pos.size p) <= 2 * Zpos p) by (rewrite <- Pos2Z.inj_pow; lia).
  replace (Zpos (Pos.size p)) with (Z.succ (Zpos (Pos.size p) - 1)) in H' by lia.
  rewrite Z.pow_succ_r in H' by lia. lia.
Qed.

Lemma Zdigits2_le (m d : Z) : 0 <= d -> 0 <= m < 2 ^ d -> Zdigits2 m <= d.
Proof.
  intros Hd [Hm0 Hm]. destruct m as [|p|p]; [cbn; lia| |lia]. now apply digits2_le.
Qed.

Lemma Zdigits2_nonneg (m : Z) : 0 <= Zdigits2 m.
Proof. destruct m; cbn; lia. Qed.

Section RoundingError.

Variables prec emax : Z.
Hypothesis prec_pos : 0 < prec.

(** Rounding a mantissa that carries at least the precision of the format:
    the result is the mantissa cut to the exponent [T] of the format, or that
    plus one, whatever the location says. *)
Lemma binary_round_aux_err (s : bool) (m e : Z) (l : location) :
  0 <= m ->
  let T := fexp prec emax (Zdigits2 m + e) in
  e <= T -> T + 1 <= emax - prec ->
  exists m2,
    (m2 = m / 2 ^ (T - e) \/ m2 = m / 2 ^ (T - e) + 1) /\
    rounds_to s m2 T (binary_round_aux prec emax s m e l).
Proof.
  intros Hm T HeT Hov.
  assert (Hemin : emin prec emax <= T) by (subst T; unfold fexp; lia).
  unfold binary_round_aux, shr_fexp. fold T.
  pose proof (shr_m_spec (shr_record_of_loc m l) e (T - e)) as H1.
  rewrite shr_record_of_loc_m in H1. specialize (H1 Hm).
  destruct (shr (shr_record_of_loc m l) e (T - e)) as [mrs1 e1].
  destruct H1 as [He1 Hm1]. rewrite Z.max_l in He1, Hm1 by lia.
  replace e1 with T in * by lia. clear He1.
  set (mt := m / 2 ^ (T - e)) in *.
  assert (Hp : 0 < 2 ^ (T - e)) by (apply Z.pow_pos_nonneg; lia).
  assert (Hmt0 : 0 <= mt) by (apply Z.div_pos; lia).
  assert (Hmt : mt < 2 ^ prec).
  { apply Z.div_lt_upper_bound; [lia|]. rewrite <- Z.pow_add_r by lia.
    destruct (Z.eq_dec m 0) as [->|Hnz]; [apply Z.pow_pos_nonneg; lia|].
    pose proof (Zdigits2_bounds m ltac:(lia)) as [_ Hd].
    eapply Z.lt_le_trans; [exact Hd|]. apply Z.pow_le_mono_r; [lia|].
    subst T. unfold fexp in *. lia. }
  pose proof (round_nearest_even_bounds mrs1) as Hr. cbn zeta in Hr.
  set (m2 := round_nearest_even (shr_m mrs1) (loc_of_shr_record mrs1)) in *.
  destruct Hr as [Hr _]. rewrite Hm1 in Hr.
  exists m2. split; [lia|].
  destruct (Z.eq_dec m2 (2 ^ prec)) as [Htop|Hntop].
  - assert (Hd2 : Zdigits2 m2 = prec + 1).
    { assert (0 < m2) by (rewrite Htop; apply Z.pow_pos_nonneg; lia).
      pose proof (Zdigits2_bounds m2 ltac:(lia)) as [_ Hu].
      pose proof (Zdigits2_le m2 (prec + 1) ltac:(lia)) as Hl.
      assert (prec < Zdigits2 m2).
      { apply (Z.pow_lt_mono_r_iff 2); [lia|apply Zdigits2_nonneg|lia]. }
      assert (Zdigits2 m2 <= prec + 1); [|lia].
      apply Hl. split; [lia|]. rewrite Htop. apply Z.pow_lt_mono_r; lia. }
    rewrite Hd2.
    assert (HT1 : fexp prec emax (prec + 1 + T) = T + 1) by (unfold fexp; lia).
    rewrite HT1.
    pose proof (shr_m_spec (shr_record_of_loc m2 loc_Exact) T (T + 1 - T)) as H2.
    rewrite shr_record_of_loc_m in H2. specialize (H2 ltac:(lia)).
    destruct (shr (shr_record_of_loc m2 loc_Exact) T (T + 1 - T)) as [mrs2 e2].
    destruct H2 as [He2 Hm2]. replace (T + 1 - T) with 1 in * by lia.
    cbn [Z.max] in He2, Hm2. change (Z.max 1 0) with 1 in *.
    rewrite Htop in Hm2. rewrite Z.pow_1_r in Hm2.
    replace prec with (Z.succ (prec - 1)) in Hm2 at 1 by lia.
    rewrite Z.pow_succ_r in Hm2 by lia.
    rewrite Z.mul_comm, Z.div_mul in Hm2 by lia.
    rewrite Hm2.
    assert (Hpp : 0 < 2 ^ (prec - 1)) by (apply Z.pow_pos_nonneg; lia).
    destruct (2 ^ (prec - 1)) as [|p3|p3] eqn:E3; try lia.
    replace (e2 <=? emax - prec) with true by (symmetry; apply Z.leb_le; lia).
    cbn [rounds_to]. split; [reflexivity|]. split; [lia|].
    rewrite Htop. replace (e2 - T) with 1 by lia. rewrite Z.pow_1_r.
    replace prec with (Z.succ (prec - 1)) at 1 by lia.
    rewrite Z.pow_succ_r by lia. lia.
  - assert (Hm2 : 0 <= m2 < 2 ^ prec) by lia.
    assert (Hd2 : Zdigits2 m2 <= prec) by (apply Zdigits2_le; lia).
    pose proof (shr_m_spec (shr_record_of_loc m2 loc_Exact) T
                  (fexp prec emax (Zdigits2 m2 + T) - T)) as H2.
    rewrite shr_record_of_loc_m in H2. specialize (H2 ltac:(lia)).
    destruct (shr (shr_record_of_loc m2 loc_Exact) T _) as [mrs2 e2].
    destruct H2 as [He2 Hm3].
    assert (Hn2 : Z.max (fexp prec emax (Zdigits2 m2 + T) - T) 0 = 0)
      by (unfold fexp in *; lia).
    rewrite Hn2 in He2, Hm3. rewrite Z.div_1_r in Hm3.
    rewrite Hm3. destruct m2 as [|p2|p2]; [cbn; auto| |lia].
    replace (e2 <=? emax - prec) with true by (symmetry; apply Z.leb_le; lia).
    cbn [rounds_to]. split; [reflexivity|]. split; [lia|].
    replace (e2 - T) with 0 by lia. lia.
Qed.

(** When the exponent is above the least one, the cut mantissa has all the
    digits of the format. *)
Lemma cut_mantissa_normal (m e : Z) :
  0 < m ->
  let T := fexp prec emax (Zdigits2 m + e) in
  e <= T -> emin prec emax < T -> 2 ^ (prec - 1) <= m / 2 ^ (T - e).
Proof.
  intros Hm T HeT Hn.
  assert (HT : T = Zdigits2 m + e - prec) by (subst T; unfold fexp in *; lia).
  pose proof (Zdigits2_bounds m Hm) as [Hl _].
  apply Z.div_le_lower_bound; [apply Z.pow_pos_nonneg; lia|].
  rewrite <- Z.pow_add_r by lia.
  replace (T - e + (prec - 1)) with (Zdigits2 m - 1) by lia. exact Hl.
Qed.

End RoundingError.

Lemma pow2_pos (e : Z) : (0 < pow2 e)%Q.
Proof. apply Qpower_0_lt. reflexivity. Qed.

Lemma pow2_add (a b : Z) : (pow2 (a + b) == pow2 a * pow2 b)%Q.
Proof. apply Qpower_plus. discriminate. Qed.

Lemma pow2_Z (k : Z) : 0 <= k -> (pow2 k == inject_Z (2 ^ k))%Q.
Proof. intros Hk. unfold pow2. now rewrite Zpower_Qpower. Qed.

Lemma pow2_le (a b : Z) : a <= b -> (pow2 a <= pow2 b)%Q.
Proof.
  intros H. destruct (Z.eq_dec a b) as [->|Hne]; [apply Qle_refl|].
  apply Qlt_le_weak, Qpower_lt_compat_l; [lia|reflexivity].
Qed.

Lemma pow2_le_inv (a b : Z) : (pow2 a <= pow2 b)%Q -> a <= b.
Proof. intros H. apply (Qpower_le_compat_l_inv (2 # 1)); [exact H|reflexivity]. Qed.

Lemma to_Q_finite (s : bool) (m : positive) (e : Z) :
  (to_Q (S754_finite s m e) == inject_Z (cond_Zopp s (Zpos m)) * pow2 e)%Q.
Proof.
  destruct e as [|p|p]; cbn [to_Q].
  - rewrite Z.pow_0_r, Z.mul_1_r. unfold pow2. cbn [Qpower]. ring.
  - assert (E : cond_Zopp s (Zpos m * 2 ^ Zpos p) = cond_Zopp s (Zpos m) * 2 ^ Zpos p)
      by (destruct s; cbn [cond_Zopp]; lia).
    rewrite E, inject_Z_mult, pow2_Z by lia. reflexivity.
  - rewrite Qmake_Qdiv. unfold Qdiv. apply Qmult_comp; [reflexivity|].
    unfold pow2. cbn [Qpower]. apply Qinv_comp.
    rewrite Pos2Z.inj_pow. rewrite Zpower_Qpower by lia. reflexivity.
Qed.

Lemma rounds_to_Q (s : bool) (m2 T : Z) (r : spec_float) :
  rounds_to s m2 T r ->
  is_finite r = true /\ has_sign s r /\
  (to_Q r == inject_Z (cond_Zopp s m2) * pow2 T)%Q.
Proof.
  destruct r as [s'|s'| |s' p E]; cbn [rounds_to]; try contradiction.
  - intros [-> ->]. repeat split. cbn [to_Q]. destruct s; cbn; ring.
  - intros (-> & HE & ->). repeat split.
    rewrite to_Q_finite.
    replace E with (E - T + T) at 1 by lia. rewrite pow2_add, pow2_Z by lia.
    assert (Ec : cond_Zopp s (Zpos p * 2 ^ (E - T)) = cond_Zopp s (Zpos p) * 2 ^ (E - T))
      by (destruct s; cbn [cond_Zopp]; lia).
    rewrite Ec, inject_Z_mult. ring.
Qed.

Section RoundingErrorQ.

Variables prec emax : Z.
Hypothesis prec_pos : 0 < prec.

(** The error of rounding, as rationals: [m] and the location stand for a
    value [X] of [[m * 2^e, (m + 1) * 2^e]]; the result is within one unit in
    the last place of [X]. *)
Lemma binary_round_aux_Q (m e : Z) (l : location) (X : Q) :
  0 <= m ->
  (inject_Z m * pow2 e <= X)%Q -> (X <= inject_Z (m + 1) * pow2 e)%Q ->
  let T := fexp prec emax (Zdigits2 m + e) in
  e <= T -> T + 1 <= emax - prec ->
  let r := binary_round_aux prec emax false m e l in
  is_finite r = true /\ has_sign false r /\
  (X - (pow2 (1 - prec) * X + pow2 (emin prec emax)) <= to_Q r)%Q /\
  (to_Q r <= X + (pow2 (1 - prec) * X + pow2 (emin prec emax)))%Q.
Proof.
  intros Hm Hlo Hhi T HeT Hov r.
  destruct (binary_round_aux_err prec emax prec_pos false m e l Hm HeT Hov)
    as (m2 & Hm2 & Hr).
  fold T in Hm2. fold r in Hr.
  destruct (rounds_to_Q _ _ _ _ Hr) as (Hfin & Hsign & HQ).
  cbn [cond_Zopp] in HQ. change (fexp prec emax (Zdigits2 m + e)) with T in HQ.
  split; [exact Hfin|]. split; [exact Hsign|].
  set (P := 2 ^ (T - e)) in *.
  assert (HP : 0 < P) by (apply Z.pow_pos_nonneg; lia).
  set (mt := m / P) in *.
  assert (Hdiv : mt * P <= m /\ m + 1 <= (mt + 1) * P).
  { pose proof (Z.div_mod m P ltac:(lia)) as Hd.
    pose proof (Z.mod_pos_bound m P HP) as Hb. fold mt in Hd. nia. }
  assert (HpT : (pow2 T == inject_Z P * pow2 e)%Q).
  { replace T with (T - e + e) at 1 by lia. rewrite pow2_add, pow2_Z by lia. reflexivity. }
  pose proof (pow2_pos e) as Hpe. pose proof (pow2_pos T) as HpT0.
  assert (H1 : (inject_Z mt * pow2 T <= X)%Q).
  { eapply Qle_trans; [|exact Hlo]. rewrite HpT, Qmult_assoc, <- inject_Z_mult.
    apply Qmult_le_compat_r; [|apply Qlt_le_weak, Hpe].
    rewrite <- Zle_Qle. lia. }
  assert (H2 : (X <= inject_Z (mt + 1) * pow2 T)%Q).
  { eapply Qle_trans; [exact Hhi|]. rewrite HpT, Qmult_assoc, <- inject_Z_mult.
    apply Qmult_le_compat_r; [|apply Qlt_le_weak, Hpe].
    rewrite <- Zle_Qle. lia. }
  assert (HX0 : (0 <= X)%Q).
  { eapply Qle_trans; [|exact Hlo]. apply Qmult_le_0_compat; [|apply Qlt_le_weak, Hpe].
    change 0%Q with (inject_Z 0). rewrite <- Zle_Qle. lia. }
  assert (Hulp : (pow2 T <= pow2 (1 - prec) * X + pow2 (emin prec emax))%Q).
  { pose proof (pow2_pos (1 - prec)) as Hp1. pose proof (pow2_pos (emin prec emax)) as Hp2.
    destruct (Z.eq_dec T (emin prec emax)) as [HT|HT].
    - rewrite HT in *.
      assert (0 <= pow2 (1 - prec) * X)%Q by (apply Qmult_le_0_compat; [apply Qlt_le_weak, Hp1|exact HX0]).
      lra.
    - assert (Hn : emin prec emax < T) by (subst T; unfold fexp in *; lia).
      assert (Hmpos : 0 < m).
      { destruct (Z.eq_dec m 0) as [E0|]; [|lia]. exfalso.
        subst T. rewrite E0 in *. cbn [Zdigits2] in *. unfold fexp in *. lia. }
      pose proof (cut_mantissa_normal prec emax prec_pos m e Hmpos HeT Hn) as Hc.
      fold T in Hc. fold P in Hc. fold mt in Hc.
      assert (Hc' : (pow2 (prec - 1) * pow2 T <= X)%Q).
      { eapply Qle_trans; [|exact H1].
        apply Qmult_le_compat_r; [|apply Qlt_le_weak, HpT0].
        rewrite pow2_Z by lia. rewrite <- Zle_Qle. exact Hc. }
      assert (Hone : (pow2 (1 - prec) * pow2 (prec - 1) == 1)%Q).
      { rewrite <- pow2_add. replace (1 - prec + (prec - 1)) with 0 by lia. reflexivity. }
      assert (Hc2 : (pow2 (1 - prec) * (pow2 (prec - 1) * pow2 T) <= pow2 (1 - prec) * X)%Q).
      { rewrite !(Qmult_comm (pow2 (1 - prec))).
        apply Qmult_le_compat_r; [exact Hc'|apply Qlt_le_weak, Hp1]. }
      rewrite Qmult_assoc, Hone, Qmult_1_l in Hc2. lra. }
  rewrite inject_Z_plus in H2. change (inject_Z 1) with 1%Q in H2.
  destruct Hm2 as [E|E]; rewrite E in HQ; rewrite HQ.
  - split; lra.
  - rewrite inject_Z_plus. change (inject_Z 1) with 1%Q. split; lra.
Qed.

End RoundingErrorQ.

Lemma to_Q_positive (m : positive) (e : Z) : (0 < to_Q (S754_finite false m e))%Q.
Proof.
  rewrite to_Q_finite. cbn [cond_Zopp].
  apply Qmult_lt_0_compat; [|apply pow2_pos].
  change 0%Q with (inject_Z 0). rewrite <- Zlt_Qlt. lia.
Qed.

Lemma to_Q_negative (m : positive) (e : Z) : (to_Q (S754_finite true m e) < 0)%Q.
Proof.
  rewrite to_Q_finite. cbn [cond_Zopp].
  pose proof (pow2_pos e) as Hp.
  assert (H : (0 < inject_Z (Zpos m) * pow2 e)%Q).
  { apply Qmult_lt_0_compat; [|exact Hp].
    change 0%Q with (inject_Z 0). rewrite <- Zlt_Qlt. lia. }
  change (Z.neg m) with (- Zpos m). rewrite inject_Z_opp. lra.
Qed.

Section DivisionError.

Variables prec emax : Z.
Hypothesis prec_pos : 0 < prec.
Hypothesis emax_two : 2 <= emax.

Lemma fexp_mono (a b : Z) : a <= b -> fexp prec emax a <= fexp prec emax b.
Proof. unfold fexp. lia. Qed.

Lemma Zdigits2_ge (m d : Z) : 0 <= d -> 2 ^ d <= m -> d + 1 <= Zdigits2 m.
Proof.
  intros Hd Hm.
  assert (Hpos : 0 < 2 ^ d) by (apply Z.pow_pos_nonneg; lia).
  pose proof (Zdigits2_bounds m ltac:(lia)) as [_ Hu].
  assert (d < Zdigits2 m); [|lia].
  apply (Z.pow_lt_mono_r_iff 2); [lia|apply Zdigits2_nonneg|lia].
Qed.

(** A value below [2^K], with [K + 2 <= emax], does not overflow. *)
Lemma round_no_overflow (m e K : Z) (X : Q) :
  0 <= m -> (inject_Z m * pow2 e <= X)%Q -> (X <= pow2 K)%Q -> K + 2 <= emax ->
  let T := fexp prec emax (Zdigits2 m + e) in
  e <= T -> T + 1 <= emax - prec.
Proof.
  intros Hm Hlo Hhi HK T HeT.
  destruct (Z.eq_dec T (emin prec emax)) as [HT|HT].
  - rewrite HT. unfold emin. lia.
  - assert (Hn : T = Zdigits2 m + e - prec) by (subst T; unfold fexp in *; lia).
    assert (Hmpos : 0 < m).
    { destruct (Z.eq_dec m 0) as [E0|]; [|lia]. exfalso.
      rewrite E0 in *. cbn [Zdigits2] in *. lia. }
    pose proof (Zdigits2_bounds m Hmpos) as [Hl _].
    assert (Hd : 1 <= Zdigits2 m).
    { pose proof (Zdigits2_ge m 0 ltac:(lia) ltac:(cbn; lia)). lia. }
    assert (Hle : (pow2 (Zdigits2 m - 1 + e) <= pow2 K)%Q).
    { eapply Qle_trans; [|exact Hhi]. eapply Qle_trans; [|exact Hlo].
      rewrite pow2_add, pow2_Z by lia.
      apply Qmult_le_compat_r; [|apply Qlt_le_weak, pow2_pos].
      rewrite <- Zle_Qle. exact Hl. }
    apply pow2_le_inv in Hle. lia.
Qed.

Lemma SFdiv_core_binary_spec (m1 e1 m2 e2 : Z) :
  0 < m1 -> 0 < m2 ->
  let '(q, e', l) := SFdiv_core_binary prec emax m1 e1 m2 e2 in
  exists s, 0 <= s /\ e1 - e2 = e' + s /\ 0 <= q /\
            q * m2 <= m1 * 2 ^ s /\ m1 * 2 ^ s + 1 <= (q + 1) * m2 /\
            e' <= fexp prec emax (Zdigits2 q + e').
Proof.
  intros H1 H2. unfold SFdiv_core_binary.
  set (d1 := Zdigits2 m1). set (d2 := Zdigits2 m2).
  set (F := fexp prec emax (d1 + e1 - (d2 + e2))).
  set (e' := Z.min F (e1 - e2)).
  set (s := e1 - e2 - e').
  assert (Hs : 0 <= s) by (subst s e'; lia).
  set (m' := match s with Z0 => m1 | Zpos _ => Z.shiftl m1 s | Zneg _ => 0 end).
  assert (Hm' : m' = m1 * 2 ^ s).
  { subst m'. destruct s as [|p|p] eqn:Es; [rewrite Z.pow_0_r; lia| |lia].
    rewrite Z.shiftl_mul_pow2 by lia. reflexivity. }
  pose proof (Z_div_mod m' m2 ltac:(lia)) as Hdm.
  destruct (Z.div_eucl m' m2) as [q r]. destruct Hdm as [Hq Hr].
  assert (Hp : 0 < 2 ^ s) by (apply Z.pow_pos_nonneg; lia).
  assert (Hq0 : 0 <= q) by nia.
  exists s. rewrite <- Hm'. repeat split; try lia; try nia.
  apply Z.le_trans with F; [subst e'; lia|].
  apply fexp_mono.
  destruct (Z_le_gt_dec (d1 - d2 + s) 0) as [Hneg|Hposd].
  - pose proof (Zdigits2_nonneg q). subst s. lia.
  - assert (Hge : 2 ^ (d1 - d2 + s - 1) <= q).
    { pose proof (Zdigits2_bounds m1 H1) as [Hl1 _].
      pose proof (Zdigits2_bounds m2 H2) as [_ Hu2]. fold d1 in Hl1. fold d2 in Hu2.
      assert (Hd2 : 0 <= d2) by apply Zdigits2_nonneg.
      assert (Hd1 : 1 <= d1).
      { pose proof (Zdigits2_ge m1 0 ltac:(lia) ltac:(cbn; lia)). subst d1. lia. }
      assert (Hm'' : 2 ^ (d1 - d2 + s - 1) * 2 ^ d2 <= m').
      { rewrite <- Z.pow_add_r by lia. rewrite Hm'.
        replace (d1 - d2 + s - 1 + d2) with (d1 - 1 + s) by lia.
        rewrite Z.pow_add_r by lia. nia. }
      assert (Hpp : 0 < 2 ^ (d1 - d2 + s - 1)) by (apply Z.pow_pos_nonneg; lia).
      assert (Hlt : 2 ^ (d1 - d2 + s - 1) * m2 < (q + 1) * m2) by nia.
      assert (2 ^ (d1 - d2 + s - 1) < q + 1) by nia. lia. }
    pose proof (Zdigits2_ge q (d1 - d2 + s - 1) ltac:(lia) Hge). subst s. lia.
Qed.

(** The quotient of two positive finite values that is at most [2^K]: the
    result of [SFdiv] is finite, not negative and within one unit in the last
    place of the quotient. *)
Lemma SFdiv_Q (mx my : positive) (ex ey K : Z) :
  let x := S754_finite false mx ex in
  let y := S754_finite false my ey in
  let t := (to_Q x / to_Q y)%Q in
  (t <= pow2 K)%Q -> K + 2 <= emax ->
  let r := SFdiv prec emax x y in
  is_finite r = true /\ has_sign false r /\
  (t - (pow2 (1 - prec) * t + pow2 (emin prec emax)) <= to_Q r)%Q /\
  (to_Q r <= t + (pow2 (1 - prec) * t + pow2 (emin prec emax)))%Q.
Proof.
  intros x y t Ht HK r. subst r x y. cbn [SFdiv xorb].
  pose proof (SFdiv_core_binary_spec (Zpos mx) ex (Zpos my) ey ltac:(lia) ltac:(lia)) as Hc.
  destruct (SFdiv_core_binary prec emax (Zpos mx) ex (Zpos my) ey) as [[q e'] l].
  destruct Hc as (s & Hs & He & Hq0 & Hlo & Hhi & HeT).
  assert (Et : (t == inject_Z (Zpos mx * 2 ^ s) * pow2 e' / inject_Z (Zpos my))%Q).
  { subst t. rewrite !to_Q_finite. cbn [cond_Zopp].
    replace ex with (s + e' + ey) by lia.
    rewrite !pow2_add, inject_Z_mult, (pow2_Z s) by lia.
    pose proof (pow2_pos ey). 
    assert (~ inject_Z (Zpos my) == 0)%Q.
    { change 0%Q with (inject_Z 0). rewrite inject_Z_injective. lia. }
    field. split; [assumption|lra]. }
  assert (Hb : (0 < inject_Z (Zpos my))%Q).
  { change 0%Q with (inject_Z 0). rewrite <- Zlt_Qlt. lia. }
  pose proof (pow2_pos e') as Hpe.
  assert (Hlo' : (inject_Z q * pow2 e' <= t)%Q).
  { rewrite Et. apply Qle_shift_div_l; [exact Hb|].
    rewrite <- Qmult_assoc, (Qmult_comm (pow2 e')), Qmult_assoc, <- inject_Z_mult.
    apply Qmult_le_compat_r; [|apply Qlt_le_weak, Hpe].
    rewrite <- Zle_Qle. exact Hlo. }
  assert (Hhi' : (t <= inject_Z (q + 1) * pow2 e')%Q).
  { rewrite Et. apply Qle_shift_div_r; [exact Hb|].
    rewrite <- Qmult_assoc, (Qmult_comm (pow2 e')), Qmult_assoc, <- inject_Z_mult.
    apply Qmult_le_compat_r; [|apply Qlt_le_weak, Hpe].
    rewrite <- Zle_Qle. lia. }
  apply (binary_round_aux_Q prec emax prec_pos q e' l t Hq0 Hlo' Hhi' HeT).
  exact (round_no_overflow q e' K t Hq0 Hlo' Ht HK HeT).
Qed.

(** The same for the rounding of a value into the format, as a cast does. *)
Lemma binary_round_Q (mx : positive) (ex K : Z) :
  let X := to_Q (S754_finite false mx ex) in
  (X <= pow2 K)%Q -> K + 2 <= emax ->
  let r := binary_round prec emax false mx ex in
  is_finite r = true /\ has_sign false r /\
  (X - (pow2 (1 - prec) * X + pow2 (emin prec emax)) <= to_Q r)%Q /\
  (to_Q r <= X + (pow2 (1 - prec) * X + pow2 (emin prec emax)))%Q.
Proof.
  intros X HX HK r. subst r. unfold binary_round.
  pose proof (shl_align_spec mx ex (fexp prec emax (Zpos (digits2_pos mx) + ex))) as H.
  destruct (shl_align _ _ _) as [mz ez]. destruct H as [Hez Hmz].
  assert (EX : (X == inject_Z (Zpos mz) * pow2 ez)%Q).
  { subst X. rewrite to_Q_finite. cbn [cond_Zopp]. rewrite Hmz, inject_Z_mult.
    replace ex with (ex - ez + ez) at 1 by lia.
    rewrite pow2_add, pow2_Z by lia. ring. }
  assert (Hlo : (inject_Z (Zpos mz) * pow2 ez <= X)%Q) by (rewrite EX; apply Qle_refl).
  assert (Hhi : (X <= inject_Z (Zpos mz + 1) * pow2 ez)%Q).
  { rewrite EX. apply Qmult_le_compat_r; [|apply Qlt_le_weak, pow2_pos].
    rewrite <- Zle_Qle. lia. }
  assert (HeT : ez <= fexp prec emax (Zdigits2 (Zpos mz) + ez)).
  { apply Z.le_trans with (fexp prec emax (Zpos (digits2_pos mx) + ex)); [lia|].
    apply fexp_mono.
    pose proof (Zdigits2_bounds (Zpos mx) ltac:(lia)) as [Hl _]. cbn [Zdigits2] in Hl.
    assert (Hd : 1 <= Zpos (digits2_pos mx)) by lia.
    assert (Hp : 0 < 2 ^ (ex - ez)) by (apply Z.pow_pos_nonneg; lia).
    pose proof (Zdigits2_ge (Zpos mz) (Zpos (digits2_pos mx) - 1 + (ex - ez)) ltac:(lia)) as Hg.
    rewrite Z.pow_add_r in Hg by lia. specialize (Hg ltac:(nia)). lia. }
  apply (binary_round_aux_Q prec emax prec_pos (Zpos mz) ez loc_Exact X
           ltac:(lia) Hlo Hhi HeT).
  exact (round_no_overflow (Zpos mz) ez K X ltac:(lia) Hlo HX HK HeT).
Qed.

End DivisionError.

(** ** Subtraction, division and the cast on values that are not negative *)

Lemma binary_round_aux_class (prec emax : Z) (s : bool) (m e : Z) (l : location) :
  0 <= m ->
  match binary_round_aux prec emax s m e l with
  | S754_nan => False
  | S754_zero s' | S754_infinity s' | S754_finite s' _ _ => s' = s
  end.
Proof.
  intros Hm. unfold binary_round_aux, shr_fexp.
  pose proof (shr_m_spec (shr_record_of_loc m l) e
                (fexp prec emax (Zdigits2 m + e) - e)) as H1.
  rewrite shr_record_of_loc_m in H1. specialize (H1 Hm).
  destruct (shr (shr_record_of_loc m l) e _) as [mrs1 e1]. destruct H1 as [_ Hm1].
  assert (H0 : 0 <= shr_m mrs1).
  { rewrite Hm1. apply Z.div_pos; [lia|apply Z.pow_pos_nonneg; lia]. }
  pose proof (round_nearest_even_bounds mrs1) as [Hr _].
  set (m2 := round_nearest_even (shr_m mrs1) (loc_of_shr_record mrs1)) in *.
  pose proof (shr_m_spec (shr_record_of_loc m2 loc_Exact) e1
                (fexp prec emax (Zdigits2 m2 + e1) - e1)) as H2.
  rewrite shr_record_of_loc_m in H2. specialize (H2 ltac:(lia)).
  destruct (shr (shr_record_of_loc m2 loc_Exact) e1 _) as [mrs2 e2]. destruct H2 as [_ Hm2].
  assert (H3 : 0 <= shr_m mrs2).
  { rewrite Hm2. apply Z.div_pos; [lia|apply Z.pow_pos_nonneg; lia]. }
  destruct (shr_m mrs2) as [|p|p]; [reflexivity| |lia].
  destruct (e2 <=? emax - prec); reflexivity.
Qed.

Lemma binary_round_negative (prec emax : Z) (m : positive) (e : Z) :
  nonpositive (binary_round prec emax true m e).
Proof.
  unfold binary_round. destruct (shl_align _ _ _) as [mz ez].
  pose proof (binary_round_aux_class prec emax true (Zpos mz) ez loc_Exact ltac:(lia)) as H.
  destruct (binary_round_aux prec emax true (Zpos mz) ez loc_Exact) as [s|s| |s p E];
    try contradiction; subst s; exact I.
Qed.

Lemma shl_align_Q (s : bool) (mx : positive) (ex ez : Z) :
  ez <= ex ->
  (to_Q (S754_finite s mx ex)
   == inject_Z (cond_Zopp s (Zpos (fst (shl_align mx ex ez)))) * pow2 ez)%Q.
Proof.
  intros Hle. pose proof (shl_align_spec mx ex ez) as H.
  destruct (shl_align mx ex ez) as [mz ez']. destruct H as [He Hm]. cbn [fst].
  rewrite to_Q_finite.
  assert (E : cond_Zopp s (Zpos mz) = cond_Zopp s (Zpos mx) * 2 ^ (ex - ez)).
  { rewrite Hm. replace ez' with ez by lia. destruct s; cbn [cond_Zopp]; lia. }
  rewrite E, inject_Z_mult. replace ex with (ex - ez + ez) at 1 by lia.
  rewrite pow2_add, pow2_Z by lia. ring.
Qed.

(** [v - m] for finite [v <= m] is not above zero (it may overflow to minus
    infinity). *)
Lemma f8_sub_nonpositive (v m : spec_float) :
  is_finite v = true -> is_finite m = true -> (to_Q v <= to_Q m)%Q ->
  nonpositive (f8_sub v m).
Proof.
  unfold f8_sub.
  destruct v as [sv|sv| |sv mv ev]; try discriminate;
    destruct m as [sm|sm| |sm mm em]; try discriminate; intros _ _ Hle.
  - cbn [SFsub]. destruct sv, sm; exact I.
  - cbn [SFsub]. destruct sm; [|exact I].
    pose proof (to_Q_negative mm em) as Hn.
    change (to_Q (S754_zero sv)) with 0%Q in Hle. lra.
  - cbn [SFsub]. destruct sv; [exact I|].
    pose proof (to_Q_positive mv ev) as Hn.
    change (to_Q (S754_zero sm)) with 0%Q in Hle. lra.
  - cbn [SFsub]. cbv zeta.
    rewrite (shl_align_Q sv mv ev (Z.min ev em)) in Hle by lia.
    rewrite (shl_align_Q sm mm em (Z.min ev em)) in Hle by lia.
    set (D := cond_Zopp sv (Zpos (fst (shl_align mv ev (Z.min ev em))))
              - cond_Zopp sm (Zpos (fst (shl_align mm em (Z.min ev em))))).
    assert (HD : D <= 0).
    { destruct (Z_le_gt_dec D 0) as [|Hpos]; [assumption|exfalso].
      pose proof (pow2_pos (Z.min ev em)) as Hp.
      assert (H1 : (0 < inject_Z D * pow2 (Z.min ev em))%Q).
      { apply Qmult_lt_0_compat; [|exact Hp].
        change 0%Q with (inject_Z 0). rewrite <- Zlt_Qlt. lia. }
      subst D. unfold Z.sub in H1. rewrite inject_Z_plus, inject_Z_opp in H1. lra. }
    destruct D as [|p|p]; [exact I|lia|].
    cbn [binary_normalize]. apply binary_round_negative.
Qed.

Lemma f8_sub_self (v : spec_float) :
  is_finite v = true -> exists s, f8_sub v v = S754_zero s.
Proof.
  unfold f8_sub. destruct v as [s|s| |s m e]; try discriminate; intros _.
  - cbn [SFsub]. destruct s; eexists; reflexivity.
  - cbn [SFsub]. cbv zeta. rewrite Z.sub_diag. eexists. reflexivity.
Qed.

Lemma has_sign_false_Q (r : spec_float) : has_sign false r -> (0 <= to_Q r)%Q.
Proof.
  destruct r as [s|s| |s m e]; cbn [has_sign]; try contradiction.
  - intros _. apply Qle_refl.
  - intros ->. apply Qlt_le_weak, to_Q_positive.
Qed.

Lemma finite_positive (y : spec_float) :
  is_finite y = true -> (0 < to_Q y)%Q -> exists m e, y = S754_finite false m e.
Proof.
  destruct y as [s|s| |s m e]; intros Hf H; try discriminate Hf.
  - exfalso. revert H. apply Qlt_irrefl.
  - destruct s; [|eauto]. pose proof (to_Q_negative m e). lra.
Qed.

Lemma finite_not_negative (x : spec_float) :
  is_finite x = true -> (0 <= to_Q x)%Q ->
  (exists s, x = S754_zero s) \/ exists m e, x = S754_finite false m e.
Proof.
  destruct x as [s|s| |s m e]; try discriminate; intros _ H.
  - left. eauto.
  - destruct s; [|right; eauto]. pose proof (to_Q_negative m e). lra.
Qed.

Lemma pow2_1 : (pow2 1 == 2)%Q.
Proof. reflexivity. Qed.

(** The quotient in float64 of two values that are not negative, the
    quotient being at most 2: within [2^-52] of it, relatively, or [2^-1074]. *)
Lemma f8_div_Q (x y : spec_float) :
  is_finite x = true -> (0 <= to_Q x)%Q ->
  is_finite y = true -> (0 < to_Q y)%Q ->
  let t := (to_Q x / to_Q y)%Q in
  (t <= 2)%Q ->
  is_finite (f8_div x y) = true /\ (0 <= to_Q (f8_div x y))%Q /\
  (t - (pow2 (-52) * t + pow2 (-1074)) <= to_Q (f8_div x y))%Q /\
  (to_Q (f8_div x y) <= t + (pow2 (-52) * t + pow2 (-1074)))%Q.
Proof.
  intros Hfx Hx Hfy Hy t Ht.
  destruct (finite_positive y Hfy Hy) as (my & ey & ->).
  destruct (finite_not_negative x Hfx Hx) as [[s ->]|(mx & ex & ->)].
  - unfold f8_div. cbn [SFdiv xorb is_finite to_Q].
    assert (Et : (t == 0)%Q) by (subst t; cbn [to_Q]; unfold Qdiv; ring).
    pose proof (pow2_pos (-1074)). rewrite Et.
    split; [reflexivity|]. split; [apply Qle_refl|]. split; lra.
  - pose proof (SFdiv_Q f8_prec f8_emax ltac:(reflexivity) ltac:(discriminate)
                  mx my ex ey 1) as H.
    cbv zeta in H. fold t in H. rewrite pow2_1 in H.
    specialize (H Ht ltac:(discriminate)).
    destruct H as (Hf & Hs & Hlo & Hhi).
    split; [exact Hf|]. split; [now apply has_sign_false_Q|]. split; assumption.
Qed.

(** The cast to float32 of a value of [[0, 2]]: within [2^-23] of it,
    relatively, or [2^-149]. *)
Lemma f8_to_f4_Q (x : spec_float) :
  is_finite x = true -> (0 <= to_Q x)%Q -> (to_Q x <= 2)%Q ->
  is_finite (f8_to_f4 x) = true /\ (0 <= to_Q (f8_to_f4 x))%Q /\
  (to_Q x - (pow2 (-23) * to_Q x + pow2 (-149)) <= to_Q (f8_to_f4 x))%Q /\
  (to_Q (f8_to_f4 x) <= to_Q x + (pow2 (-23) * to_Q x + pow2 (-149)))%Q.
Proof.
  intros Hfx Hx Hle.
  destruct (finite_not_negative x Hfx Hx) as [[s ->]|(mx & ex & ->)].
  - cbn [f8_to_f4 is_finite to_Q]. pose proof (pow2_pos (-149)).
    split; [reflexivity|]. split; [apply Qle_refl|]. split; lra.
  - pose proof (binary_round_Q f4_prec f4_emax ltac:(reflexivity) ltac:(discriminate)
                  mx ex 1) as H.
    cbv zeta in H. rewrite pow2_1 in H.
    specialize (H Hle ltac:(discriminate)).
    destruct H as (Hf & Hs & Hlo & Hhi). cbn [f8_to_f4].
    split; [exact Hf|]. split; [now apply has_sign_false_Q|]. split; assumption.
Qed.

(** ** A softmax row as a distribution *)

Lemma pow2_m52 : (pow2 (-52) == 1 # 4503599627370496)%Q.
Proof. vm_compute. reflexivity. Qed.

Lemma pow2_m23 : (pow2 (-23) == 1 # 8388608)%Q.
Proof. vm_compute. reflexivity. Qed.

Lemma pow2_m149 : (pow2 (-149) == 1 # 713623846352979940529142984724747568191373312)%Q.
Proof. vm_compute. reflexivity. Qed.

Lemma pow2_m1074 : (0 < pow2 (-1074) <= 1 # 713623846352979940529142984724747568191373312)%Q.
Proof.
  split; [apply pow2_pos|]. rewrite <- pow2_m149. apply pow2_le. lia.
Qed.

Section Distribution.

Context {platform : Platform}.
Variable gamma : Q.
Hypothesis gamma_range : (0 <= gamma <= 1 # 4)%Q.
Hypothesis Hmax : max_is_largest.
Hypothesis Hexp0 : exp_of_zero_is_one.
Hypothesis Hexp : exp_in_unit_interval.
Hypothesis Hsum : sum_of_exps_accurate gamma.

(** One entry of a softmax row, cast to float32: [a] is the exponential, [s]
    the sum the code computed. *)
Lemma softmax_entry (e S : spec_float) :
  is_finite e = true -> (0 <= to_Q e)%Q ->
  is_finite S = true -> (0 < to_Q S)%Q ->
  (3 * to_Q e <= 4 * to_Q S)%Q ->
  let t := (to_Q e / to_Q S)%Q in
  let p := f8_to_f4 (f8_div e S) in
  is_finite p = true /\ (0 <= to_Q p)%Q /\
  (t * (8388606999 # 8388608000) - (1 # 1000000000000000000000000000000) <= to_Q p)%Q /\
  (to_Q p <= t * (8388609001 # 8388608000) + (1 # 1000000000000000000000000000000))%Q.
Proof.
  intros Hfe He HfS HS Hle t p.
  assert (Ht0 : (0 <= t)%Q).
  { subst t. apply Qle_shift_div_l; [exact HS|]. lra. }
  assert (Ht : (t <= 4 # 3)%Q).
  { subst t. apply Qle_shift_div_r; [exact HS|]. lra. }
  destruct (f8_div_Q e S Hfe He HfS HS ltac:(fold t; lra)) as (Hfq & Hq0 & Hqlo & Hqhi).
  fold t in Hqlo, Hqhi.
  pose proof pow2_m1074 as [H8a H8b].
  rewrite pow2_m52 in Hqlo, Hqhi.
  destruct (f8_to_f4_Q (f8_div e S) Hfq Hq0 ltac:(lra)) as (Hfp & Hp0 & Hplo & Hphi).
  rewrite pow2_m23, pow2_m149 in Hplo, Hphi.
  fold p in Hfp, Hp0, Hplo, Hphi.
  split; [exact Hfp|]. split; [exact Hp0|]. split; lra.
Qed.

Lemma softmax_row_distribution (x : list spec_float) :
  length x = 4%nat -> Forall (fun v => is_finite v = true) x ->
  let row := map f8_to_f4 (softmax_row x) in
  length row = 4%nat /\
  Forall (fun p => is_finite p = true /\ (0 <= to_Q p)%Q) row /\
  (Qabs (Qsum (map to_Q row) - 1) <= 2 * gamma + (1 # 4194304))%Q.
Proof.
  intros Hlen Hfin row.
  destruct (Hmax x) as [HM Hle]; [now destruct x|exact Hfin|].
  assert (HfM : is_finite (np_max x) = true).
  { rewrite Forall_forall in Hfin. now apply Hfin. }
  assert (Hds : Forall nonpositive (map (fun v => f8_sub v (np_max x)) x)).
  { apply Forall_map. rewrite Forall_forall in *. intros v Hv.
    apply f8_sub_nonpositive; auto. }
  pose proof (Hsum (map (fun v => f8_sub v (np_max x)) x)
                ltac:(now rewrite length_map) Hds) as HS.
  cbv zeta in HS. rewrite map_map in HS.
  assert (Hone : Exists (fun v => (to_Q (np_exp (f8_sub v (np_max x))) == 1)%Q) x).
  { apply Exists_exists. exists (np_max x). split; [exact HM|].
    destruct (f8_sub_self (np_max x) HfM) as [s ->]. apply Hexp0. }
  assert (Hunit : Forall (fun v => is_finite (np_exp (f8_sub v (np_max x))) = true /\
                                   (0 <= to_Q (np_exp (f8_sub v (np_max x))) <= 1)%Q) x).
  { rewrite Forall_forall in *. intros v Hv. apply Hexp.
    apply Hds. apply in_map_iff. eauto. }
  subst row. unfold softmax_row.
  set (M := np_max x) in *. clearbody M. clear HM Hle HfM Hds Hfin.
  destruct x as [|x0 [|x1 [|x2 [|x3 [|]]]]]; try discriminate Hlen. clear Hlen.
  cbn [map] in *.
  apply Forall_cons_iff in Hunit as [[Hf0 [Hl0 Hh0]] Hunit].
  apply Forall_cons_iff in Hunit as [[Hf1 [Hl1 Hh1]] Hunit].
  apply Forall_cons_iff in Hunit as [[Hf2 [Hl2 Hh2]] Hunit].
  apply Forall_cons_iff in Hunit as [[Hf3 [Hl3 Hh3]] _].
  set (e0 := np_exp (f8_sub x0 M)) in *. set (e1 := np_exp (f8_sub x1 M)) in *.
  set (e2 := np_exp (f8_sub x2 M)) in *. set (e3 := np_exp (f8_sub x3 M)) in *.
  set (S := np_sum [e0; e1; e2; e3]) in *.
  destruct HS as [HfS HS].
  cbn [Qsum fold_right] in *.
  assert (HE : (1 <= to_Q e0 + (to_Q e1 + (to_Q e2 + (to_Q e3 + 0))))%Q).
  { clear HS HfS. subst S e0 e1 e2 e3.
    repeat (apply Exists_cons in Hone as [Hone|Hone]; [lra|]).
    inversion Hone. }
  clear Hone.
  set (E := (to_Q e0 + (to_Q e1 + (to_Q e2 + (to_Q e3 + 0))))%Q) in *.
  apply Qabs_Qle_condition in HS as [HSlo HShi].
  destruct gamma_range as [Hg0 Hg1].
  assert (HG1 : (0 <= gamma * E)%Q) by (apply Qmult_le_0_compat; lra).
  assert (HG2 : (gamma * E <= (1 # 4) * E)%Q) by (apply Qmult_le_compat_r; lra).
  assert (Hs : (0 < to_Q S)%Q) by lra.
  assert (HG3 : (gamma * (gamma * E) <= (1 # 4) * (gamma * E))%Q)
    by (apply Qmult_le_compat_r; lra).
  assert (HG4 : (gamma * (E - gamma * E) <= gamma * to_Q S)%Q).
  { rewrite !(Qmult_comm gamma). apply Qmult_le_compat_r; lra. }
  assert (HG5 : (gamma * (E - gamma * E) == gamma * E - gamma * (gamma * E))%Q) by ring.
  set (T := (E / to_Q S)%Q).
  assert (HT1 : (T <= 1 + 2 * gamma)%Q).
  { subst T. apply Qle_shift_div_r; [exact Hs|]. lra. }
  assert (HT2 : (1 - 2 * gamma <= T)%Q).
  { subst T. apply Qle_shift_div_l; [exact Hs|]. lra. }
  destruct (softmax_entry e0 S Hf0 Hl0 HfS Hs ltac:(subst E; lra)) as (Hp0f & Hp0 & Hp0l & Hp0h).
  destruct (softmax_entry e1 S Hf1 Hl1 HfS Hs ltac:(subst E; lra)) as (Hp1f & Hp1 & Hp1l & Hp1h).
  destruct (softmax_entry e2 S Hf2 Hl2 HfS Hs ltac:(subst E; lra)) as (Hp2f & Hp2 & Hp2l & Hp2h).
  destruct (softmax_entry e3 S Hf3 Hl3 HfS Hs ltac:(subst E; lra)) as (Hp3f & Hp3 & Hp3l & Hp3h).
  assert (ET : (T == to_Q e0 / to_Q S + to_Q e1 / to_Q S + to_Q e2 / to_Q S
                     + to_Q e3 / to_Q S)%Q).
  { subst T E. field. lra. }
  split; [reflexivity|]. split.
  - repeat constructor; assumption.
  - apply Qabs_Qle_condition. split; lra.
Qed.

End Distribution.

(** ** The unit interval, the casts and the pseudorapidity formula *)

Lemma SFone_f8 : SFone f8_prec f8_emax = S754_finite false 4503599627370496 (-52).
Proof. vm_compute. reflexivity. Qed.

Lemma unit_f8_inv (u : spec_float) :
  unit_f8 u = true ->
  (exists s, u = S754_zero s) \/
  (exists m e, u = S754_finite false m e /\ e < 0 /\ Zpos m < 2 ^ (- e)).
Proof.
  unfold unit_f8. rewrite SFone_f8. intros H.
  apply andb_prop in H as [H Hlt]. apply andb_prop in H as [Hv Hle].
  destruct u as [s|[|]| |s m e]; try discriminate; [left; eauto|right].
  destruct s; [discriminate|]. exists m, e. split; [reflexivity|].
  unfold valid_binary, bounded in Hv. apply andb_prop in Hv as [Hc _].
  unfold canonical_mantissa in Hc. apply Z.eqb_eq in Hc.
  assert (Hd : Zpos (digits2_pos m) <= 53) by (unfold fexp, f8_prec in Hc; lia).
  pose proof (digits2_gt m) as Hm.
  assert (Hm53 : Zpos m < 2 ^ 53).
  { eapply Z.lt_le_trans; [exact Hm|]. apply Z.pow_le_mono_r; lia. }
  unfold SFltb, SFcompare in Hlt. rewrite Pos.compare_cont_spec in Hlt.
  destruct (e ?= -52) eqn:Ecmp.
  - apply Z.compare_eq in Ecmp. subst e. split; [lia|].
    destruct (Pos.compare m 4503599627370496) eqn:Em; try discriminate.
    replace (2 ^ (- -52)) with 4503599627370496 by (vm_compute; reflexivity).
    apply Pos2Z.pos_lt_pos. exact (proj1 (Pos.compare_lt_iff _ _) Em).
  - rewrite Z.compare_lt_iff in Ecmp. split; [lia|].
    eapply Z.lt_le_trans; [exact Hm53|]. apply Z.pow_le_mono_r; lia.
  - discriminate.
Qed.

(** A draw from [0, 1) truncates to the integer 0. *)
Lemma float_to_i4_unit (u : spec_float) : unit_f8 u = true -> float_to_i4 u = 0.
Proof.
  intros H. destruct (unit_f8_inv u H) as [[s ->]|(m & e & -> & He & Hm)]; [reflexivity|].
  unfold float_to_i4. cbn [cond_Zopp].
  rewrite Z.shiftl_div_pow2 by lia.
  rewrite Z.div_small by lia. reflexivity.
Qed.

Lemma f4_side_conditions :
  0 < f4_prec /\ 2 ^ f4_prec = 16777216 /\ emin f4_prec f4_emax = -149 /\ f4_emax - f4_prec = 104.
Proof. vm_compute. repeat split; reflexivity. Qed.

(** A draw from [0, 1) rounds into [0, 1] in float32. *)
Lemma f8_to_f4_unit (u : spec_float) :
  unit_f8 u = true -> mag_le 1 0 (f8_to_f4 u) /\ nonneg (f8_to_f4 u).
Proof.
  intros H. destruct (unit_f8_inv u H) as [[s ->]|(m & e & -> & He & Hm)]; [cbn; auto|].
  cbn [f8_to_f4].
  destruct f4_side_conditions as (Hp & H2p & Hemin & Hemax).
  destruct (binary_round_mag f4_prec f4_emax Hp false m e 1 0) as [H1 H2]; try lia.
  { rewrite Z.sub_0_l. lia. }
  cbn zeta in *. split; [assumption|].
  destruct (binary_round _ _ _ _ _); cbn in *; auto.
Qed.

Lemma f4_sub_half_mag (v : spec_float) :
  mag_le 1 0 v -> nonneg v -> mag_le 1 (-1) (f4_sub v (f4_lit 1 (-1))).
Proof.
  replace (f4_lit 1 (-1)) with (S754_finite false 8388608 (-24)) by (vm_compute; reflexivity).
  destruct f4_side_conditions as (Hp & H2p & Hemin & Hemax).
  intros Hv Hs. destruct v as [s|s| |s mv ev]; try contradiction.
  - cbn. lia.
  - cbn in Hs. subst s. destruct Hv as [Hev Hmv].
    unfold f4_sub, SFsub.
    set (ez := Z.min ev (-24)).
    pose proof (shl_align_spec mv ev ez) as Ha.
    pose proof (shl_align_spec 8388608 (-24) ez) as Hb.
    destruct (shl_align mv ev ez) as [a ea]. destruct (shl_align 8388608 (-24) ez) as [b eb].
    destruct Ha as [Hea Ha]. destruct Hb as [Heb Hb]. cbn [fst cond_Zopp].
    assert (Hez : ez <= -24) by lia.
    replace ea with ez in Ha by lia. replace eb with ez in Hb by lia.
    assert (Hbv : Zpos b = 2 ^ (-1 - ez)).
    { rewrite Hb. replace (-1 - ez) with (23 + (-24 - ez)) by lia.
      rewrite Z.pow_add_r by lia. reflexivity. }
    assert (Hav : Zpos a <= 2 * 2 ^ (-1 - ez)).
    { rewrite Ha. rewrite <- (Z.pow_succ_r 2 (-1 - ez)) by lia.
      replace (Z.succ (-1 - ez)) with ((0 - ev) + (ev - ez)) by lia.
      rewrite Z.pow_add_r by lia.
      assert (0 < 2 ^ (ev - ez)) by (apply Z.pow_pos_nonneg; lia). nia. }
    destruct (Zpos a - Zpos b) as [|d|d] eqn:Ed; cbn [binary_normalize].
    + exact I.
    + apply binary_round_mag; try lia.
    + apply binary_round_mag; try lia.
Qed.

Lemma f4_mul_six_mag (w : spec_float) :
  mag_le 1 (-1) w -> mag_le 3 0 (f4_mul w (f4_lit 6 0)).
Proof.
  replace (f4_lit 6 0) with (S754_finite false 12582912 (-21)) by (vm_compute; reflexivity).
  destruct f4_side_conditions as (Hp & H2p & Hemin & Hemax).
  intros Hw. destruct w as [s|s| |s mw ew]; try contradiction; [exact I|].
  destruct Hw as [Hew Hmw].
  unfold f4_mul, SFmul.
  apply binary_round_aux_mag; try lia.
  rewrite Pos2Z.inj_mul.
  replace (0 - (ew + -21)) with (22 + (-1 - ew)) by lia.
  rewrite Z.pow_add_r by lia. replace (2 ^ 22) with 4194304 by reflexivity.
  assert (0 < 2 ^ (-1 - ew)) by (apply Z.pow_pos_nonneg; lia). nia.
Qed.

Lemma mag_le_3_Q (x : spec_float) :
  mag_le 3 0 x -> is_finite x = true /\ (-3 <= to_Q x <= 3)%Q.
Proof.
  destruct x as [s|s| |s m e]; try contradiction.
  - intros _. split; [reflexivity|]. cbn. split; discriminate.
  - intros [He Hm]. split; [reflexivity|].
    destruct e as [|p|p]; [|lia|].
    + cbn [to_Q]. change (2 ^ (0 - 0)) with 1 in Hm.
      unfold Qle; cbn [inject_Z Qnum Qden]. destruct s; cbn [cond_Zopp]; lia.
    + cbn [to_Q]. replace (0 - Zneg p) with (Zpos p) in Hm by lia.
      unfold Qle; cbn [Qnum Qden]. rewrite Pos2Z.inj_pow.
      destruct s; cbn [cond_Zopp]; lia.
Qed.

(** [(float32(u) - 0.5) * 6.0] in float32, for a float64 [u] of [0, 1),
    is finite and lies in the closed interval [-3, 3]. *)
Lemma eta_of_unit_range (u : spec_float) :
  unit_f8 u = true ->
  let eta := f4_mul (f4_sub (f8_to_f4 u) (f4_lit 1 (-1))) (f4_lit 6 0) in
  is_finite eta = true /\ (-3 <= to_Q eta <= 3)%Q.
Proof.
  intros H. destruct (f8_to_f4_unit u H) as [H1 H2].
  apply mag_le_3_Q, f4_mul_six_mag, f4_sub_half_mag; assumption.
Qed.

(** ** Computations *)

Lemma runs_ret {A : Type} (a : A) : runs (ret a) (Ok a) [].
Proof. intros w. unfold ret. now rewrite app_nil_r. Qed.

Lemma runs_raise {A : Type} (e : error) : runs (@raise A e) (Err e) [].
Proof. intros w. unfold raise. now rewrite app_nil_r. Qed.

Lemma runs_lift {A : Type} (r : result A) : runs (lift r) r [].
Proof. intros w. unfold lift. now rewrite app_nil_r. Qed.

Lemma runs_emit (e : event) : runs (emit e) (Ok tt) [e].
Proof. intros w. reflexivity. Qed.

Lemma runs_bind {A B : Type} {c : M A} {k : A -> M B} {a : A} {t1 : list event}
  {r : result B} {t2 : list event} :
  runs c (Ok a) t1 -> runs (k a) r t2 -> runs (bind c k) r (t1 ++ t2).
Proof.
  intros Hc Hk w. unfold bind. rewrite Hc, Hk. now rewrite app_assoc.
Qed.

Lemma runs_bind_err {A B : Type} {c : M A} (k : A -> M B) {e : error} {t : list event} :
  runs c (Err e) t -> runs (bind c k) (Err e) t.
Proof. intros Hc w. unfold bind. now rewrite Hc. Qed.

Lemma runs_lift_bind {A B : Type} (ra : result A) (k : A -> M B) (a : A)
  (r : result B) (t : list event) :
  ra = Ok a -> runs (k a) r t -> runs (bind (lift ra) k) r t.
Proof. intros -> Hk. apply (runs_bind (runs_lift (Ok a)) Hk). Qed.

(** ** Record arrays *)

Lemma setitem_ok (a : recarray) (name : string) (v : values) {c : column} :
  lookup_field name (fields a) = Some c ->
  values_len v = size (shape a) ->
  setitem a name v =
    Ok {| shape := shape a;
          fields := update_field name (cast_values (col_dtype c) v) (fields a) |}.
Proof.
  intros Hl Hn. unfold setitem. rewrite Hl, Hn, Nat.eqb_refl. reflexivity.
Qed.

Lemma getitem_f4_ok (a : recarray) (name : string) {xs : list spec_float} :
  lookup_field name (fields a) = Some (F4col xs) -> getitem_f4 a name = Ok xs.
Proof. intros Hl. unfold getitem_f4, getitem. now rewrite Hl. Qed.

Lemma getitem_i4_ok (a : recarray) (name : string) {zs : list Z} :
  lookup_field name (fields a) = Some (I4col zs) -> getitem_i4 a name = Ok zs.
Proof. intros Hl. unfold getitem_i4, getitem. now rewrite Hl. Qed.

Lemma imul_ok (a : recarray) (name : string) (c : spec_float) {xs : list spec_float} :
  lookup_field name (fields a) = Some (F4col xs) ->
  length xs = size (shape a) ->
  imul a name c =
    Ok {| shape := shape a;
          fields := update_field name (F4col (map (fun x => f4_mul x c) xs)) (fields a) |}.
Proof.
  intros Hl Hn. unfold imul. rewrite (getitem_f4_ok _ _ Hl).
  rewrite (setitem_ok _ _ (Floats _) Hl); [reflexivity|].
  cbn. now rewrite length_map.
Qed.

Lemma shape_eqb_eq (s1 s2 : list nat) : shape_eqb s1 s2 = true <-> s1 = s2.
Proof. unfold shape_eqb. destruct (list_eq_dec Nat.eq_dec s1 s2); intuition congruence. Qed.

Lemma first_duplicate_None (l : list string) : first_duplicate l = None <-> NoDup l.
Proof.
  induction l as [|x l IH]; cbn.
  - split; [constructor|reflexivity].
  - destruct (existsb (String.eqb x) l) eqn:E.
    + split; [discriminate|]. intros H. inversion H as [|? ? Hx _]; subst.
      exfalso. apply Hx. apply existsb_exists in E as (y & Hy & Hxy).
      apply String.eqb_eq in Hxy. now subst.
    + rewrite IH. split.
      * intros H. constructor; [|assumption]. intros Hx.
        assert (existsb (String.eqb x) l = true); [|congruence].
        apply existsb_exists. exists x. split; [assumption|apply String.eqb_refl].
      * intros H. now inversion H.
Qed.

Lemma first_duplicate_Some (l : list string) (n : string) :
  first_duplicate l = Some n ->
  exists l1 l2 l3, l = l1 ++ n :: l2 ++ n :: l3.
Proof.
  induction l as [|x l IH]; cbn; [discriminate|].
  destruct (existsb (String.eqb x) l) eqn:E.
  - intros [= ->]. apply existsb_exists in E as (y & Hy & Hxy).
    apply String.eqb_eq in Hxy. subst y.
    apply in_split in Hy as (l2 & l3 & ->). now exists [], l2, l3.
  - intros H. destruct (IH H) as (l1 & l2 & l3 & ->). now exists (x :: l1), l2, l3.
Qed.

Lemma join_structured_arrays_ok (a : recarray) (rest : list recarray) :
  Forall (fun b => shape b = shape a) rest ->
  NoDup (map fst (flat_map fields (a :: rest))) ->
  join_structured_arrays (a :: rest) =
    Ok {| shape := shape a; fields := flat_map fields (a :: rest) |}.
Proof.
  intros Hs Hn. unfold join_structured_arrays.
  destruct (find _ rest) as [b|] eqn:Ef.
  - apply find_some in Ef as [Hb Hne]. rewrite Forall_forall in Hs.
    rewrite (Hs b Hb) in Hne. rewrite (proj2 (shape_eqb_eq _ _) eq_refl) in Hne.
    discriminate.
  - apply first_duplicate_None in Hn. now rewrite Hn.
Qed.

(** ** [np.unique] *)

Lemma bump_keys (x : Z) (l : list (Z * nat)) (k : Z) :
  In k (keys (bump x l)) <-> k = x \/ In k (keys l).
Proof.
  induction l as [|[y c] l IH]; cbn.
  - intuition.
  - destruct (x <? y) eqn:E1; [cbn; intuition|].
    destruct (x =? y) eqn:E2; cbn.
    + apply Z.eqb_eq in E2. subst. intuition.
    + unfold keys in IH. rewrite IH. intuition.
Qed.

Lemma bump_sorted (x : Z) (l : list (Z * nat)) :
  StronglySorted Z.lt (keys l) -> StronglySorted Z.lt (keys (bump x l)).
Proof.
  induction l as [|[y c] l IH]; cbn; intros HS.
  - repeat constructor.
  - inversion HS as [|? ? HS' Hy]; subst.
    destruct (x <? y) eqn:E1.
    + apply Z.ltb_lt in E1. cbn. constructor; [assumption|].
      constructor; [assumption|].
      eapply Forall_impl; [|exact Hy]. intros; lia.
    + destruct (x =? y) eqn:E2; cbn.
      * constructor; assumption.
      * apply Z.ltb_ge in E1. apply Z.eqb_neq in E2.
        constructor; [now apply IH|].
        apply Forall_forall. intros k Hk. apply bump_keys in Hk as [->|Hk]; [lia|].
        rewrite Forall_forall in Hy. now apply Hy.
Qed.

Lemma bump_In (x : Z) (l : list (Z * nat)) (k : Z) (c : nat) :
  StronglySorted Z.lt (keys l) ->
  In (k, c) (bump x l) ->
  (k = x /\ ((c = 1%nat /\ ~ In x (keys l)) \/ (exists c', c = S c' /\ In (x, c') l)))
  \/ (k <> x /\ In (k, c) l).
Proof.
  induction l as [|[y cy] l IH]; cbn; intros HS Hin.
  - destruct Hin as [[= <- <-]|[]]. left. split; [reflexivity|]. left. auto.
  - inversion HS as [|? ? HS' Hy]; subst. rewrite Forall_forall in Hy.
    destruct (x <? y) eqn:E1.
    + apply Z.ltb_lt in E1. destruct Hin as [[= <- <-]|Hin].
      * left. split; [reflexivity|]. left. split; [reflexivity|].
        intros [->|Hx]; [lia|]. specialize (Hy _ Hx). lia.
      * right. split; [|assumption].
        destruct Hin as [[= <- <-]|Hin]; [lia|].
        assert (Hk : In k (keys l)) by (apply in_map_iff; exists (k, c); auto).
        specialize (Hy _ Hk). lia.
    + destruct (x =? y) eqn:E2.
      * apply Z.eqb_eq in E2. subst y. destruct Hin as [[= <- <-]|Hin].
        -- left. split; [reflexivity|]. right. exists cy. auto.
        -- right. split; [|auto].
           assert (Hk : In k (keys l)) by (apply in_map_iff; exists (k, c); auto).
           specialize (Hy _ Hk). lia.
      * apply Z.ltb_ge in E1. apply Z.eqb_neq in E2.
        destruct Hin as [[= <- <-]|Hin]; [right; split; [lia|auto]|].
        destruct (IH HS' Hin) as [[-> [[-> Hn]|(c' & -> & Hc')]]|[Hne Hin']].
        -- left. split; [reflexivity|]. left. split; [reflexivity|].
           intros [->|Hx]; [lia|contradiction].
        -- left. split; [reflexivity|]. right. exists c'. auto.
        -- right. auto.
Qed.

Lemma unique_counts_keys (labels : list Z) (k : Z) :
  In k (keys (unique_counts labels)) <-> In k labels.
Proof.
  induction labels as [|x ls IH]; cbn; [intuition|].
  rewrite bump_keys, IH. intuition.
Qed.

Lemma unique_counts_sorted (labels : list Z) :
  StronglySorted Z.lt (keys (unique_counts labels)).
Proof.
  induction labels as [|x ls IH]; cbn; [constructor|]. now apply bump_sorted.
Qed.

Lemma sorted_lt_NoDup (l : list Z) : StronglySorted Z.lt l -> NoDup l.
Proof.
  induction 1 as [|x l HS IH Hx]; constructor; [|assumption].
  intros Hin. rewrite Forall_forall in Hx. specialize (Hx _ Hin). lia.
Qed.

Lemma count_true_absent (x : Z) (ls : list Z) :
  ~ In x ls -> count_true (map (Z.eqb x) ls) = 0%nat.
Proof.
  induction ls as [|y ls IH]; cbn; [reflexivity|]. intros Hn.
  destruct (x =? y) eqn:E; [apply Z.eqb_eq in E; exfalso; auto|].
  apply IH. auto.
Qed.

(** The count [np.unique] gives a value is the number of true bits of the
    mask [labels == value]. *)
Lemma unique_counts_count (labels : list Z) (k : Z) (c : nat) :
  In (k, c) (unique_counts labels) -> c = count_true (map (Z.eqb k) labels).
Proof.
  revert k c. induction labels as [|x ls IH]; cbn; intros k c Hin; [contradiction|].
  apply bump_In in Hin; [|apply unique_counts_sorted].
  unfold count_true in *. cbn.
  destruct Hin as [[-> [[-> Hn]|(c' & -> & Hc')]]|[Hne Hin]].
  - rewrite Z.eqb_refl. cbn. f_equal.
    rewrite unique_counts_keys in Hn. symmetry. now apply count_true_absent.
  - rewrite Z.eqb_refl. cbn. f_equal. now apply IH.
  - apply Z.eqb_neq in Hne. rewrite Hne. now apply IH.
Qed.

Lemma runs_trace {A : Type} {c : M A} {r : result A} {t : list event} (t' : list event) :
  runs c r t -> t = t' -> runs c r t'.
Proof. now intros H <-. Qed.

Lemma runs_ret_bind {A B : Type} (a : A) (k : A -> M B) (r : result B) (t : list event) :
  runs (k a) r t -> runs (bind (ret a) k) r t.
Proof. intros Hk. apply (runs_bind (runs_ret a) Hk). Qed.

Lemma scatter_length (mask : list bool) (dst src : list (list spec_float)) :
  length (scatter mask dst src) = length dst.
Proof.
  revert dst src. induction mask as [|b mask IH]; intros [|d dst] src;
    try reflexivity; destruct b; try reflexivity.
  - destruct src; cbn; now rewrite IH.
  - cbn; now rewrite IH.
Qed.

Lemma mask_assign_ok (dst : list (list spec_float)) (mask : list bool)
  (src : list (list spec_float)) :
  length src = count_true mask -> mask_assign dst mask src = Ok (scatter mask dst src).
Proof. intros H. unfold mask_assign. now rewrite H, Nat.eqb_refl. Qed.

(** The fields [u2s] builds carry the names and types of [dt], every column
    with one entry per row. *)
Lemma u2s_fields_descr (rws : list (list spec_float)) (dt : list (string * dtype)) (s : nat) :
  map (fun f => (fst f, col_dtype (snd f)))
      (map (fun kf : nat * (string * dtype) =>
              (fst (snd kf), astype (snd (snd kf)) (map (fun r => nth (fst kf) r S754_nan) rws)))
           (combine (seq s (length dt)) dt)) = dt.
Proof.
  revert s. induction dt as [|[n t] dt IH]; intros s; cbn; [reflexivity|].
  rewrite IH. now destruct t.
Qed.

Lemma u2s_fields_len (rws : list (list spec_float)) (dt : list (string * dtype)) (s : nat) :
  Forall (fun f => col_len (snd f) = length rws)
      (map (fun kf : nat * (string * dtype) =>
              (fst (snd kf), astype (snd (snd kf)) (map (fun r => nth (fst kf) r S754_nan) rws)))
           (combine (seq s (length dt)) dt)).
Proof.
  revert s. induction dt as [|[n t] dt IH]; intros s; cbn; constructor; [|apply IH].
  destruct t; cbn; now rewrite !length_map.
Qed.

Lemma u2s_ok (a : ndarray) (dt : list (string * dtype)) :
  last a = length dt ->
  exists arr, u2s a dt = Ok arr /\ shape arr = lead a /\ descr arr = dt /\
    Forall (fun f => col_len (snd f) = length (rows a)) (fields arr).
Proof.
  intros H. unfold u2s. rewrite H, Nat.eqb_refl. eexists. split; [reflexivity|].
  cbn [shape fields descr]. split; [reflexivity|]. split.
  - apply u2s_fields_descr.
  - apply u2s_fields_len.
Qed.

Lemma descr_names (a : recarray) : names a = map fst (descr a).
Proof. unfold names, descr. now rewrite map_map. Qed.

(** ** The score synthesizer *)

Lemma dict_get_combine {V : Type} (ks : list Z) (vs : list V) (k : Z) :
  length ks = length vs ->
  (dict_get (combine ks vs) k <> None <-> In k ks).
Proof.
  revert vs. induction ks as [|k0 ks IH]; intros [|v vs] Hlen; try discriminate; cbn.
  - intuition.
  - destruct (Z.eqb_spec k k0) as [->|Hne].
    + split; [auto|discriminate].
    + rewrite IH by (cbn in Hlen; lia). intuition congruence.
Qed.

Lemma label_mapping_combine (is_xbb : bool) :
  label_mapping is_xbb = combine (map snd (label_dict is_xbb)) means.
Proof. destruct is_xbb; reflexivity. Qed.

Lemma label_mapping_known (is_xbb : bool) (l : Z) :
  dict_get (label_mapping is_xbb) l <> None <-> In l (known_labels is_xbb).
Proof.
  rewrite label_mapping_combine. apply dict_get_combine. now destruct is_xbb.
Qed.

Lemma known_labels_length (is_xbb : bool) : length (known_labels is_xbb) = 4%nat.
Proof. now destruct is_xbb. Qed.

Section MockFacts.

Context {G : Type} {gen : Generator G} {platform : Platform} {h5 : H5py}.

Lemma runs_default_rng_bind {B : Type} (seed : Z) (k : G -> M B) (r : result B)
  (t : list event) :
  runs (k (rng_seed seed)) r t -> runs (bind (default_rng seed) k) r (EvDefaultRng seed :: t).
Proof.
  intros Hk w. unfold default_rng, bind, emit, ret. rewrite Hk. now rewrite <- app_assoc.
Qed.

Lemma runs_random_bind {B : Type} (rng : G) (sh : list nat) (n : nat)
  (k : ndarray * G -> M B) (r : result B) (t : list event) :
  runs (k ({| lead := sh; last := n; rows := fst (rng_random rng sh n) |},
           snd (rng_random rng sh n))) r t ->
  runs (bind (random rng sh n) k) r (EvRandom (sh ++ [n]) :: t).
Proof.
  intros Hk w. unfold random, bind, emit, ret. rewrite Hk. now rewrite <- app_assoc.
Qed.

Lemma runs_choice_bind {A B : Type} (rng : G) (a0 : A) (a : list A) (sh : list nat)
  (k : list A * G -> M B) (r : result B) (t : list event) :
  runs (k (map (fun i => nth i (a0 :: a) a0) (fst (rng_choice rng (S (length a)) sh)),
           snd (rng_choice rng (S (length a)) sh))) r t ->
  runs (bind (choice rng (a0 :: a) sh) k) r (EvChoice (S (length a)) sh :: t).
Proof.
  intros Hk w. unfold choice, bind, emit, ret. rewrite Hk. now rewrite <- app_assoc.
Qed.

Lemma runs_integers_bind {B : Type} (rng : G) (lo hi : Z) (sh : list nat)
  (k : list Z * G -> M B) (r : result B) (t : list event) :
  runs (k (rng_integers rng lo hi sh)) r t ->
  runs (bind (integers rng lo hi sh) k) r (EvIntegers lo hi sh :: t).
Proof.
  intros Hk w. unfold integers, bind, emit, ret. rewrite Hk. now rewrite <- app_assoc.
Qed.

Lemma runs_normal_bind {B : Type} (rng : G) (loc : list spec_float) (sc : spec_float)
  (n c : nat) (k : list (list spec_float) * G -> M B) (r : result B) (t : list event) :
  runs (k (rng_normal rng loc sc n c)) r t ->
  runs (bind (normal rng loc sc n c) k) r (EvNormal loc sc [n; c] :: t).
Proof.
  intros Hk w. unfold normal, bind, emit, ret. rewrite Hk. now rewrite <- app_assoc.
Qed.

Lemma scores_loop_ok (labels : list Z) (mapping : list (Z * list spec_float))
  (nclass : nat) (items : list (Z * nat)) (i : nat) (rng : G)
  (scores : list (list spec_float)) :
  Forall (item_ok labels mapping) items ->
  (i + length items <= length scales)%nat ->
  exists out,
    runs (scores_loop labels mapping nclass items i rng scores) (Ok out)
         (normal_calls mapping nclass items i) /\
    length out = length scores.
Proof.
  revert i rng scores. induction items as [|[l c] rest IH]; intros i rng scores Hok Hlen.
  - exists scores. split; [apply runs_ret|reflexivity].
  - inversion Hok as [|? ? [Hget Hcnt] Hrest]; subst. cbn [fst snd] in Hget, Hcnt.
    cbn [length] in Hlen.
    destruct (dict_get mapping l) as [loc|] eqn:Ed; [|congruence].
    destruct (nth_error scales i) as [s|] eqn:Es;
      [|apply nth_error_None in Es; lia].
    destruct (rng_normal rng loc s c nclass) as [draw rng'] eqn:En.
    assert (Hdraw : length draw = count_true (map (Z.eqb l) labels)).
    { pose proof (normal_rows rng loc s c nclass) as Hr. rewrite En in Hr. cbn in Hr. lia. }
    destruct (IH (S i) rng' (scatter (map (Z.eqb l) labels) scores draw) Hrest ltac:(lia))
      as (out & Hruns & Hout).
    exists out. split; [|now rewrite Hout, scatter_length].
    cbn [scores_loop normal_calls]. rewrite Ed, Es.
    apply runs_ret_bind, runs_ret_bind, runs_normal_bind. rewrite En.
    eapply runs_lift_bind; [apply mask_assign_ok, Hdraw|]. exact Hruns.
Qed.

Lemma scores_loop_unknown (labels : list Z) (mapping : list (Z * list spec_float))
  (nclass : nat) (pre post : list (Z * nat)) (l : Z) (c i : nat) (rng : G)
  (scores : list (list spec_float)) :
  Forall (item_ok labels mapping) pre ->
  dict_get mapping l = None ->
  (i + length pre <= length scales)%nat ->
  runs (scores_loop labels mapping nclass (pre ++ (l, c) :: post) i rng scores)
       (Err (KeyError l)) (normal_calls mapping nclass pre i).
Proof.
  revert i rng scores. induction pre as [|[l0 c0] pre IH]; intros i rng scores Hok Hget Hlen.
  - cbn [app scores_loop normal_calls]. rewrite Hget. apply runs_bind_err, runs_raise.
  - inversion Hok as [|? ? [Hget0 Hcnt] Hrest]; subst. cbn [fst snd] in Hget0, Hcnt.
    cbn [length] in Hlen.
    destruct (dict_get mapping l0) as [loc|] eqn:Ed; [|congruence].
    destruct (nth_error scales i) as [s|] eqn:Es;
      [|apply nth_error_None in Es; lia].
    destruct (rng_normal rng loc s c0 nclass) as [draw rng'] eqn:En.
    assert (Hdraw : length draw = count_true (map (Z.eqb l0) labels)).
    { pose proof (normal_rows rng loc s c0 nclass) as Hr. rewrite En in Hr. cbn in Hr. lia. }
    cbn [app scores_loop normal_calls]. rewrite Ed, Es.
    apply runs_ret_bind, runs_ret_bind, runs_normal_bind. rewrite En.
    eapply runs_lift_bind; [apply mask_assign_ok, Hdraw|].
    apply IH; [assumption..|lia].
Qed.

Lemma unique_counts_items_ok (labels : list Z) (is_xbb : bool) :
  Forall (fun l => In l (known_labels is_xbb)) labels ->
  Forall (item_ok labels (label_mapping is_xbb)) (unique_counts labels).
Proof.
  intros Hk. apply Forall_forall. intros [l c] Hin. split; cbn [fst snd].
  - apply label_mapping_known. rewrite Forall_forall in Hk. apply Hk.
    apply unique_counts_keys. apply in_map_iff. now exists (l, c).
  - now apply unique_counts_count.
Qed.

Lemma known_keys_length (is_xbb : bool) (items : list (Z * nat)) :
  NoDup (keys items) ->
  Forall (fun it => In (fst it) (known_labels is_xbb)) items ->
  (length items <= length scales)%nat.
Proof.
  intros Hnd Hk.
  change (length scales) with 4%nat. rewrite <- (known_labels_length is_xbb).
  rewrite <- (length_map fst items). apply NoDup_incl_length; [assumption|].
  intros k Hin. apply in_map_iff in Hin as (it & <- & Hit).
  rewrite Forall_forall in Hk. now apply Hk.
Qed.

Lemma unique_counts_known (labels : list Z) (is_xbb : bool) :
  Forall (fun l => In l (known_labels is_xbb)) labels ->
  Forall (fun it => In (fst it) (known_labels is_xbb)) (unique_counts labels).
Proof.
  intros Hk. apply Forall_forall. intros [l c] Hin. cbn.
  rewrite Forall_forall in Hk. apply Hk, unique_counts_keys, in_map_iff. now exists (l, c).
Qed.

(** With every label in the mapping, [get_mock_scores] returns an array of
    one record per label whose fields are the score columns, all "f4"; its
    draws are those of [normal_calls]. *)
Lemma get_mock_scores_ok (labels : list Z) (is_xbb : bool) :
  Forall (fun l => In l (known_labels is_xbb)) labels ->
  exists arr,
    runs (get_mock_scores labels is_xbb) (Ok arr)
         (EvDefaultRng 42 ::
          normal_calls (label_mapping is_xbb) 4 (unique_counts labels) 0) /\
    shape arr = [length labels] /\
    descr arr = map (fun c => (c, f4)) (score_cols is_xbb) /\
    Forall (fun f => col_len (snd f) = length labels) (fields arr).
Proof.
  intros Hk.
  assert (Hn : length (label_dict is_xbb) = 4%nat) by now destruct is_xbb.
  destruct (scores_loop_ok labels (label_mapping is_xbb) 4 (unique_counts labels) 0
              (rng_seed 42) (rows (zeros (length labels) 4))
              (unique_counts_items_ok labels is_xbb Hk))
    as (raw & Hruns & Hraw).
  { apply (known_keys_length is_xbb).
    - apply sorted_lt_NoDup, unique_counts_sorted.
    - now apply unique_counts_known. }
  cbn [zeros rows] in Hraw. rewrite repeat_length in Hraw.
  destruct (u2s_ok {| lead := [length labels]; last := 4; rows := map softmax_row raw |}
              (map (fun c => (c, f4)) (score_cols is_xbb)))
    as (arr & Hu & Hshape & Hdescr & Hcols).
  { cbn [last]. unfold score_cols. now rewrite !length_map, Hn. }
  exists arr. cbn [lead rows] in Hshape, Hcols. rewrite length_map, Hraw in Hcols.
  split; [|auto].
  unfold get_mock_scores. rewrite Hn. apply runs_default_rng_bind.
  eapply runs_trace; [eapply runs_bind; [exact Hruns|]|apply app_nil_r].
  eapply runs_lift_bind; [reflexivity|].
  cbn [zeros lead last]. rewrite <- Hu. apply runs_lift.
Qed.

Lemma split_first_unknown (K : list Z) (items : list (Z * nat)) :
  (exists it, In it items /\ ~ In (fst it) K) ->
  exists pre l c post,
    items = pre ++ (l, c) :: post /\ Forall (fun it => In (fst it) K) pre /\ ~ In l K.
Proof.
  induction items as [|[l c] items IH]; intros (it & Hin & Hnk); [contradiction|].
  destruct (in_dec Z.eq_dec l K) as [Hl|Hl].
  - destruct Hin as [<-|Hin]; [contradiction|].
    destruct IH as (pre & l' & c' & post & -> & Hpre & Hl'); [eauto|].
    exists ((l, c) :: pre), l', c', post. repeat split; auto.
  - exists [], l, c, items. repeat split; auto.
Qed.

(** A label without a mapping entry makes [get_mock_scores] raise
    [KeyError] for the least such label. *)
Lemma get_mock_scores_unknown (labels : list Z) (is_xbb : bool) :
  (exists l, In l labels /\ ~ In l (known_labels is_xbb)) ->
  exists l t,
    In l labels /\ ~ In l (known_labels is_xbb) /\
    runs (get_mock_scores labels is_xbb) (Err (KeyError l)) t.
Proof.
  intros (l0 & Hin0 & Hnk0).
  destruct (split_first_unknown (known_labels is_xbb) (unique_counts labels))
    as (pre & l & c & post & Hsplit & Hpre & Hl).
  { apply unique_counts_keys, in_map_iff in Hin0 as ([l1 c1] & Heq & Hin1).
    cbn in Heq. subst l1. exists (l0, c1). auto. }
  assert (Hin : In l labels).
  { apply unique_counts_keys. unfold keys. rewrite Hsplit, map_app, in_app_iff.
    right. left. reflexivity. }
  assert (Hok : Forall (item_ok labels (label_mapping is_xbb)) pre).
  { apply Forall_forall. intros [l1 c1] Hin1. split; cbn [fst snd].
    - apply label_mapping_known. rewrite Forall_forall in Hpre. apply (Hpre _ Hin1).
    - apply unique_counts_count. rewrite Hsplit. apply in_or_app. now left. }
  assert (Hlen : (0 + length pre <= length scales)%nat).
  { apply (known_keys_length is_xbb); [|assumption].
    pose proof (sorted_lt_NoDup _ (unique_counts_sorted labels)) as Hnd.
    unfold keys in *. rewrite Hsplit, map_app in Hnd. now apply NoDup_app_remove_r in Hnd. }
  assert (Hget : dict_get (label_mapping is_xbb) l = None).
  { destruct (dict_get (label_mapping is_xbb) l) eqn:E; [|reflexivity].
    exfalso. apply Hl, label_mapping_known. congruence. }
  exists l. eexists. split; [assumption|]. split; [assumption|].
  unfold get_mock_scores. apply runs_default_rng_bind. cbn zeta.
  rewrite Hsplit. apply runs_bind_err.
  apply scores_loop_unknown; assumption.
Qed.

(** ** The jet feature builder *)

Lemma normal_calls_rng (mapping : list (Z * list spec_float)) (nclass : nat)
  (items : list (Z * nat)) (i : nat) :
  forallb rng_event (normal_calls mapping nclass items i) = true.
Proof.
  revert i. induction items as [|[l c] items IH]; intros i; cbn; [reflexivity|].
  destruct (dict_get mapping l); [|reflexivity].
  destruct (nth_error scales i); [|reflexivity]. cbn. apply IH.
Qed.

Lemma size_1 (n : nat) : size [n] = n.
Proof. cbn. lia. Qed.

Lemma choice_labels_known (a K : list Z) (d : Z) (idxs : list nat) :
  Forall (fun i => (i < length a)%nat) idxs ->
  (forall x, In x a -> In (wrap32 x) K) ->
  Forall (fun l => In l K) (map wrap32 (map (fun i => nth i a d) idxs)).
Proof.
  intros Hi Ha. rewrite map_map. apply Forall_map.
  eapply Forall_impl; [|exact Hi]. intros i Hlt. apply Ha, nth_In, Hlt.
Qed.

Local Opaque f4_mul f4_sub f4_lit f8_to_f4 float_to_i4 wrap32 SFabs size.

Ltac norm_fields :=
  cbv beta;
  cbn [fields shape update_field lookup_field String.eqb Ascii.eqb Bool.eqb andb
       cast_values col_dtype].

Lemma mock_jets_spec (N : nat) :
  exists (rws : list (list spec_float)) (fl ids r10 : list Z) (sc xsc : recarray)
         (t : list event),
    rws = fst (rng_random (rng_seed 42) [N] 12) /\
    length rws = N /\
    Forall (fun r => length r = 12%nat /\ Forall (fun u => unit_f8 u = true) r) rws /\
    length fl = N /\ length ids = N /\ length r10 = N /\
    descr sc = map (fun c => (c, f4)) (score_cols false) /\
    descr xsc = map (fun c => (c, f4)) (score_cols true) /\
    Forall (fun f => col_len (snd f) = N) (fields sc) /\
    Forall (fun f => col_len (snd f) = N) (fields xsc) /\
    runs (mock_jets N)
         (Ok {| shape := [N];
                fields := jets_fields rws fl ids r10 N ++ fields sc ++ fields xsc |}) t /\
    (exists t', t = EvDefaultRng 42 :: t') /\
    forallb rng_event t = true.
Proof.
  set (rng0 := rng_seed 42).
  pose proof (random_rows rng0 [N] 12) as Hrows.
  pose proof (random_unit rng0 [N] 12) as Hunit.
  destruct (rng_random rng0 [N] 12) as [rws rng1] eqn:E1. cbn [fst] in Hrows, Hunit.
  pose proof (choice_count rng1 3 [N]) as Hfl.
  pose proof (choice_range rng1 3 [N] ltac:(lia)) as Hflr.
  destruct (rng_choice rng1 3 [N]) as [ifl rng2] eqn:E2. cbn [fst] in Hfl, Hflr.
  pose proof (choice_count rng2 4 [N]) as Hids.
  pose proof (choice_range rng2 4 [N] ltac:(lia)) as Hidsr.
  destruct (rng_choice rng2 4 [N]) as [iids rng3] eqn:E3. cbn [fst] in Hids, Hidsr.
  pose proof (choice_count rng3 4 [N]) as Hr10.
  pose proof (choice_range rng3 4 [N] ltac:(lia)) as Hr10r.
  destruct (rng_choice rng3 4 [N]) as [ir10 rng4] eqn:E4. cbn [fst] in Hr10, Hr10r.
  set (fl := map (fun i => nth i [0; 4; 5] 0) ifl).
  set (ids := map (fun i => nth i [0; 4; 5; 15] 0) iids).
  set (r10 := map (fun i => nth i [1; 10; 11; 12] 1) ir10).
  destruct (get_mock_scores_ok (map wrap32 ids) false) as (sc & Hsc & Hscs & Hscd & Hscl).
  { apply choice_labels_known; [exact Hidsr|].
    intros x Hx. cbn in Hx. cbn.
    repeat (destruct Hx as [<-|Hx]; [vm_compute; tauto|]). contradiction. }
  destruct (get_mock_scores_ok (map wrap32 r10) true) as (xsc & Hxsc & Hxscs & Hxscd & Hxscl).
  { apply choice_labels_known; [exact Hr10r|].
    intros x Hx. cbn in Hx. cbn.
    repeat (destruct Hx as [<-|Hx]; [vm_compute; tauto|]). contradiction. }
  assert (Hlfl : length fl = size [N]) by (unfold fl; now rewrite length_map).
  assert (Hlids : length ids = size [N]) by (unfold ids; now rewrite length_map).
  assert (Hlr10 : length r10 = size [N]) by (unfold r10; now rewrite length_map).
  rewrite !length_map in Hscs, Hxscs, Hscl, Hxscl.
  rewrite Hlids, size_1 in Hscs, Hscl. rewrite Hlr10, size_1 in Hxscs, Hxscl.
  exists rws, fl, ids, r10, sc, xsc. eexists.
  split; [reflexivity|].
  repeat (split; [first [assumption | now rewrite <- (size_1 N)]|]).
  split; [|split].
  {
  unfold mock_jets. change (length JET_VARS) with 12%nat.
  apply runs_default_rng_bind. fold rng0.
  apply runs_random_bind. rewrite E1. cbn [fst snd].
  eapply runs_lift_bind; [reflexivity|]. norm_fields.
  cbn [lead rows map combine seq length JET_VARS fst snd astype].
  apply runs_choice_bind. cbn [length]. rewrite E2. cbn [fst snd]. fold fl.
  eapply runs_lift_bind; [apply setitem_ok; [reflexivity|exact Hlfl]|]. norm_fields.
  eapply runs_lift_bind;
    [apply imul_ok; [reflexivity|now rewrite !length_map]|]. norm_fields.
  eapply runs_lift_bind;
    [apply imul_ok; [reflexivity|now rewrite !length_map]|]. norm_fields.
  eapply runs_lift_bind; [apply getitem_f4_ok; reflexivity|]. norm_fields.
  eapply runs_lift_bind;
    [apply setitem_ok; [reflexivity|cbn [values_len]; now rewrite !length_map]|].
  norm_fields.
  eapply runs_lift_bind; [apply getitem_f4_ok; reflexivity|]. norm_fields.
  eapply runs_lift_bind;
    [apply setitem_ok; [reflexivity|cbn [values_len]; now rewrite !length_map]|].
  norm_fields.
  eapply runs_lift_bind;
    [apply setitem_ok; [reflexivity|cbn [values_len shape]; now rewrite repeat_length]|].
  norm_fields.
  apply runs_choice_bind. cbn [length]. rewrite E3. cbn [fst snd]. fold ids.
  eapply runs_lift_bind; [apply setitem_ok; [reflexivity|exact Hlids]|]. norm_fields.
  apply runs_choice_bind. cbn [length]. rewrite E4. cbn [fst snd]. fold r10.
  eapply runs_lift_bind; [apply setitem_ok; [reflexivity|exact Hlr10]|]. norm_fields.
  eapply runs_lift_bind; [apply getitem_i4_ok; reflexivity|]. norm_fields.
  eapply runs_bind; [exact Hsc|]. cbv beta.
  eapply runs_lift_bind; [apply getitem_i4_ok; reflexivity|]. norm_fields.
  eapply runs_bind; [exact Hxsc|]. cbv beta.
  rewrite size_1.
  rewrite join_structured_arrays_ok.
  - cbn [flat_map fields shape]. rewrite app_nil_r. apply runs_lift.
  - repeat constructor; assumption.
  - cbn [flat_map fields]. rewrite app_nil_r, !map_app.
    change (map fst (fields sc)) with (names sc).
    change (map fst (fields xsc)) with (names xsc).
    rewrite !descr_names, Hscd, Hxscd. cbn [map fst].
    apply first_duplicate_None. vm_compute. reflexivity.
  }
  { eexists. reflexivity. }
  { cbn [forallb rng_event andb app].
    repeat (rewrite forallb_app; cbn [forallb rng_event andb app]).
    now rewrite !normal_calls_rng. }
Qed.

(** ** The track feature builder *)

Lemma mock_tracks_spec (N T : nat) :
  exists (arr : recarray) (t : list event),
    runs (mock_tracks N T) (Ok arr) t /\
    shape arr = [N; T] /\
    descr arr = TRACK_VARS ++ [("valid", b1)] /\
    Forall (fun f => col_len (snd f) = size [N; T]) (fields arr) /\
    (exists t', t = EvDefaultRng 42 :: t') /\
    forallb rng_event t = true.
Proof.
  set (rng0 := rng_seed 42).
  pose proof (random_rows rng0 [N; T] 21) as Hrows.
  destruct (rng_random rng0 [N; T] 21) as [rws rng1] eqn:E1. cbn [fst] in Hrows.
  pose proof (integers_count rng1 0 3 [N; T]) as Hh1.
  destruct (rng_integers rng1 0 3 [N; T]) as [h1 rng2] eqn:E2. cbn [fst] in Hh1.
  pose proof (integers_count rng2 0 3 [N; T]) as Hh2.
  destruct (rng_integers rng2 0 3 [N; T]) as [h2 rng3] eqn:E3. cbn [fst] in Hh2.
  pose proof (choice_count rng3 2 [N; T]) as Hv.
  destruct (rng_choice rng3 2 [N; T]) as [iv rng4] eqn:E4. cbn [fst] in Hv.
  do 2 eexists. split; [|split; [|split; [|split; [|split]]]].
  { unfold mock_tracks. change (length TRACK_VARS) with 21%nat.
    apply runs_default_rng_bind. fold rng0.
    apply runs_random_bind. rewrite E1. cbn [fst snd].
    eapply runs_lift_bind; [reflexivity|]. norm_fields.
    cbn [lead rows map combine seq length TRACK_VARS fst snd astype].
    eapply runs_lift_bind;
      [apply imul_ok; [reflexivity|now rewrite !length_map]|]. norm_fields.
    apply runs_integers_bind. rewrite E2.
    eapply runs_lift_bind; [apply setitem_ok; [reflexivity|exact Hh1]|]. norm_fields.
    apply runs_integers_bind. rewrite E3.
    eapply runs_lift_bind; [apply setitem_ok; [reflexivity|exact Hh2]|]. norm_fields.
    apply runs_choice_bind. cbn [length]. rewrite E4. cbn [fst snd].
    rewrite join_structured_arrays_ok.
    - apply runs_lift.
    - repeat constructor.
    - cbn [flat_map fields map fst app].
      apply first_duplicate_None. vm_compute. reflexivity. }
  { reflexivity. }
  { reflexivity. }
  { cbn [flat_map fields app]. repeat constructor; cbn [snd col_len];
      rewrite ?length_map; assumption. }
  { eexists. reflexivity. }
  { reflexivity. }
Qed.

(** ** The generation entry point *)

Lemma get_mock_file_spec (N : nat) (fname tracks_name : option string) (T : nat)
  (jets tracks : recarray) (tj tk : list event) (w : World) :
  runs (mock_jets N) (Ok jets) tj ->
  runs (mock_tracks N T) (Ok tracks) tk ->
  let f := chosen_name fname (w ++ tj) in
  let stored := w ++ tj ++ name_event fname (w ++ tj) :: jets_events f jets in
  get_mock_file N fname tracks_name T w =
    if truthy tracks_name then
      let name := match tracks_name with Some n => n | None => "" end in
      match create_dataset_error ["jets"] name with
      | Some e => (Err e, stored ++ tk)
      | None =>
          (Ok (f, {| h5_filename := f; h5_datasets := ["jets"; name] |}),
           stored ++ tk ++ [EvCreateDataset f name tracks])
      end
    else (Ok (f, {| h5_filename := f; h5_datasets := ["jets"] |}), stored).
Proof.
  intros Hj Ht f stored. subst f stored. unfold get_mock_file, bind at 1. rewrite Hj.
  destruct fname as [fn|]; cbn [chosen_name name_event];
    cbv beta iota delta [bind emit ret raise named_temporary_file h5py_File create_dataset
                         h5_datasets h5_filename fst snd];
    rewrite fresh_jets;
    cbv beta iota delta [bind emit ret raise h5_datasets h5_filename fst snd];
    (destruct (truthy tracks_name);
     [rewrite Ht; cbn [app];
      destruct (create_dataset_error ["jets"]
                  match tracks_name with Some n => n | None => "" end)|]);
    unfold jets_events; rewrite <- ?app_assoc; cbn [app]; rewrite <- ?app_assoc;
    reflexivity.
Qed.

End MockFacts.

(** ** The test generator keeps numpy's contract *)

Lemma replay_pick_unit (i : nat) : unit_f8 (Replay.pick i) = true.
Proof.
  unfold Replay.pick.
  pose proof (Nat.mod_upper_bound i 4 ltac:(lia)) as H.
  destruct (i mod 4)%nat as [|[|[|[|n]]]]; [vm_compute; reflexivity ..|lia].
Qed.

Lemma replay_random_rows (g : nat) (sh : list nat) (k : nat) :
  length (fst (Replay.random g sh k)) = size sh.
Proof. unfold Replay.random. cbn [fst]. now rewrite length_map, length_seq. Qed.

Lemma replay_random_unit (g : nat) (sh : list nat) (k : nat) :
  Forall (fun r => length r = k /\ Forall (fun u => unit_f8 u = true) r)
         (fst (Replay.random g sh k)).
Proof.
  unfold Replay.random. cbn [fst]. apply Forall_map, Forall_forall. intros r _. split.
  - now rewrite length_map, length_seq.
  - apply Forall_map, Forall_forall. intros c _. apply replay_pick_unit.
Qed.

Lemma replay_choice_count (g n : nat) (sh : list nat) :
  length (fst (Replay.choice g n sh)) = size sh.
Proof. unfold Replay.choice. cbn [fst]. now rewrite length_map, length_seq. Qed.

Lemma replay_choice_range (g n : nat) (sh : list nat) :
  (0 < n)%nat -> Forall (fun i => (i < n)%nat) (fst (Replay.choice g n sh)).
Proof.
  intros Hn. unfold Replay.choice. cbn [fst]. apply Forall_map, Forall_forall. intros i _.
  apply Nat.mod_upper_bound. lia.
Qed.

Lemma replay_integers_count (g : nat) (lo hi : Z) (sh : list nat) :
  length (fst (Replay.integers g lo hi sh)) = size sh.
Proof. unfold Replay.integers. cbn [fst]. now rewrite length_map, length_seq. Qed.

Lemma replay_normal_rows (g : nat) (loc : list spec_float) (sc : spec_float) (n k : nat) :
  length (fst (Replay.normal g loc sc n k)) = n.
Proof. unfold Replay.normal. cbn [fst]. apply repeat_length. Qed.

Lemma replay_normal_cols (g : nat) (loc : list spec_float) (sc : spec_float) (n k : nat) :
  Forall (fun r => length r = k) (fst (Replay.normal g loc sc n k)).
Proof.
  unfold Replay.normal. cbn [fst]. apply Forall_forall. intros r Hr. apply repeat_spec in Hr. subst r.
  rewrite length_firstn, length_app, repeat_length. lia.
Qed.

Lemma replay_name_exists (present : list string) (name : string) :
  In name present ->
  exists msg, Replay.create_dataset_error present name = Some (ValueError msg).
Proof.
  intros Hin. unfold Replay.create_dataset_error.
  replace (existsb (String.eqb name) present) with true; [eauto|].
  symmetry. apply existsb_exists. exists name. split; [exact Hin|apply String.eqb_refl].
Qed.

#[export] Instance replay_h5py : H5py := {|
  create_dataset_error := Replay.create_dataset_error;
  name_exists := replay_name_exists;
  fresh_jets := eq_refl
|}.

#[export] Instance replay_generator : Generator nat := {|
  rng_seed := Replay.seed;
  rng_random := Replay.random;
  rng_choice := Replay.choice;
  rng_integers := Replay.integers;
  rng_normal := Replay.normal;
  random_rows := replay_random_rows;
  random_unit := replay_random_unit;
  choice_count := replay_choice_count;
  choice_range := replay_choice_range;
  integers_count := replay_integers_count;
  normal_rows := replay_normal_rows;
  normal_cols := replay_normal_cols
|}.

(** ** numpy's default generator keeps the contract *)

Lemma mod_affine (M a s c : Z) : ((a mod M) * s + c mod M) mod M = (a * s + c) mod M.
Proof. now rewrite Zplus_mod, Zmult_mod_idemp_l, Zmod_mod, <- Zplus_mod. Qed.

Lemma mod_inner_r (M a x c : Z) : (a * (x mod M) + c) mod M = (a * x + c) mod M.
Proof. now rewrite Zplus_mod, Zmult_mod_idemp_r, <- Zplus_mod. Qed.

Lemma mod_inner_l (M a x c : Z) : ((x mod M) * a + c) mod M = (x * a + c) mod M.
Proof. now rewrite Zplus_mod, Zmult_mod_idemp_l, <- Zplus_mod. Qed.

Lemma affine_pow_iter (p : positive) (a c s : Z) :
  Pos.iter (fun s => Pcg64.uint128 (s * a + c)) s p =
    Pcg64.uint128 (fst (Pcg64.affine_pow p a c) * s + snd (Pcg64.affine_pow p a c)).
Proof.
  unfold Pcg64.uint128. revert s.
  induction p as [p IH|p IH|]; intros s; cbn [Pos.iter Pcg64.affine_pow].
  - rewrite !IH. destruct (Pcg64.affine_pow p a c) as [a' c']. cbn [fst snd].
    unfold Pcg64.uint128.
    rewrite mod_inner_l, mod_affine.
    set (Zm := (a' * s + c') mod 2 ^ 128). set (Am := (a' * a') mod 2 ^ 128).
    set (Cm := (a' * c' + c') mod 2 ^ 128).
    replace ((a' * Zm + c') * a + c) with ((a' * a) * Zm + (c' * a + c)) by ring.
    replace (a * Am * s + (a * Cm + c)) with ((a * s) * Am + (a * Cm + c)) by ring.
    subst Zm Am. rewrite !mod_inner_r.
    replace (a * s * (a' * a') + (a * Cm + c)) with (a * Cm + (a * s * (a' * a') + c))
      by ring.
    subst Cm. rewrite mod_inner_r. f_equal. ring.
  - rewrite !IH. destruct (Pcg64.affine_pow p a c) as [a' c']. cbn [fst snd].
    unfold Pcg64.uint128. rewrite mod_inner_r, mod_affine. f_equal. ring.
  - cbn [fst snd]. unfold Pcg64.uint128. rewrite mod_affine. f_equal. ring.
Qed.

Lemma pcg64_step_inc (n : positive) (g : Pcg64.pcg64) :
  Pos.iter Pcg64.step g n =
    {| Pcg64.state :=
         Pos.iter (fun s => Pcg64.uint128 (s * Pcg64.MULTIPLIER + Pcg64.inc g))
                  (Pcg64.state g) n;
       Pcg64.inc := Pcg64.inc g |}.
Proof.
  revert g. induction n as [n IH|n IH|]; intros g; cbn [Pos.iter].
  - rewrite (IH g), IH. reflexivity.
  - rewrite (IH g), IH. reflexivity.
  - reflexivity.
Qed.

(** [n] steps one by one are the jump by [n]. *)
Lemma pcg64_advance_jump (n : N) (g : Pcg64.pcg64) : Pcg64.advance n g = Pcg64.jump n g.
Proof.
  destruct n as [|p]; [reflexivity|]. unfold Pcg64.advance, Pcg64.jump. cbn [N.iter].
  rewrite pcg64_step_inc, affine_pow_iter.
  destruct (Pcg64.affine_pow p Pcg64.MULTIPLIER (Pcg64.inc g)) as [a c]. reflexivity.
Qed.

Lemma pcg64_output_range (g : Pcg64.pcg64) : 0 <= Z.shiftr (Pcg64.output g) 11 < 2 ^ 53.
Proof.
  unfold Pcg64.output.
  set (v := Z.lor _ _).
  assert (H : 0 <= v mod 2 ^ 64 < 2 ^ 64) by (apply Z.mod_pos_bound; reflexivity).
  rewrite Z.shiftr_div_pow2 by (intros H'; discriminate H').
  split.
  - apply Z.div_pos; [apply H|reflexivity].
  - apply Z.div_lt_upper_bound; [reflexivity|]. change (2 ^ 11 * 2 ^ 53) with (2 ^ 64).
    apply H.
Qed.

Lemma digits2_pos_shiftl (p : positive) (k : N) :
  Zpos (digits2_pos (Pos.shiftl p k)) = Zpos (digits2_pos p) + Z.of_N k.
Proof.
  destruct k as [|k]; [cbn; lia|]. cbn [Pos.shiftl Z.of_N].
  induction k as [|k IH] using Pos.peano_ind.
  - cbn [Pos.iter digits2_pos]. lia.
  - rewrite Pos.iter_succ. cbn [digits2_pos]. rewrite Pos2Z.inj_succ, IH. lia.
Qed.

(** The doubles of [random] are valid binary64 values of [0, 1). *)
Lemma to_double_unit (m : Z) : 0 <= m < 2 ^ 53 -> unit_f8 (Pcg64.to_double m) = true.
Proof.
  intros Hm. destruct m as [|p|p]; [reflexivity| |lia]. unfold Pcg64.to_double.
  pose proof (digits2_le p 53 ltac:(lia) ltac:(lia)) as Hd.
  assert (Hd0 : 0 < Zpos (digits2_pos p)) by lia.
  set (d := Zpos (digits2_pos p)) in *.
  unfold unit_f8. rewrite SFone_f8.
  assert (Hv : valid_binary f8_prec f8_emax
                 (S754_finite false (Pos.shiftl p (Z.to_N (53 - d))) (d - 106)) = true).
  { unfold valid_binary, bounded, canonical_mantissa.
    rewrite digits2_pos_shiftl. fold d. rewrite Z2N.id by lia.
    unfold fexp, emin, f8_prec, f8_emax.
    apply andb_true_intro. split.
    - apply Z.eqb_eq. lia.
    - apply Z.leb_le. lia. }
  rewrite Hv. cbn [andb SFleb SFcompare]. unfold SFltb, SFcompare.
  destruct (Z.compare_spec (d - 106) (-52)) as [H|H|H]; [lia|reflexivity|lia].
Qed.

Lemma pcg64_random_rows (g : Pcg64.pcg64) (sh : list nat) (k : nat) :
  length (fst (Pcg64.random g sh k)) = size sh.
Proof. unfold Pcg64.random. cbn [fst]. now rewrite length_map, length_seq. Qed.

Lemma pcg64_random_unit (g : Pcg64.pcg64) (sh : list nat) (k : nat) :
  Forall (fun r => length r = k /\ Forall (fun u => unit_f8 u = true) r)
         (fst (Pcg64.random g sh k)).
Proof.
  unfold Pcg64.random. cbn [fst]. apply Forall_map, Forall_forall. intros r _. split.
  - now rewrite length_map, length_seq.
  - apply Forall_map, Forall_forall. intros c _. apply to_double_unit, pcg64_output_range.
Qed.

Lemma pcg64_choice_count (g : Pcg64.pcg64) (n : nat) (sh : list nat) :
  length (fst (Pcg64.choice g n sh)) = size sh.
Proof. unfold Pcg64.choice. cbn [fst]. now rewrite length_map, length_seq. Qed.

Lemma pcg64_choice_range (g : Pcg64.pcg64) (n : nat) (sh : list nat) :
  (0 < n)%nat -> Forall (fun i => (i < n)%nat) (fst (Pcg64.choice g n sh)).
Proof.
  intros Hn. unfold Pcg64.choice. cbn [fst]. apply Forall_map, Forall_forall. intros i _.
  pose proof (Z.mod_pos_bound (Pcg64.output (Pcg64.advance (N.of_nat (S i)) g))
                (Z.of_nat n) ltac:(lia)).
  lia.
Qed.

Lemma pcg64_integers_count (g : Pcg64.pcg64) (lo hi : Z) (sh : list nat) :
  length (fst (Pcg64.integers g lo hi sh)) = size sh.
Proof. unfold Pcg64.integers. cbn [fst]. now rewrite length_map, length_seq. Qed.

Lemma pcg64_normal_rows (g : Pcg64.pcg64) (loc : list spec_float) (sc : spec_float)
  (n k : nat) :
  length (fst (Pcg64.normal g loc sc n k)) = n.
Proof. unfold Pcg64.normal. cbn [fst]. apply repeat_length. Qed.

Lemma pcg64_normal_cols (g : Pcg64.pcg64) (loc : list spec_float) (sc : spec_float)
  (n k : nat) :
  Forall (fun r => length r = k) (fst (Pcg64.normal g loc sc n k)).
Proof.
  unfold Pcg64.normal. cbn [fst]. apply Forall_forall. intros r Hr.
  apply repeat_spec in Hr. subst r.
  rewrite length_firstn, length_app, repeat_length. lia.
Qed.

(** The generator [default_rng] returns, as far as [random] goes. *)
#[export] Instance pcg64_generator : Generator Pcg64.pcg64 := {|
  rng_seed := Pcg64.seed;
  rng_random := Pcg64.random;
  rng_choice := Pcg64.choice;
  rng_integers := Pcg64.integers;
  rng_normal := Pcg64.normal;
  random_rows := pcg64_random_rows;
  random_unit := pcg64_random_unit;
  choice_count := pcg64_choice_count;
  choice_range := pcg64_choice_range;
  integers_count := pcg64_integers_count;
  normal_rows := pcg64_normal_rows;
  normal_cols := pcg64_normal_cols
|}.

(** Draw [r * k + c] of the stream is entry [c] of row [r]. *)
Lemma pcg64_random_nth (g : Pcg64.pcg64) (sh : list nat) (k r c : nat) :
  (r < size sh)%nat -> (c < k)%nat ->
  exists row,
    nth_error (fst (Pcg64.random g sh k)) r = Some row /\
    nth c row S754_nan =
      Pcg64.to_double
        (Z.shiftr (Pcg64.output (Pcg64.jump (N.of_nat (r * k + c) + 1) g)) 11).
Proof.
  intros Hr Hc. unfold Pcg64.random. cbn [fst].
  exists (map (fun c => Pcg64.next_double (Pcg64.advance (N.of_nat (r * k + c)) g)) (seq 0 k)).
  split.
  - rewrite nth_error_map, nth_error_seq.
    destruct (Nat.ltb_spec r (size sh)) as [_|H]; [|lia]. reflexivity.
  - rewrite (nth_indep _ S754_nan (Pcg64.next_double (Pcg64.advance (N.of_nat (r * k + 0)) g)))
      by now rewrite length_map, length_seq.
    rewrite (map_nth (fun c => Pcg64.next_double (Pcg64.advance (N.of_nat (r * k + c)) g))
               (seq 0 k) 0%nat c).
    rewrite seq_nth by exact Hc. cbn [Nat.add].
    unfold Pcg64.next_double. rewrite <- pcg64_advance_jump.
    unfold Pcg64.advance. rewrite N.add_1_r, N.iter_succ. reflexivity.
Qed.

(** The draw that becomes "eta" of jet 1510352 under seed 42 is
    0.9999999730938701, above [1 - 2^-25]. *)
Lemma pcg64_draw_18124225 :
  Pcg64.to_double (Z.shiftr (Pcg64.output (Pcg64.jump 18124226 (Pcg64.seed 42))) 11) =
    S754_finite false 9007199012392119 (-53).
Proof. vm_compute. reflexivity. Qed.

(** The state [default_rng(42)] starts from, as numpy reports it in
    [bit_generator.state], and the first three values of [random()]:
    0.7739560485559633, 0.4388784397520523 and 0.8585979199113825. *)
Example pcg64_seed_42 :
  Pcg64.seed 42 =
    {| Pcg64.state := 274674114334540486603088602300644985544;
       Pcg64.inc := 332724090758049132448979897138935081983 |}.
Proof. vm_compute. reflexivity. Qed.

Example pcg64_first_draws :
  fst (Pcg64.random (Pcg64.seed 42) [3%nat] 1) =
    [[S754_finite false 6971176343755556 (-53)];
     [S754_finite false 7906131110913150 (-54)];
     [S754_finite false 7733562544347970 (-53)]].
Proof. vm_compute. reflexivity. Qed.

(** ** Columns, traces and lists *)

Lemma column_unit (k : nat) (rws : list (list spec_float)) :
  (k < 12)%nat ->
  Forall (fun r => length r = 12%nat /\ Forall (fun u => unit_f8 u = true) r) rws ->
  Forall (fun u => unit_f8 u = true) (column_of k rws).
Proof.
  intros Hk Hr. unfold column_of. apply Forall_map.
  eapply Forall_impl; [|exact Hr]. cbv beta. intros r [Hlen Hu].
  rewrite Forall_forall in Hu. apply Hu, nth_In. lia.
Qed.

Lemma map_constant {A B : Type} (f : A -> B) (c : B) (l : list A) :
  Forall (fun x => f x = c) l -> map f l = repeat c (length l).
Proof. induction 1 as [|x l Hx _ IH]; cbn; [reflexivity|]. now rewrite Hx, IH. Qed.

Lemma to_Q_abs (x : spec_float) : to_Q (SFabs x) = Qabs (to_Q x).
Proof.
  destruct x as [s|s| |s m e]; try reflexivity.
  cbn [SFabs to_Q]. destruct e as [|p|p]; destruct s; cbn [cond_Zopp]; try reflexivity.
  - unfold inject_Z, Qabs. f_equal. rewrite Z.abs_opp. symmetry. apply Z.abs_eq.
    apply Z.mul_nonneg_nonneg; [lia|]. apply Z.pow_nonneg. lia.
  - unfold inject_Z, Qabs. f_equal. symmetry. apply Z.abs_eq.
    apply Z.mul_nonneg_nonneg; [lia|]. apply Z.pow_nonneg. lia.
Qed.

Lemma jets_fields_len (rws : list (list spec_float)) (fl ids r10 : list Z) (N : nat) :
  length rws = N -> length fl = N -> length ids = N -> length r10 = N ->
  Forall (fun f => col_len (snd f) = N) (jets_fields rws fl ids r10 N).
Proof.
  intros H1 H2 H3 H4. unfold jets_fields, column_of.
  repeat (apply Forall_cons;
          [cbn [snd col_len]; rewrite ?length_map, ?repeat_length;
           first [assumption|reflexivity]|]).
  apply Forall_nil.
Qed.

Lemma datasets_written_app (t1 t2 : list event) :
  datasets_written (t1 ++ t2) = datasets_written t1 ++ datasets_written t2.
Proof.
  induction t1 as [|e t1 IH]; [reflexivity|]. destruct e; cbn; now rewrite IH.
Qed.

Lemma datasets_written_rng (t : list event) :
  forallb rng_event t = true -> datasets_written t = [].
Proof.
  induction t as [|e t IH]; [reflexivity|]. cbn [forallb]. intros H.
  apply andb_prop in H as [He Ht]. destruct e; try discriminate; cbn; auto.
Qed.

Lemma normal_calls_nth (mapping : list (Z * list spec_float)) (nclass : nat)
  (labels : list Z) (items : list (Z * nat)) (i0 i : nat) (l : Z) (c : nat) :
  Forall (item_ok labels mapping) items ->
  (i0 + length items <= length scales)%nat ->
  nth_error items i = Some (l, c) ->
  exists loc s,
    dict_get mapping l = Some loc /\ nth_error scales (i0 + i) = Some s /\
    nth_error (normal_calls mapping nclass items i0) i = Some (EvNormal loc s [c; nclass]).
Proof.
  revert i0 i. induction items as [|[l0 c0] items IH]; intros i0 i Hok Hlen Hnth.
  - destruct i; discriminate.
  - inversion Hok as [|? ? [Hget _] Hrest]; subst. cbn [fst] in Hget. cbn [length] in Hlen.
    cbn [normal_calls].
    destruct (dict_get mapping l0) as [loc0|] eqn:Ed; [|congruence].
    destruct (nth_error scales i0) as [s0|] eqn:Es; [|apply nth_error_None in Es; lia].
    destruct i as [|i].
    + cbn in Hnth. injection Hnth as <- <-. exists loc0, s0.
      rewrite Nat.add_0_r. auto.
    + cbn in Hnth. destruct (IH (S i0) i Hrest ltac:(lia) Hnth) as (loc & s & H1 & H2 & H3).
      exists loc, s. replace (i0 + S i)%nat with (S i0 + i)%nat by lia. auto.
Qed.

Lemma NoDup_app_disjoint {A : Type} (l1 l2 : list A) (x : A) :
  NoDup (l1 ++ l2) -> In x l1 -> In x l2 -> False.
Proof.
  induction l1 as [|y l1 IH]; cbn; intros Hnd H1 H2; [contradiction|].
  inversion Hnd as [|? ? Hy Hnd']; subst. destruct H1 as [->|H1].
  - apply Hy, in_or_app. now right.
  - now apply IH.
Qed.

Lemma flat_map_names (arrays : list recarray) :
  map fst (flat_map fields arrays) = flat_map names arrays.
Proof.
  induction arrays as [|a arrays IH]; [reflexivity|]. cbn. now rewrite map_app, IH.
Qed.

(** * The claims *)

Section Claims.

Context {G : Type} {gen : Generator G} {platform : Platform} {h5 : H5py}.

(** C1: two calls of [mock_jets] with the same [N] return the same value,
    whatever happened before either call (in particular when the second
    call follows the first), and the first thing a call does is to seed a
    generator with 42. *)
Theorem mock_jets_deterministic (N : nat) (w1 w2 : World) :
  fst (mock_jets N w1) = fst (mock_jets N w2) /\
  fst (mock_jets N (snd (mock_jets N w1))) = fst (mock_jets N w1) /\
  exists t, snd (mock_jets N w1) = w1 ++ EvDefaultRng 42 :: t.
Proof.
  destruct (mock_jets_spec N)
    as (rws & fl & ids & r10 & sc & xsc & t & Hdraw & _ & _ & _ & _ & _ & _ & _ & _ & _ &
        Hruns & [t' Ht] & _).
  rewrite !Hruns. cbn [fst snd]. rewrite ?Hruns. cbn [fst snd].
  repeat split. exists t'. now rewrite Ht.
Qed.

(** C3, as amended: [mock_tracks N T] returns an array of shape [(N, T)]
    whose schema is the 21 fields of [TRACK_VARS] followed by the boolean
    field "valid", 22 fields, each with [N * T] entries. *)
Theorem mock_tracks_shape_schema (N T : nat) (w : World) :
  exists arr,
    fst (mock_tracks N T w) = Ok arr /\
    shape arr = [N; T] /\
    descr arr = TRACK_VARS ++ [("valid", b1)] /\
    length TRACK_VARS = 21%nat /\
    length (descr arr) = 22%nat /\
    Forall (fun f => col_len (snd f) = (N * T)%nat) (fields arr).
Proof.
  destruct (mock_tracks_spec N T) as (arr & t & Hruns & Hs & Hd & Hl & _).
  exists arr. rewrite Hruns. cbn [fst]. repeat split; try assumption.
  - now rewrite Hd.
  - eapply Forall_impl; [|exact Hl]. cbv beta. intros f ->.
    change (size [N; T]) with (N * (T * 1))%nat. lia.
Qed.

(** C4: [mock_jets N] returns an array of [N] records whose schema is the
    12 fields of [JET_VARS], then the 4 score fields of the standard
    taxonomy, then the 4 of the alternate one: 20 fields, in that order. *)
Theorem mock_jets_rows_schema (N : nat) (w : World) :
  exists arr,
    fst (mock_jets N w) = Ok arr /\
    shape arr = [N] /\
    Forall (fun f => col_len (snd f) = N) (fields arr) /\
    descr arr =
      JET_VARS
      ++ [("MockTagger_pu", f4); ("MockTagger_pc", f4);
          ("MockTagger_pb", f4); ("MockTagger_ptau", f4)]
      ++ [("MockXbbTagger_phbb", f4); ("MockXbbTagger_phcc", f4);
          ("MockXbbTagger_ptop", f4); ("MockXbbTagger_pqcd", f4)] /\
    length JET_VARS = 12%nat /\
    length (descr arr) = 20%nat.
Proof.
  destruct (mock_jets_spec N)
    as (rws & fl & ids & r10 & sc & xsc & t & Hdraw & Hrws & _ & Hfl & Hids & Hr10 &
        Hscd & Hxscd & Hscl & Hxscl & Hruns & _).
  eexists. rewrite Hruns. cbn [fst]. split; [reflexivity|]. cbn [shape fields].
  assert (Hd : descr {| shape := [N];
                        fields := jets_fields rws fl ids r10 N ++ fields sc ++ fields xsc |} =
               JET_VARS ++ map (fun c => (c, f4)) (score_cols false)
                        ++ map (fun c => (c, f4)) (score_cols true)).
  { unfold descr at 1. cbn [fields]. rewrite !map_app.
    change (map (fun f => (fst f, col_dtype (snd f))) (fields sc)) with (descr sc).
    change (map (fun f => (fst f, col_dtype (snd f))) (fields xsc)) with (descr xsc).
    now rewrite Hscd, Hxscd. }
  split; [reflexivity|]. split.
  - repeat (apply Forall_app; split); try assumption. now apply jets_fields_len.
  - rewrite Hd. repeat split.
Qed.

(** C5: a label without an entry in the active mapping makes
    [get_mock_scores] raise [KeyError] (the specification's
    UnknownLabelError) for such a label; no array is returned. *)
Theorem unknown_label_raises (labels : list Z) (is_xbb : bool) (w : World) :
  (exists l, In l labels /\ dict_get (label_mapping is_xbb) l = None) ->
  exists l,
    In l labels /\ dict_get (label_mapping is_xbb) l = None /\
    fst (get_mock_scores labels is_xbb w) = Err (KeyError l).
Proof.
  intros (l0 & Hin0 & Hget0).
  destruct (get_mock_scores_unknown labels is_xbb) as (l & t & Hin & Hnk & Hruns).
  { exists l0. split; [assumption|]. intros Hk. apply label_mapping_known in Hk. congruence. }
  exists l. split; [assumption|]. split.
  - destruct (dict_get (label_mapping is_xbb) l) eqn:E; [|reflexivity].
    exfalso. apply Hnk, label_mapping_known. congruence.
  - now rewrite Hruns.
Qed.

(** C6, as amended: when [get_mock_scores] succeeds, the distinct labels
    are visited in ascending order, there are at most four of them, and the
    draw for the [i]-th one is made with the [i]-th element of [scales],
    taken by plain indexing. *)
Theorem scale_by_observation_order (labels : list Z) (is_xbb : bool) (w : World) :
  succeeds (fst (get_mock_scores labels is_xbb w)) = true ->
  let items := unique_counts labels in
  let calls := normal_calls (label_mapping is_xbb) 4 items 0 in
  StronglySorted Z.lt (keys items) /\
  (forall l, In l (keys items) <-> In l labels) /\
  (length items <= 4)%nat /\
  snd (get_mock_scores labels is_xbb w) = w ++ EvDefaultRng 42 :: calls /\
  forall i l c, nth_error items i = Some (l, c) ->
    exists loc s,
      dict_get (label_mapping is_xbb) l = Some loc /\
      nth_error scales i = Some s /\
      nth_error calls i = Some (EvNormal loc s [c; 4%nat]).
Proof.
  intros Hok items calls.
  split; [apply unique_counts_sorted|]. split; [apply unique_counts_keys|].
  destruct (Forall_dec (fun l => In l (known_labels is_xbb))
              (fun l => in_dec Z.eq_dec l (known_labels is_xbb)) labels) as [Hk|Hnk].
  - destruct (get_mock_scores_ok labels is_xbb Hk) as (arr & Hruns & _).
    assert (Hlen : (0 + length items <= length scales)%nat).
    { apply (known_keys_length is_xbb).
      - apply sorted_lt_NoDup, unique_counts_sorted.
      - now apply unique_counts_known. }
    split; [exact Hlen|]. split; [now rewrite Hruns|].
    intros i l c Hnth.
    apply (normal_calls_nth (label_mapping is_xbb) 4 labels items 0 i l c);
      [now apply unique_counts_items_ok|exact Hlen|exact Hnth].
  - exfalso. apply neg_Forall_Exists_neg in Hnk;
      [|intros l; apply in_dec, Z.eq_dec].
    apply Exists_exists in Hnk as (l & Hin & Hl).
    destruct (get_mock_scores_unknown labels is_xbb) as (l' & t & _ & _ & Hruns); [eauto|].
    rewrite Hruns in Hok. discriminate.
Qed.


(** C9, as amended: every jet's "eta" is the float32 value
    [(float32(u) - 0.5) * 6] of the jet's draw [u], the second of its twelve
    uniform draws; it is finite and lies in the closed interval [-3, 3]; and
    "abs_eta" is its absolute value. *)
Theorem eta_range_and_abs (N : nat) (w : World) :
  exists arr etas,
    fst (mock_jets N w) = Ok arr /\
    getitem arr "eta" = Ok (F4col etas) /\
    getitem arr "abs_eta" = Ok (F4col (map SFabs etas)) /\
    etas = map eta_formula
               (map f8_to_f4 (column_of 1 (fst (rng_random (rng_seed 42) [N] 12)))) /\
    length etas = N /\
    Forall (fun eta => is_finite eta = true /\ (-3 <= to_Q eta <= 3)%Q /\
                       to_Q (SFabs eta) = Qabs (to_Q eta)) etas.
Proof.
  destruct (mock_jets_spec N)
    as (rws & fl & ids & r10 & sc & xsc & t & Hdraw & Hrws & Hunit & _ & _ & _ &
        _ & _ & _ & _ & Hruns & _).
  do 2 eexists. rewrite Hruns. cbn [fst].
  split; [reflexivity|]. split; [reflexivity|]. split; [reflexivity|].
  split; [now rewrite <- Hdraw|]. split.
  - unfold column_of. now rewrite !length_map.
  - apply Forall_map, Forall_map.
    eapply Forall_impl; [|exact (column_unit 1 rws ltac:(lia) Hunit)].
    cbv beta. intros u Hu. destruct (eta_of_unit_range u Hu) as [Hf Hr].
    split; [exact Hf|]. split; [exact Hr|]. apply to_Q_abs.
Qed.

(** C10: every jet's "n_tracks" is 0: the field is the cast to int32 of a
    draw from [0, 1) and no later assignment touches it. *)
Theorem n_tracks_is_zero (N : nat) (w : World) :
  exists arr,
    fst (mock_jets N w) = Ok arr /\
    getitem arr "n_tracks" = Ok (I4col (repeat 0 N)).
Proof.
  destruct (mock_jets_spec N)
    as (rws & fl & ids & r10 & sc & xsc & t & Hdraw & Hrws & Hunit & _ & _ & _ &
        _ & _ & _ & _ & Hruns & _).
  eexists. rewrite Hruns. cbn [fst]. split; [reflexivity|].
  assert (Hz : map float_to_i4 (column_of 6 rws) = repeat 0 N).
  { rewrite (@map_constant _ _ float_to_i4 0).
    - unfold column_of. now rewrite length_map, Hrws.
    - eapply Forall_impl; [|exact (column_unit 6 rws ltac:(lia) Hunit)].
      intros u. apply float_to_i4_unit. }
  rewrite <- Hz. reflexivity.
Qed.

End Claims.

(** C8: the Schema Merger fails whenever two inputs disagree in shape or
    share a field name: with [ShapeMismatchError] carrying two differing
    shapes of inputs in the first case, and, the shapes agreeing, with
    [SchemaConflictError] carrying a name that occurs twice in the joined
    schema.  Either way the result is an error, not an array. *)
Theorem schema_merger_errors (arrays : list recarray) :
  (exists a b, In a arrays /\ In b arrays /\ shape a <> shape b) \/
  (exists l1 a l2 b l3 n,
     arrays = l1 ++ a :: l2 ++ b :: l3 /\ In n (names a) /\ In n (names b)) ->
  (exists s1 s2,
     join_structured_arrays arrays = Err (ShapeMismatchError s1 s2) /\
     s1 <> s2 /\ In s1 (map shape arrays) /\ In s2 (map shape arrays)) \/
  ((forall a b, In a arrays -> In b arrays -> shape a = shape b) /\
   exists n,
     join_structured_arrays arrays = Err (SchemaConflictError n) /\
     exists k1 k2 k3, flat_map names arrays = k1 ++ n :: k2 ++ n :: k3).
Proof.
  intros H. destruct arrays as [|a0 rest].
  { exfalso. destruct H as [(a & b & [] & _)|(l1 & a & l2 & b & l3 & n & Heq & _)].
    destruct l1; discriminate. }
  unfold join_structured_arrays.
  destruct (find (fun b => negb (shape_eqb (shape a0) (shape b))) rest) as [c|] eqn:Ef.
  - left. apply find_some in Ef as [Hc Hne]. exists (shape a0), (shape c).
    split; [reflexivity|]. split.
    { intros Heq. rewrite Heq in Hne.
      rewrite (proj2 (shape_eqb_eq _ _) eq_refl) in Hne. discriminate. }
    split; apply in_map; [now left|now right].
  - assert (Hall : forall a, In a (a0 :: rest) -> shape a = shape a0).
    { intros a [<-|Ha]; [reflexivity|].
      pose proof (find_none _ _ Ef a Ha) as Hn. cbv beta in Hn.
      apply negb_false_iff, shape_eqb_eq in Hn. auto. }
    destruct H as [(a & b & Ha & Hb & Hne)|(l1 & a & l2 & b & l3 & n & Heq & Hna & Hnb)].
    + exfalso. apply Hne. now rewrite (Hall a Ha), (Hall b Hb).
    + right. split.
      { intros a' b' Ha' Hb'. now rewrite (Hall a' Ha'), (Hall b' Hb'). }
      cbv zeta.
      destruct (first_duplicate (map fst (flat_map fields (a0 :: rest)))) as [n'|] eqn:Ed.
      * exists n'. split; [reflexivity|]. rewrite <- flat_map_names.
        now apply first_duplicate_Some.
      * exfalso. apply first_duplicate_None in Ed.
        rewrite flat_map_names, Heq, flat_map_app in Ed. cbn [flat_map] in Ed.
        apply NoDup_app_remove_l in Ed.
        apply (NoDup_app_disjoint _ _ n Ed Hna).
        apply in_flat_map. exists b. split; [|exact Hnb].
        apply in_or_app. right. now left.
Qed.

(** ** Concrete runs *)

(** The float model on values whose machine results are known: 0.1 rounds
    to the float32 [0x3DCCCCCD], 3.5 and -3.5 truncate toward zero, the
    largest float64 below 1 rounds up to 1 in float32. *)
Example f8_to_f4_one_tenth :
  f8_to_f4 (S754_finite false 7205759403792794 (-56)) = S754_finite false 13421773 (-27).
Proof. vm_compute. reflexivity. Qed.

Example float_to_i4_truncates :
  float_to_i4 (f8_lit 7 (-1)) = 3 /\ float_to_i4 (SFopp (f8_lit 7 (-1))) = -3.
Proof. vm_compute. split; reflexivity. Qed.

Example f8_to_f4_largest_unit :
  unit_f8 (S754_finite false (2 ^ 53 - 1) (-53)) = true /\
  f8_to_f4 (S754_finite false (2 ^ 53 - 1) (-53)) = f4_lit 1 0.
Proof. vm_compute. split; reflexivity. Qed.

Example unique_counts_run :
  unique_counts [5; 0; 5; 4] = [(0, 1%nat); (4, 1%nat); (5, 2%nat)].
Proof. reflexivity. Qed.

Lemma schema_merger_errors_witness :
  (exists a b, In a [ten; twenty] /\ In b [ten; twenty] /\ shape a <> shape b) /\
  join_structured_arrays [ten; twenty] = Err (ShapeMismatchError [10%nat] [20%nat]) /\
  ((exists s1 s2,
     join_structured_arrays [ten; twenty] = Err (ShapeMismatchError s1 s2) /\
     s1 <> s2 /\ In s1 (map shape [ten; twenty]) /\ In s2 (map shape [ten; twenty])) \/
   ((forall a b, In a [ten; twenty] -> In b [ten; twenty] -> shape a = shape b) /\
    exists n,
      join_structured_arrays [ten; twenty] = Err (SchemaConflictError n) /\
      exists k1 k2 k3, flat_map names [ten; twenty] = k1 ++ n :: k2 ++ n :: k3)).
Proof.
  assert (H : exists a b, In a [ten; twenty] /\ In b [ten; twenty] /\ shape a <> shape b).
  { exists ten, twenty. repeat split; [now left|right; now left|discriminate]. }
  split; [exact H|]. split; [reflexivity|].
  apply (schema_merger_errors [ten; twenty]). left. exact H.
Defined.

Lemma unknown_label_raises_witness :
  (exists l, In l [0; 4; 7] /\ dict_get (label_mapping false) l = None) /\
  exists l,
    In l [0; 4; 7] /\ dict_get (label_mapping false) l = None /\
    fst (@get_mock_scores nat replay_generator replay_platform [0; 4; 7] false [])
      = Err (KeyError l).
Proof.
  assert (H : exists l, In l [0; 4; 7] /\ dict_get (label_mapping false) l = None).
  { exists 7. split; [cbn; auto|reflexivity]. }
  split; [exact H|]. apply (unknown_label_raises [0; 4; 7] false [] H).
Defined.

Lemma scale_by_observation_order_witness :
  succeeds (fst (@get_mock_scores nat replay_generator replay_platform
                   [5; 0; 5; 4] false [])) = true /\
  (length (unique_counts [5; 0; 5; 4]%Z) <= 4)%nat /\
  forall i l c, nth_error (unique_counts [5; 0; 5; 4]) i = Some (l, c) ->
    exists loc s,
      dict_get (label_mapping false) l = Some loc /\
      nth_error scales i = Some s /\
      nth_error (normal_calls (label_mapping false) 4 (unique_counts [5; 0; 5; 4]) 0) i
        = Some (EvNormal loc s [c; 4%nat]).
Proof.
  assert (H : succeeds (fst (@get_mock_scores nat replay_generator replay_platform
                               [5; 0; 5; 4] false [])) = true)
    by (vm_compute; reflexivity).
  split; [exact H|].
  pose proof (@scale_by_observation_order nat replay_generator replay_platform
                [5; 0; 5; 4] false [] H) as (_ & _ & Hlen & _ & Hcalls).
  split; [exact Hlen|exact Hcalls].
Defined.

(** C3, as the claim words it, fails: the schema has 22 fields, not 21. *)
Lemma track_schema_not_21 :
  ~ (exists arr,
       fst (mock_tracks (gen := replay_generator) 1000 40 []) = Ok arr /\
       shape arr = [1000%nat; 40%nat] /\
       length (descr arr) = 21%nat).
Proof.
  intros (arr & Harr & _ & Hlen).
  destruct (mock_tracks_spec (gen := replay_generator) 1000 40)
    as (arr' & t & Hruns & _ & Hd & _).
  rewrite Hruns in Harr. cbn [fst] in Harr. injection Harr as ->.
  rewrite Hd in Hlen. discriminate.
Qed.

(** C6, as the claim words it, fails: cycling would give the fifth of five
    distinct labels (index 4) a draw with [cycled_scale 4]; the code raises
    [KeyError] for it after four draws. *)
Lemma fifth_label_not_handled :
  let labels := [0; 4; 5; 15; 16] in
  let run := @get_mock_scores nat replay_generator replay_platform labels false [] in
  fst run = Err (KeyError 16) /\
  ~ (forall i l c, nth_error (unique_counts labels) i = Some (l, c) ->
       exists loc,
         nth_error (filter is_normal (snd run)) i
           = Some (EvNormal loc (cycled_scale i) [c; 4%nat])).
Proof.
  cbv zeta. split; [vm_compute; reflexivity|].
  intros H. destruct (H 4%nat 16 1%nat eq_refl) as [loc Hloc].
  vm_compute in Hloc. discriminate.
Qed.


(** The "eta" of jet [j] from the row of draws of jet [j]. *)
Lemma mock_jets_eta_nth {G : Type} {gen : Generator G} {platform : Platform}
  (N j : nat) (w : World) (row : list spec_float) :
  nth_error (fst (rng_random (rng_seed 42) [N] 12)) j = Some row ->
  exists arr etas,
    fst (mock_jets N w) = Ok arr /\
    getitem arr "eta" = Ok (F4col etas) /\
    nth_error etas j = Some (eta_formula (f8_to_f4 (nth 1 row S754_nan))).
Proof.
  intros Hrow.
  destruct (mock_jets_spec N)
    as (rws & fl & ids & r10 & sc & xsc & t & Hdraw & _ & _ & _ & _ & _ &
        _ & _ & _ & _ & Hruns & _).
  do 2 eexists. rewrite Hruns. cbn [fst].
  split; [reflexivity|]. split; [reflexivity|].
  unfold column_of. rewrite !nth_error_map, Hdraw, Hrow. reflexivity.
Qed.

(** C9, as the claim words it, fails under the generator the code seeds:
    with [default_rng(42)] the draw for "eta" of jet 1510352 is
    0.9999999730938701, which rounds to 1 in float32 and gives eta = 3,
    outside [-3, 3).  So it is for every number of jets above 1510352. *)
Lemma eta_reaches_three :
  exists arr etas eta,
    fst (@mock_jets Pcg64.pcg64 pcg64_generator replay_platform
           (Z.to_nat 1510353) []) = Ok arr /\
    getitem arr "eta" = Ok (F4col etas) /\
    nth_error etas (Z.to_nat 1510352) = Some eta /\
    ~ (to_Q eta < 3)%Q.
Proof.
  destruct (pcg64_random_nth (Pcg64.seed 42) [Z.to_nat 1510353] 12 (Z.to_nat 1510352) 1)
    as (row & Hrow & Hnth).
  { rewrite size_1. lia. }
  { lia. }
  replace (N.of_nat (Z.to_nat 1510352 * 12 + 1) + 1)%N with 18124226%N in Hnth by lia.
  rewrite pcg64_draw_18124225 in Hnth.
  destruct (@mock_jets_eta_nth Pcg64.pcg64 pcg64_generator replay_platform
              (Z.to_nat 1510353) (Z.to_nat 1510352) [] row Hrow)
    as (arr & etas & Harr & Hget & Heta).
  exists arr, etas. eexists. split; [exact Harr|]. split; [exact Hget|].
  split; [exact Heta|]. rewrite Hnth. vm_compute. discriminate.
Qed.

(** * Further properties of [mock.py] *)

(** ** Masks and ranks *)

Lemma count_true_cons (b : bool) (mask : list bool) :
  count_true (b :: mask) = ((if b then 1 else 0) + count_true mask)%nat.
Proof. unfold count_true. now destruct b. Qed.

Lemma scatter_nth_error (mask : list bool) (dst src : list (list spec_float)) (j : nat) :
  length mask = length dst ->
  count_true mask = length src ->
  nth_error (scatter mask dst src) j =
    match nth_error mask j with
    | Some true => nth_error src (count_true (firstn j mask))
    | _ => nth_error dst j
    end.
Proof.
  revert dst src j. induction mask as [|b mask IH]; intros dst src j Hlen Hcnt.
  - destruct dst; [|discriminate]. now destruct j.
  - destruct dst as [|d dst]; [discriminate|]. injection Hlen as Hlen.
    rewrite count_true_cons in Hcnt. destruct b.
    + destruct src as [|s src]; [discriminate|]. injection Hcnt as Hcnt.
      cbn [scatter]. destruct j as [|j]; [reflexivity|].
      cbn [nth_error firstn]. rewrite count_true_cons. cbn [Nat.add nth_error].
      now apply IH.
    + cbn [scatter]. destruct j as [|j]; [reflexivity|].
      cbn [nth_error firstn]. rewrite count_true_cons. cbn [Nat.add].
      now apply IH.
Qed.

(** In a strictly ascending list the element at index [i] has exactly [i]
    smaller elements. *)
Lemma sorted_index_rank (ks : list Z) (i : nat) (l : Z) :
  StronglySorted Z.lt ks ->
  nth_error ks i = Some l ->
  length (filter (fun k => k <? l) ks) = i.
Proof.
  intros HS. revert i. induction HS as [|k ks HS IH Hk]; intros i Hnth.
  - destruct i; discriminate.
  - rewrite Forall_forall in Hk. destruct i as [|i].
    + injection Hnth as ->. cbn [filter]. rewrite Z.ltb_irrefl.
      assert (Hnil : filter (fun k0 => k0 <? l) ks = []).
      { clear IH HS. induction ks as [|x ks IHks]; [reflexivity|].
        cbn [filter]. assert (l < x) by (apply Hk; now left).
        replace (x <? l) with false by (symmetry; apply Z.ltb_ge; lia).
        apply IHks. intros y Hy. apply Hk. now right. }
      now rewrite Hnil.
    + cbn [nth_error] in Hnth. cbn [filter].
      assert (Hlt : k < l) by (apply Hk; eapply nth_error_In; eassumption).
      apply Z.ltb_lt in Hlt. rewrite Hlt. cbn [length]. f_equal. now apply IH.
Qed.

Lemma filter_length_same_elements (P : Z -> bool) (l1 l2 : list Z) :
  NoDup l1 -> NoDup l2 -> (forall x, In x l1 <-> In x l2) ->
  length (filter P l1) = length (filter P l2).
Proof.
  intros H1 H2 Hiff. apply Nat.le_antisymm; apply NoDup_incl_length;
    try (apply NoDup_filter; assumption);
    intros x Hx; apply filter_In in Hx as [Hx HP]; apply filter_In; split;
    try assumption; now apply Hiff.
Qed.

Lemma unique_counts_rank (labels : list Z) (i : nat) (l : Z) (c : nat) :
  nth_error (unique_counts labels) i = Some (l, c) -> i = rank labels l.
Proof.
  intros Hnth. unfold rank.
  rewrite <- (filter_length_same_elements (fun k => k <? l) (keys (unique_counts labels))).
  - symmetry. apply sorted_index_rank; [apply unique_counts_sorted|].
    unfold keys. rewrite nth_error_map, Hnth. reflexivity.
  - apply sorted_lt_NoDup, unique_counts_sorted.
  - apply NoDup_nodup.
  - intros x. rewrite unique_counts_keys, nodup_In. reflexivity.
Qed.

Lemma occurrences_mask (labels : list Z) (l : Z) (j : nat) :
  count_true (firstn j (map (Z.eqb l) labels)) = occurrences labels l j.
Proof. unfold occurrences. now rewrite firstn_map. Qed.

(** ** The loop of [get_mock_scores], row by row *)

Section ScoreFacts.

Context {G : Type} {gen : Generator G} {platform : Platform}.

(** Where the row of record [j] comes from once the loop has run: from the
    draw made for the record's label, at the position the record has among
    the records of that label; a record whose label is not visited keeps its
    row. *)
Lemma scores_loop_rows (labels : list Z) (mapping : list (Z * list spec_float))
  (nclass : nat) (items : list (Z * nat)) (i : nat) (rng : G)
  (scores : list (list spec_float)) :
  Forall (item_ok labels mapping) items ->
  (i + length items <= length scales)%nat ->
  NoDup (keys items) ->
  length scores = length labels ->
  exists out,
    runs (scores_loop labels mapping nclass items i rng scores) (Ok out)
         (normal_calls mapping nclass items i) /\
    length out = length labels /\
    length (loop_draws mapping nclass items i rng) = length items /\
    forall j l, nth_error labels j = Some l ->
      (forall p, nth_error (keys items) p = Some l ->
         nth_error out j =
           nth_error (nth p (loop_draws mapping nclass items i rng) [])
                     (occurrences labels l j)) /\
      (~ In l (keys items) -> nth_error out j = nth_error scores j).
Proof.
  revert i rng scores.
  induction items as [|[l0 c0] rest IH]; intros i rng scores Hok Hlen Hnd Hsc.
  - exists scores. split; [apply runs_ret|]. split; [assumption|].
    split; [reflexivity|]. intros j l Hj. split; [|reflexivity].
    intros p Hp. destruct p; discriminate.
  - inversion Hok as [|? ? [Hget Hcnt] Hrest]; subst. cbn [fst snd] in Hget, Hcnt.
    cbn [length] in Hlen. cbn [keys map fst] in Hnd.
    inversion Hnd as [|? ? Hnotin Hnd']; subst.
    destruct (dict_get mapping l0) as [loc|] eqn:Ed; [|congruence].
    destruct (nth_error scales i) as [s|] eqn:Es;
      [|apply nth_error_None in Es; lia].
    pose proof (normal_rows rng loc s (count_true (map (Z.eqb l0) labels)) nclass) as Hdraw.
    set (c0 := count_true (map (Z.eqb l0) labels)) in *.
    set (draw := fst (rng_normal rng loc s c0 nclass)) in *.
    set (rng' := snd (rng_normal rng loc s c0 nclass)).
    set (mask := map (Z.eqb l0) labels) in *.
    assert (Hmask : length mask = length scores)
      by (unfold mask; now rewrite length_map).
    destruct (IH (S i) rng' (scatter mask scores draw) Hrest ltac:(lia) Hnd')
      as (out & Hruns & Hout & Hdl & Hrows).
    { now rewrite scatter_length. }
    exists out. split; [|split; [assumption|split]].
    + cbn [scores_loop normal_calls]. rewrite Ed, Es.
      apply runs_ret_bind, runs_ret_bind, runs_normal_bind.
      rewrite (surjective_pairing (rng_normal rng loc s c0 nclass)).
      eapply runs_lift_bind; [apply mask_assign_ok; exact Hdraw|]. exact Hruns.
    + cbn [loop_draws]. rewrite Ed, Es. cbn [length]. f_equal. exact Hdl.
    + intros j l Hj. destruct (Hrows j l Hj) as [Hin Hout'].
      assert (Hmj : nth_error mask j = Some (l0 =? l)).
      { unfold mask. now rewrite nth_error_map, Hj. }
      pose proof (scatter_nth_error mask scores draw j Hmask (eq_sym Hdraw)) as Hs.
      rewrite Hmj in Hs.
      cbn [loop_draws]. rewrite Ed, Es. fold draw rng'. split.
      * intros [|p] Hp.
        -- cbn in Hp. injection Hp as ->. cbn [nth].
           rewrite (Hout' Hnotin), Hs, Z.eqb_refl.
           unfold mask. now rewrite occurrences_mask.
        -- cbn in Hp. cbn [nth]. now apply Hin.
      * intros Hnot. cbn [keys map fst] in Hnot.
        assert (Hne : l0 <> l) by (intros ->; apply Hnot; now left).
        rewrite Hout' by (intros H; apply Hnot; now right).
        rewrite Hs. apply Z.eqb_neq in Hne. now rewrite Hne.
Qed.

End ScoreFacts.

(** ** The score synthesizer as a whole *)

Lemma bump_total (x : Z) (l : list (Z * nat)) :
  list_sum (map snd (bump x l)) = S (list_sum (map snd l)).
Proof.
  unfold list_sum. induction l as [|[y c] l IH]; [reflexivity|]. cbn [bump].
  destruct (x <? y); [reflexivity|]. destruct (x =? y); [reflexivity|].
  cbn [map snd fold_right]. rewrite IH. lia.
Qed.

Lemma unique_counts_total (labels : list Z) :
  list_sum (map snd (unique_counts labels)) = length labels.
Proof.
  induction labels as [|x ls IH]; [reflexivity|]. cbn [unique_counts fold_right length].
  rewrite bump_total. f_equal. exact IH.
Qed.

Lemma unique_counts_length (labels : list Z) :
  length (unique_counts labels) = length (nodup Z.eq_dec labels).
Proof.
  rewrite <- (length_map fst). apply Nat.le_antisymm; apply NoDup_incl_length.
  - apply sorted_lt_NoDup, unique_counts_sorted.
  - intros x Hx. apply nodup_In. now apply unique_counts_keys.
  - apply NoDup_nodup.
  - intros x Hx. apply (unique_counts_keys labels). now apply nodup_In in Hx.
Qed.

Lemma normal_calls_requested (labels : list Z) (mapping : list (Z * list spec_float))
  (nclass : nat) (items : list (Z * nat)) (i : nat) :
  Forall (item_ok labels mapping) items ->
  (i + length items <= length scales)%nat ->
  map rows_requested (normal_calls mapping nclass items i) = map snd items.
Proof.
  revert i. induction items as [|[l c] items IH]; intros i Hok Hlen; [reflexivity|].
  inversion Hok as [|? ? [Hget _] Hrest]; subst. cbn [fst] in Hget. cbn [length] in Hlen.
  cbn [normal_calls].
  destruct (dict_get mapping l) as [loc|]; [|congruence].
  destruct (nth_error scales i) as [s|] eqn:Es; [|apply nth_error_None in Es; lia].
  cbn [map rows_requested snd]. f_equal. apply IH; [assumption|lia].
Qed.

Lemma sorted_split_filter (pre post : list (Z * nat)) (l : Z) (c : nat) :
  StronglySorted Z.lt (keys (pre ++ (l, c) :: post)) ->
  filter (fun it => fst it <? l) (pre ++ (l, c) :: post) = pre /\
  Forall (fun it => l < fst it) post.
Proof.
  induction pre as [|[l0 c0] pre IH]; cbn [app keys map fst]; intros HS.
  - inversion HS as [|? ? HS' Hall]; subst. cbn [filter fst]. rewrite Z.ltb_irrefl.
    assert (Hpost : Forall (fun it => l < fst it) post).
    { apply Forall_forall. intros it Hit. rewrite Forall_forall in Hall.
      apply Hall. now apply in_map. }
    split; [|exact Hpost].
    clear HS HS' Hall. induction Hpost as [|it post Hit _ IHp]; [reflexivity|].
    cbn [filter]. replace (fst it <? l) with false by (symmetry; apply Z.ltb_ge; lia).
    exact IHp.
  - inversion HS as [|? ? HS' Hall]; subst. destruct (IH HS') as [Hf Hp].
    split; [|exact Hp]. cbn [filter fst].
    assert (Hlt : l0 < l).
    { rewrite Forall_forall in Hall. apply Hall. unfold keys.
      rewrite map_app. apply in_or_app. right. now left. }
    apply Z.ltb_lt in Hlt. rewrite Hlt. f_equal. exact Hf.
Qed.

Lemma scores_fields_u2s (is_xbb : bool) (n : nat) (sm : list (list spec_float)) :
  u2s {| lead := [n]; last := 4; rows := sm |} (map (fun c => (c, f4)) (score_cols is_xbb)) =
    Ok {| shape := [n]; fields := scores_fields is_xbb sm |}.
Proof. destruct is_xbb; reflexivity. Qed.

Lemma scores_fields_lookup (is_xbb : bool) (sm : list (list spec_float)) (k : nat)
  (name : string) :
  nth_error (score_cols is_xbb) k = Some name ->
  lookup_field name (scores_fields is_xbb sm) =
    Some (F4col (map f8_to_f4 (column_of k sm))).
Proof.
  intros Hk. destruct is_xbb;
    (destruct k as [|[|[|[|k]]]];
     [injection Hk as <-; reflexivity ..|destruct k; discriminate]).
Qed.

Section ScoreTheorems.

Context {G : Type} {gen : Generator G} {platform : Platform}.

(** The run of [get_mock_scores] on labels that all have a mapping entry,
    with the rows before the softmax made explicit. *)
Lemma get_mock_scores_run (labels : list Z) (is_xbb : bool) :
  Forall (fun l => In l (known_labels is_xbb)) labels ->
  let items := unique_counts labels in
  let draws := loop_draws (label_mapping is_xbb) 4 items 0 (rng_seed 42) in
  exists raw,
    runs (get_mock_scores labels is_xbb)
         (Ok {| shape := [length labels];
                fields := scores_fields is_xbb (map softmax_row raw) |})
         (EvDefaultRng 42 :: normal_calls (label_mapping is_xbb) 4 items 0) /\
    length raw = length labels /\
    length draws = length items /\
    forall j l, nth_error labels j = Some l ->
      nth_error raw j = nth_error (nth (rank labels l) draws []) (occurrences labels l j).
Proof.
  intros Hk items draws.
  assert (Hn : length (label_dict is_xbb) = 4%nat) by now destruct is_xbb.
  destruct (scores_loop_rows labels (label_mapping is_xbb) 4 items 0
              (rng_seed 42) (rows (zeros (length labels) 4))
              (unique_counts_items_ok labels is_xbb Hk))
    as (raw & Hruns & Hraw & Hdl & Hrows).
  { apply (known_keys_length is_xbb).
    - apply sorted_lt_NoDup, unique_counts_sorted.
    - now apply unique_counts_known. }
  { apply sorted_lt_NoDup, unique_counts_sorted. }
  { cbn [zeros rows]. apply repeat_length. }
  exists raw. split; [|split; [exact Hraw|split; [exact Hdl|]]].
  - unfold get_mock_scores. rewrite Hn. apply runs_default_rng_bind.
    eapply runs_trace; [eapply runs_bind; [exact Hruns|]|apply app_nil_r].
    eapply runs_lift_bind; [reflexivity|].
    cbn [zeros lead last rows]. rewrite scores_fields_u2s. apply runs_lift.
  - intros j l Hj. destruct (Hrows j l Hj) as [Hin _].
    assert (Hl : In l (keys items)).
    { apply unique_counts_keys. eapply nth_error_In; eassumption. }
    apply In_nth_error in Hl as [p Hp]. rewrite (Hin p Hp).
    unfold keys in Hp. rewrite nth_error_map in Hp.
    destruct (nth_error items p) as [[l' c]|] eqn:Ep; [|discriminate].
    cbn in Hp. injection Hp as ->.
    now rewrite (unique_counts_rank labels p l c Ep).
Qed.

Lemma get_mock_scores_succeeds_known (labels : list Z) (is_xbb : bool) (w : World) :
  succeeds (fst (get_mock_scores labels is_xbb w)) = true ->
  Forall (fun l => In l (known_labels is_xbb)) labels.
Proof.
  intros Hok.
  destruct (Forall_dec (fun l => In l (known_labels is_xbb))
              (fun l => in_dec Z.eq_dec l (known_labels is_xbb)) labels) as [Hk|Hnk];
    [exact Hk|].
  exfalso. apply neg_Forall_Exists_neg in Hnk; [|intros l; apply in_dec, Z.eq_dec].
  apply Exists_exists in Hnk as (l & Hin & Hl).
  destruct (get_mock_scores_unknown labels is_xbb) as (l' & t & _ & _ & Hruns); [eauto|].
  rewrite Hruns in Hok. discriminate.
Qed.

(** The failing run of [get_mock_scores]: the label reported is the least
    one without a mapping entry, and the draws made before are those for the
    distinct labels below it. *)
Lemma get_mock_scores_least_unknown (labels : list Z) (is_xbb : bool) :
  (exists l, In l labels /\ ~ In l (known_labels is_xbb)) ->
  exists l,
    In l labels /\ ~ In l (known_labels is_xbb) /\
    (forall l', In l' labels -> ~ In l' (known_labels is_xbb) -> l <= l') /\
    runs (get_mock_scores labels is_xbb) (Err (KeyError l))
         (EvDefaultRng 42 ::
          normal_calls (label_mapping is_xbb) 4
            (filter (fun it => fst it <? l) (unique_counts labels)) 0) /\
    length (normal_calls (label_mapping is_xbb) 4
              (filter (fun it => fst it <? l) (unique_counts labels)) 0) = rank labels l.
Proof.
  intros (l0 & Hin0 & Hnk0).
  destruct (split_first_unknown (known_labels is_xbb) (unique_counts labels))
    as (pre & l & c & post & Hsplit & Hpre & Hl).
  { apply unique_counts_keys, in_map_iff in Hin0 as ([l1 c1] & Heq & Hin1).
    cbn in Heq. subst l1. exists (l0, c1). auto. }
  pose proof (unique_counts_sorted labels) as HS. rewrite Hsplit in HS.
  destruct (sorted_split_filter pre post l c HS) as [Hfilter Hpost].
  assert (Hin : In l labels).
  { apply unique_counts_keys. unfold keys. rewrite Hsplit, map_app, in_app_iff.
    right. left. reflexivity. }
  assert (Hok : Forall (item_ok labels (label_mapping is_xbb)) pre).
  { apply Forall_forall. intros [l1 c1] Hin1. split; cbn [fst snd].
    - apply label_mapping_known. rewrite Forall_forall in Hpre. apply (Hpre _ Hin1).
    - apply unique_counts_count. rewrite Hsplit. apply in_or_app. now left. }
  assert (Hlen : (0 + length pre <= length scales)%nat).
  { apply (known_keys_length is_xbb); [|assumption].
    pose proof (sorted_lt_NoDup _ (unique_counts_sorted labels)) as Hnd.
    unfold keys in *. rewrite Hsplit, map_app in Hnd. now apply NoDup_app_remove_r in Hnd. }
  assert (Hget : dict_get (label_mapping is_xbb) l = None).
  { destruct (dict_get (label_mapping is_xbb) l) eqn:E; [|reflexivity].
    exfalso. apply Hl, label_mapping_known. congruence. }
  assert (Hnth : nth_error (unique_counts labels) (length pre) = Some (l, c)).
  { rewrite Hsplit, nth_error_app2, Nat.sub_diag by lia. reflexivity. }
  exists l. split; [assumption|]. split; [assumption|]. split; [|split].
  - intros l' Hin' Hnk'.
    apply unique_counts_keys, in_map_iff in Hin' as ([l1 c1] & Heq & Hin1).
    cbn in Heq. subst l1. rewrite Hsplit in Hin1.
    apply in_app_or in Hin1 as [H1|[H1|H1]].
    + exfalso. rewrite Forall_forall in Hpre. apply Hnk', (Hpre _ H1).
    + injection H1 as <- _. lia.
    + rewrite Forall_forall in Hpost. specialize (Hpost _ H1). cbn in Hpost. lia.
  - rewrite Hsplit at 1. rewrite Hfilter.
    assert (Hn : length (label_dict is_xbb) = 4%nat) by now destruct is_xbb.
    unfold get_mock_scores. rewrite Hn. apply runs_default_rng_bind. cbn zeta.
    rewrite Hsplit. apply runs_bind_err.
    apply scores_loop_unknown; assumption.
  - rewrite Hsplit at 1. rewrite Hfilter.
    rewrite <- (length_map rows_requested).
    rewrite (normal_calls_requested labels) by assumption.
    rewrite length_map. now apply unique_counts_rank in Hnth.
Qed.

End ScoreTheorems.

(** ** Signs *)

Lemma binary_round_aux_sign (prec emax : Z) (s : bool) (m e : Z) (l : location) :
  sign_is s (binary_round_aux prec emax s m e l).
Proof.
  unfold binary_round_aux.
  destruct (shr_fexp prec emax m e l) as [mrs' e'].
  destruct (shr_fexp prec emax _ e' loc_Exact) as [mrs'' e''].
  destruct (shr_m mrs''); [reflexivity| |exact I].
  destruct (e'' <=? emax - prec); reflexivity.
Qed.

Lemma binary_round_sign (prec emax : Z) (s : bool) (m : positive) (e : Z) :
  sign_is s (binary_round prec emax s m e).
Proof.
  unfold binary_round. destruct (shl_align m e _) as [mz ez].
  apply binary_round_aux_sign.
Qed.

Lemma f8_div_sign (x y : spec_float) :
  sign_clear x -> sign_clear y -> sign_clear (f8_div x y).
Proof.
  unfold sign_clear, f8_div.
  destruct x as [sx|sx| |sx mx ex]; destruct y as [sy|sy| |sy my ey]; cbn [sign_is SFdiv];
    intros Hx Hy; subst; try reflexivity; try exact I.
  destruct (SFdiv_core_binary f8_prec f8_emax (Z.pos mx) ex (Z.pos my) ey) as [[mz ez] lz].
  apply (binary_round_aux_sign f8_prec f8_emax false).
Qed.

Lemma f8_to_f4_sign (x : spec_float) : sign_clear x -> sign_clear (f8_to_f4 x).
Proof.
  unfold sign_clear. destruct x as [s|s| |s m e]; cbn [f8_to_f4 sign_is]; intros H; subst;
    try reflexivity; try exact I.
  apply binary_round_sign.
Qed.

Lemma f8_add_sign (x y : spec_float) :
  sign_clear x -> sign_clear y -> sign_clear (SFadd f8_prec f8_emax x y).
Proof.
  unfold sign_clear.
  destruct x as [sx|sx| |sx mx ex]; destruct y as [sy|sy| |sy my ey]; cbn [sign_is SFadd];
    intros Hx Hy; subst; try reflexivity; try exact I.
  cbn [cond_Zopp Z.add binary_normalize]. apply binary_round_sign.
Qed.

Lemma sign_clear_not_negative (x : spec_float) : sign_clear x -> not_negative x = true.
Proof.
  unfold sign_clear, not_negative.
  destruct x as [s|s| |s m e]; cbn [sign_is]; intros H; subst; reflexivity.
Qed.

Lemma replay_exp_sign (x : spec_float) : sign_clear (Replay.exp x).
Proof. vm_compute. reflexivity. Qed.

Lemma replay_sum_sign (l : list spec_float) :
  Forall sign_clear l -> sign_clear (Replay.sum l).
Proof.
  unfold Replay.sum. assert (H0 : sign_clear (S754_zero false)) by reflexivity.
  revert H0. generalize (S754_zero false) as acc.
  induction l as [|x l IH]; intros acc Hacc Hl; [exact Hacc|].
  inversion Hl; subst. cbn [fold_left]. apply IH; [|assumption].
  now apply f8_add_sign.
Qed.

Section SoftmaxFacts.

Context {platform : Platform}.

Lemma softmax_row_length (x : list spec_float) : length (softmax_row x) = length x.
Proof. unfold softmax_row. now rewrite !length_map. Qed.

Lemma softmax_row_sign (x : list spec_float) :
  (forall v, sign_clear (np_exp v)) ->
  (forall l, Forall sign_clear l -> sign_clear (np_sum l)) ->
  Forall sign_clear (softmax_row x).
Proof.
  intros Hexp Hsum. unfold softmax_row.
  assert (He : Forall sign_clear (map (fun v => np_exp (f8_sub v (np_max x))) x)).
  { apply Forall_map, Forall_forall. intros v _. apply Hexp. }
  apply Forall_map. eapply Forall_impl; [|exact He].
  intros v Hv. apply f8_div_sign; [exact Hv|]. apply Hsum, He.
Qed.

End SoftmaxFacts.

(** ** Scaling a float32 of [0, 1] by a constant *)

Lemma has_sign_nonneg (x : spec_float) : has_sign false x -> nonneg x.
Proof. destruct x; cbn; auto. Qed.

Lemma f4_mul_scale_mag (K : Z) (mK : positive) (eK : Z) (v : spec_float) :
  f4_lit K 0 = S754_finite false mK eK ->
  Zpos mK = K * 2 ^ (- eK) -> eK <= 0 -> 0 < K < 16777216 ->
  mag_le 1 0 v -> nonneg v ->
  mag_le K 0 (f4_mul v (f4_lit K 0)) /\ nonneg (f4_mul v (f4_lit K 0)).
Proof.
  intros -> HmK HeK HK Hv Hs.
  destruct f4_side_conditions as (Hp & H2p & Hemin & Hemax).
  destruct v as [s|s| |s mv ev]; try contradiction; [split; exact I|].
  cbn in Hs. subst s. destruct Hv as [Hev Hmv].
  unfold f4_mul, SFmul. cbn [xorb].
  destruct (binary_round_aux_mag f4_prec f4_emax Hp false (mv * mK) (ev + eK) K 0)
    as [H1 H2]; try lia.
  - rewrite Pos2Z.inj_mul, HmK.
    replace (0 - (ev + eK)) with ((0 - ev) + (- eK)) by lia.
    rewrite Z.pow_add_r by lia.
    assert (0 < 2 ^ (0 - ev)) by (apply Z.pow_pos_nonneg; lia).
    assert (0 < 2 ^ (- eK)) by (apply Z.pow_pos_nonneg; lia). nia.
  - cbn zeta in H1, H2. split; [exact H1|]. now apply has_sign_nonneg.
Qed.

Lemma mag_le_Q (K : Z) (x : spec_float) :
  0 <= K -> mag_le K 0 x -> nonneg x ->
  is_finite x = true /\ (0 <= to_Q x <= inject_Z K)%Q.
Proof.
  intros HK. destruct x as [s|s| |s m e]; try contradiction.
  - intros _ _. split; [reflexivity|]. cbn [to_Q]. unfold Qle; cbn [inject_Z Qnum Qden]. lia.
  - intros [He Hm] Hs. cbn in Hs. subst s. split; [reflexivity|].
    destruct e as [|p|p]; [|lia|].
    + cbn [to_Q cond_Zopp]. change (2 ^ (0 - 0)) with 1 in Hm.
      unfold Qle; cbn [inject_Z Qnum Qden]. change (2 ^ 0) with 1. lia.
    + cbn [to_Q cond_Zopp]. replace (0 - Zneg p) with (Zpos p) in Hm by lia.
      unfold Qle; cbn [inject_Z Qnum Qden]. rewrite Pos2Z.inj_pow. lia.
Qed.

(** [float32(u) * K] in float32, for a float64 [u] of [0, 1) and the scale
    factors of [mock.py], is finite and lies in [0, K]. *)
Lemma scaled_unit_range (K : Z) (u : spec_float) :
  K = 400000 \/ K = 50000 \/ K = 5 ->
  unit_f8 u = true ->
  let x := f4_mul (f8_to_f4 u) (f4_lit K 0) in
  is_finite x = true /\ (0 <= to_Q x <= inject_Z K)%Q.
Proof.
  intros HK Hu x. destruct (f8_to_f4_unit u Hu) as [H1 H2]. subst x.
  destruct HK as [ -> | [ -> | -> ] ].
  - destruct (f4_mul_scale_mag 400000 12800000 (-5) (f8_to_f4 u)
                  ltac:(vm_compute; reflexivity) ltac:(reflexivity) ltac:(lia) ltac:(lia)
                  H1 H2) as [Ha Hb].
    apply mag_le_Q; [lia|assumption..].
  - destruct (f4_mul_scale_mag 50000 12800000 (-8) (f8_to_f4 u)
                  ltac:(vm_compute; reflexivity) ltac:(reflexivity) ltac:(lia) ltac:(lia)
                  H1 H2) as [Ha Hb].
    apply mag_le_Q; [lia|assumption..].
  - destruct (f4_mul_scale_mag 5 10485760 (-21) (f8_to_f4 u)
                  ltac:(vm_compute; reflexivity) ltac:(reflexivity) ltac:(lia) ltac:(lia)
                  H1 H2) as [Ha Hb].
    apply mag_le_Q; [lia|assumption..].
Qed.

(** A float64 of [0, 1) cast to float32 is finite and lies in [0, 1]. *)
Lemma cast_unit_range (u : spec_float) :
  unit_f8 u = true ->
  is_finite (f8_to_f4 u) = true /\ (0 <= to_Q (f8_to_f4 u) <= 1)%Q.
Proof.
  intros Hu. destruct (f8_to_f4_unit u Hu) as [H1 H2].
  apply (mag_le_Q 1); [lia|assumption..].
Qed.

Lemma column_units (n k : nat) (rws : list (list spec_float)) :
  (k < n)%nat ->
  Forall (fun r => length r = n /\ Forall (fun u => unit_f8 u = true) r) rws ->
  Forall (fun u => unit_f8 u = true) (column_of k rws).
Proof.
  intros Hk Hr. unfold column_of. apply Forall_map.
  eapply Forall_impl; [|exact Hr]. cbv beta. intros r [Hlen Hu].
  rewrite Forall_forall in Hu. apply Hu, nth_In. lia.
Qed.

Lemma column_of_length (k : nat) (rws : list (list spec_float)) :
  length (column_of k rws) = length rws.
Proof. unfold column_of. apply length_map. Qed.

Lemma column_zero (n k : nat) (rws : list (list spec_float)) :
  (k < n)%nat ->
  Forall (fun r => length r = n /\ Forall (fun u => unit_f8 u = true) r) rws ->
  map float_to_i4 (column_of k rws) = repeat 0 (length rws).
Proof.
  intros Hk Hr. rewrite (@map_constant _ _ float_to_i4 0).
  - now rewrite column_of_length.
  - eapply Forall_impl; [|exact (column_units n k rws Hk Hr)].
    intros u. apply float_to_i4_unit.
Qed.

(** ** The jet feature builder, draw by draw *)

Lemma wrap32_labels (K l : list Z) :
  (forall z, In z K -> wrap32 z = z) ->
  Forall (fun z => In z K) l -> map wrap32 l = l.
Proof.
  intros HK Hl. induction Hl as [|z l Hz _ IH]; [reflexivity|].
  cbn [map]. now rewrite (HK z Hz), IH.
Qed.

Lemma choice_values (a : list Z) (d : Z) (idxs : list nat) :
  Forall (fun i => (i < length a)%nat) idxs ->
  Forall (fun z => In z a) (map (fun i => nth i a d) idxs).
Proof.
  intros Hi. apply Forall_map. eapply Forall_impl; [|exact Hi].
  intros i Hlt. now apply nth_In.
Qed.

Lemma wrap32_small (K : list Z) :
  forallb (fun z => wrap32 z =? z) K = true -> forall z, In z K -> wrap32 z = z.
Proof.
  intros H z Hz. rewrite forallb_forall in H. apply Z.eqb_eq. now apply H.
Qed.

Lemma lookup_field_app (name : string) (fs gs : list (string * column)) :
  lookup_field name (fs ++ gs) =
    match lookup_field name fs with
    | Some c => Some c
    | None => lookup_field name gs
    end.
Proof.
  induction fs as [|[n c] fs IH]; [reflexivity|]. cbn [app lookup_field].
  destruct (String.eqb name n); [reflexivity|exact IH].
Qed.

Section JetFacts.

Context {G : Type} {gen : Generator G} {platform : Platform}.

Local Opaque f4_mul f4_sub f4_lit f8_to_f4 float_to_i4 wrap32 SFabs size.

Ltac step_fields :=
  cbv beta;
  cbn [fields shape update_field lookup_field String.eqb Ascii.eqb Bool.eqb andb
       cast_values col_dtype].

(** The run of [mock_jets]: the generator calls in order, the values the
    three label draws take, and the two score arrays as [get_mock_scores]
    returns them for the label columns. *)
Lemma mock_jets_run (N : nat) :
  exists (rws : list (list spec_float)) (fl ids r10 : list Z) (sc xsc : recarray),
    length rws = N /\
    Forall (fun r => length r = 12%nat /\ Forall (fun u => unit_f8 u = true) r) rws /\
    length fl = N /\ length ids = N /\ length r10 = N /\
    Forall (fun z => In z [0; 4; 5]) fl /\
    Forall (fun z => In z [0; 4; 5; 15]) ids /\
    Forall (fun z => In z [1; 10; 11; 12]) r10 /\
    runs (get_mock_scores ids false) (Ok sc)
         (EvDefaultRng 42 :: normal_calls (label_mapping false) 4 (unique_counts ids) 0) /\
    runs (get_mock_scores r10 true) (Ok xsc)
         (EvDefaultRng 42 :: normal_calls (label_mapping true) 4 (unique_counts r10) 0) /\
    descr sc = map (fun c => (c, f4)) (score_cols false) /\
    descr xsc = map (fun c => (c, f4)) (score_cols true) /\
    runs (mock_jets N)
         (Ok {| shape := [N];
                fields := jets_fields rws fl ids r10 N ++ fields sc ++ fields xsc |})
         ([EvDefaultRng 42; EvRandom [N; 12%nat]; EvChoice 3 [N]; EvChoice 4 [N];
           EvChoice 4 [N]]
          ++ (EvDefaultRng 42 :: normal_calls (label_mapping false) 4 (unique_counts ids) 0)
          ++ (EvDefaultRng 42 :: normal_calls (label_mapping true) 4 (unique_counts r10) 0)).
Proof.
  set (rng0 := rng_seed 42).
  pose proof (random_rows rng0 [N] 12) as Hrows.
  pose proof (random_unit rng0 [N] 12) as Hunit.
  destruct (rng_random rng0 [N] 12) as [rws rng1] eqn:E1. cbn [fst] in Hrows, Hunit.
  pose proof (choice_count rng1 3 [N]) as Hfl.
  pose proof (choice_range rng1 3 [N] ltac:(lia)) as Hflr.
  destruct (rng_choice rng1 3 [N]) as [ifl rng2] eqn:E2. cbn [fst] in Hfl, Hflr.
  pose proof (choice_count rng2 4 [N]) as Hids.
  pose proof (choice_range rng2 4 [N] ltac:(lia)) as Hidsr.
  destruct (rng_choice rng2 4 [N]) as [iids rng3] eqn:E3. cbn [fst] in Hids, Hidsr.
  pose proof (choice_count rng3 4 [N]) as Hr10.
  pose proof (choice_range rng3 4 [N] ltac:(lia)) as Hr10r.
  destruct (rng_choice rng3 4 [N]) as [ir10 rng4] eqn:E4. cbn [fst] in Hr10, Hr10r.
  set (fl := map (fun i => nth i [0; 4; 5] 0) ifl).
  set (ids := map (fun i => nth i [0; 4; 5; 15] 0) iids).
  set (r10 := map (fun i => nth i [1; 10; 11; 12] 1) ir10).
  assert (Hflv : Forall (fun z => In z [0; 4; 5]) fl) by now apply choice_values.
  assert (Hidsv : Forall (fun z => In z [0; 4; 5; 15]) ids) by now apply choice_values.
  assert (Hr10v : Forall (fun z => In z [1; 10; 11; 12]) r10) by now apply choice_values.
  assert (Hwfl : map wrap32 fl = fl).
  { apply (wrap32_labels [0; 4; 5]); [|exact Hflv].
    apply wrap32_small. vm_compute. reflexivity. }
  assert (Hwids : map wrap32 ids = ids).
  { apply (wrap32_labels [0; 4; 5; 15]); [|exact Hidsv].
    apply wrap32_small. vm_compute. reflexivity. }
  assert (Hwr10 : map wrap32 r10 = r10).
  { apply (wrap32_labels [1; 10; 11; 12]); [|exact Hr10v].
    apply wrap32_small. vm_compute. reflexivity. }
  destruct (get_mock_scores_ok ids false) as (sc & Hsc & Hscs & Hscd & Hscl).
  { exact Hidsv. }
  destruct (get_mock_scores_ok r10 true) as (xsc & Hxsc & Hxscs & Hxscd & Hxscl).
  { eapply Forall_impl; [|exact Hr10v]. cbv beta. intros z Hz. cbn in Hz |- *. tauto. }
  assert (Hlfl : length fl = size [N]) by (unfold fl; now rewrite length_map).
  assert (Hlids : length ids = size [N]) by (unfold ids; now rewrite length_map).
  assert (Hlr10 : length r10 = size [N]) by (unfold r10; now rewrite length_map).
  exists rws, fl, ids, r10, sc, xsc.
  repeat (split; [first [assumption | now rewrite <- (size_1 N)]|]).
  eapply runs_trace.
  {
  unfold mock_jets. change (length JET_VARS) with 12%nat.
  apply runs_default_rng_bind. fold rng0.
  apply runs_random_bind. rewrite E1. cbn [fst snd].
  eapply runs_lift_bind; [reflexivity|]. step_fields.
  cbn [lead rows map combine seq length JET_VARS fst snd astype].
  apply runs_choice_bind. cbn [length]. rewrite E2. cbn [fst snd]. fold fl.
  eapply runs_lift_bind; [apply setitem_ok; [reflexivity|exact Hlfl]|]. step_fields.
  eapply runs_lift_bind;
    [apply imul_ok; [reflexivity|now rewrite !length_map]|]. step_fields.
  eapply runs_lift_bind;
    [apply imul_ok; [reflexivity|now rewrite !length_map]|]. step_fields.
  eapply runs_lift_bind; [apply getitem_f4_ok; reflexivity|]. step_fields.
  eapply runs_lift_bind;
    [apply setitem_ok; [reflexivity|cbn [values_len]; now rewrite !length_map]|].
  step_fields.
  eapply runs_lift_bind; [apply getitem_f4_ok; reflexivity|]. step_fields.
  eapply runs_lift_bind;
    [apply setitem_ok; [reflexivity|cbn [values_len]; now rewrite !length_map]|].
  step_fields.
  eapply runs_lift_bind;
    [apply setitem_ok; [reflexivity|cbn [values_len shape]; now rewrite repeat_length]|].
  step_fields.
  apply runs_choice_bind. cbn [length]. rewrite E3. cbn [fst snd]. fold ids.
  eapply runs_lift_bind; [apply setitem_ok; [reflexivity|exact Hlids]|]. step_fields.
  apply runs_choice_bind. cbn [length]. rewrite E4. cbn [fst snd]. fold r10.
  eapply runs_lift_bind; [apply setitem_ok; [reflexivity|exact Hlr10]|]. step_fields.
  eapply runs_lift_bind; [apply getitem_i4_ok; reflexivity|]. step_fields.
  rewrite Hwids.
  eapply runs_bind; [exact Hsc|]. cbv beta.
  eapply runs_lift_bind; [apply getitem_i4_ok; reflexivity|]. step_fields.
  rewrite Hwr10.
  eapply runs_bind; [exact Hxsc|]. cbv beta.
  rewrite size_1.
  rewrite join_structured_arrays_ok.
  - cbn [flat_map fields shape]. rewrite app_nil_r.
    unfold jets_fields, eta_formula, column_of. rewrite Hwids, Hwr10. apply runs_lift.
  - rewrite Hlids, size_1 in Hscs. rewrite Hlr10, size_1 in Hxscs.
    repeat constructor; assumption.
  - cbn [flat_map fields]. rewrite app_nil_r, !map_app.
    change (map fst (fields sc)) with (names sc).
    change (map fst (fields xsc)) with (names xsc).
    rewrite !descr_names, Hscd, Hxscd. cbn [map fst].
    apply first_duplicate_None. vm_compute. reflexivity.
  }
  cbn [app]. now rewrite app_nil_r.
Qed.

End JetFacts.

(** ** The track feature builder, draw by draw *)

Section TrackFacts.

Context {G : Type} {gen : Generator G}.

Local Opaque f4_mul f4_sub f4_lit f8_to_f4 float_to_i4 wrap32 SFabs size.

Ltac step_fields :=
  cbv beta;
  cbn [fields shape update_field lookup_field String.eqb Ascii.eqb Bool.eqb andb
       cast_values col_dtype].

(** The run of [mock_tracks]: five generator calls, and the fields as the
    draws fill them. *)
Lemma mock_tracks_run (N T : nat) :
  exists (rws : list (list spec_float)) (g1 g2 : G) (iv : list nat),
    let h1 := fst (rng_integers g1 0 3 [N; T]) in
    let h2 := fst (rng_integers g2 0 3 [N; T]) in
    length rws = size [N; T] /\
    Forall (fun r => length r = 21%nat /\ Forall (fun u => unit_f8 u = true) r) rws /\
    length iv = size [N; T] /\
    Forall (fun i => (i < 2)%nat) iv /\
    runs (mock_tracks N T)
         (Ok {| shape := [N; T];
                fields := tracks_fields rws h1 h2 ++
                          [("valid", Boolcol (map (fun i => nth i [true; false] true) iv))] |})
         [EvDefaultRng 42; EvRandom [N; T; 21%nat]; EvIntegers 0 3 [N; T];
          EvIntegers 0 3 [N; T]; EvChoice 2 [N; T]].
Proof.
  set (rng0 := rng_seed 42).
  pose proof (random_rows rng0 [N; T] 21) as Hrows.
  pose proof (random_unit rng0 [N; T] 21) as Hunit.
  destruct (rng_random rng0 [N; T] 21) as [rws rng1] eqn:E1. cbn [fst] in Hrows, Hunit.
  pose proof (integers_count rng1 0 3 [N; T]) as Hh1.
  pose proof (integers_count (snd (rng_integers rng1 0 3 [N; T])) 0 3 [N; T]) as Hh2.
  set (rng2 := snd (rng_integers rng1 0 3 [N; T])) in *.
  set (rng3 := snd (rng_integers rng2 0 3 [N; T])).
  pose proof (choice_count rng3 2 [N; T]) as Hv.
  pose proof (choice_range rng3 2 [N; T] ltac:(lia)) as Hvr.
  destruct (rng_choice rng3 2 [N; T]) as [iv rng4] eqn:E4. cbn [fst] in Hv, Hvr.
  exists rws, rng1, rng2, iv. cbv zeta.
  repeat (split; [assumption|]).
  unfold mock_tracks. change (length TRACK_VARS) with 21%nat.
  apply runs_default_rng_bind. fold rng0.
  apply runs_random_bind. rewrite E1. cbn [fst snd].
  eapply runs_lift_bind; [reflexivity|]. step_fields.
  cbn [lead rows map combine seq length TRACK_VARS fst snd astype].
  eapply runs_lift_bind;
    [apply imul_ok; [reflexivity|now rewrite !length_map]|]. step_fields.
  apply runs_integers_bind.
  rewrite (surjective_pairing (rng_integers rng1 0 3 [N; T])). fold rng2.
  eapply runs_lift_bind; [apply setitem_ok; [reflexivity|exact Hh1]|]. step_fields.
  apply runs_integers_bind.
  rewrite (surjective_pairing (rng_integers rng2 0 3 [N; T])). fold rng3.
  eapply runs_lift_bind; [apply setitem_ok; [reflexivity|exact Hh2]|]. step_fields.
  apply runs_choice_bind. cbn [length]. rewrite E4. cbn [fst snd].
  rewrite join_structured_arrays_ok.
  - apply runs_lift.
  - repeat constructor.
  - cbn [flat_map fields map fst app].
    apply first_duplicate_None. vm_compute. reflexivity.
Qed.

End TrackFacts.

(** ** The provisos of the score distribution *)

Lemma dict_get_In {V : Type} (d : list (Z * V)) (k : Z) (v : V) :
  dict_get d k = Some v -> In v (map snd d).
Proof.
  induction d as [|[k0 v0] d IH]; cbn; [discriminate|].
  destruct (k =? k0); [intros [= ->]; now left|]. intros H. right. now apply IH.
Qed.

Lemma label_mapping_means (is_xbb : bool) (l : Z) (loc : list spec_float) :
  dict_get (label_mapping is_xbb) l = Some loc -> In loc means.
Proof.
  intros H. apply dict_get_In in H.
  replace (map snd (label_mapping is_xbb)) with means in H; [exact H|].
  destruct is_xbb; vm_compute; reflexivity.
Qed.

Section DrawsFinite.

Context {G : Type} {gen : Generator G}.
Hypothesis Hnormal : normal_draws_finite.

Lemma loop_draws_finite (is_xbb : bool) (items : list (Z * nat)) (i : nat) (rng : G) :
  Forall (Forall (fun r => length r = 4%nat /\ Forall (fun v => is_finite v = true) r))
         (loop_draws (label_mapping is_xbb) 4 items i rng).
Proof.
  revert i rng. induction items as [|[l c] items IH]; intros i rng; cbn [loop_draws];
    [constructor|].
  destruct (dict_get (label_mapping is_xbb) l) as [loc|] eqn:Ed; [|constructor].
  destruct (nth_error scales i) as [s|] eqn:Es; [|constructor].
  constructor; [|apply IH].
  pose proof (Hnormal rng loc s c (label_mapping_means _ _ _ Ed) (nth_error_In _ _ Es)) as Hf.
  pose proof (normal_cols rng loc s c 4) as Hc.
  rewrite Forall_forall in *. intros r Hr. split; [now apply Hc|now apply Hf].
Qed.

End DrawsFinite.

Lemma largest_fold (l : list spec_float) (a : spec_float) :
  let m := fold_left (fun a b => if Qle_bool (to_Q a) (to_Q b) then b else a) l a in
  (m = a \/ In m l) /\ (to_Q a <= to_Q m)%Q /\
  Forall (fun v => (to_Q v <= to_Q m)%Q) l.
Proof.
  revert a. induction l as [|b l IH]; intros a; cbn [fold_left].
  - split; [now left|]. split; [apply Qle_refl|constructor].
  - destruct (IH (if Qle_bool (to_Q a) (to_Q b) then b else a)) as (Hin & Hle & Hall).
    set (m := fold_left _ l _) in *.
    destruct (Qle_bool (to_Q a) (to_Q b)) eqn:E.
    + apply Qle_bool_iff in E. split; [right; destruct Hin as [->|]; [now left|now right]|].
      split; [lra|]. constructor; assumption.
    + assert (Hlt : (to_Q b < to_Q a)%Q).
      { apply Qnot_le_lt. intros H. apply Qle_bool_iff in H. congruence. }
      split; [destruct Hin as [->|]; [now left|right; now right]|].
      split; [exact Hle|]. constructor; [lra|assumption].
Qed.

Lemma ordered_max_is_largest : @max_is_largest ordered_platform.
Proof.
  intros [|a l] Hne _; [contradiction|].
  cbn [np_max ordered_platform]. unfold Replay.largest. cbn [hd tl].
  destruct (largest_fold l a) as (Hin & Hle & Hall).
  split; [destruct Hin as [->|]; [now left|now right]|].
  constructor; assumption.
Qed.

Lemma ordered_exp_of_zero : @exp_of_zero_is_one ordered_platform.
Proof. intros s. split; vm_compute; reflexivity. Qed.

Lemma exp_half_cases (d : spec_float) :
  Replay.exp_half d = f8_lit 1 0 \/ Replay.exp_half d = f8_lit 1 (-1).
Proof. destruct d; [left|right|right|right]; reflexivity. Qed.

Lemma ordered_exp_in_unit : @exp_in_unit_interval ordered_platform.
Proof.
  intros d _. cbn [np_exp ordered_platform].
  destruct (exp_half_cases d) as [-> | ->]; vm_compute; repeat split; discriminate.
Qed.

Lemma ordered_sum_accurate : @sum_of_exps_accurate ordered_platform 0.
Proof.
  intros [|d0 [|d1 [|d2 [|d3 [|]]]]] Hlen _; try discriminate Hlen.
  cbn [np_exp np_sum ordered_platform map].
  destruct (exp_half_cases d0) as [-> | ->]; destruct (exp_half_cases d1) as [-> | ->];
    destruct (exp_half_cases d2) as [-> | ->]; destruct (exp_half_cases d3) as [-> | ->];
    vm_compute; split; try reflexivity; discriminate.
Qed.

Lemma replay_normal_finite : @normal_draws_finite nat replay_generator.
Proof.
  intros g loc sc n Hloc _. cbn [rng_normal replay_generator]. unfold Replay.normal.
  cbn [fst]. apply Forall_forall. intros r Hr. apply repeat_spec in Hr. subst r.
  cbn in Hloc. destruct Hloc as [<-|[<-|[<-|[<-|[]]]]]; vm_compute;
    repeat constructor.
Qed.

(** ** Properties of the score synthesizer *)

Lemma nth_sign_clear (k : nat) (r : list spec_float) :
  Forall sign_clear r -> sign_clear (nth k r S754_nan).
Proof.
  intros Hr. destruct (nth_in_or_default k r S754_nan) as [Hin| ->]; [|exact I].
  rewrite Forall_forall in Hr. now apply Hr.
Qed.

Lemma scores_fields_sign (is_xbb : bool) (sm : list (list spec_float)) :
  Forall (Forall sign_clear) sm ->
  Forall (fun f => exists xs, snd f = F4col xs /\ Forall (fun x => not_negative x = true) xs)
         (scores_fields is_xbb sm).
Proof.
  intros Hsm. unfold scores_fields. apply Forall_map, Forall_forall. intros [k name] _.
  cbn [fst snd]. eexists. split; [reflexivity|].
  unfold column_of. apply Forall_map, Forall_map.
  eapply Forall_impl; [|exact Hsm]. cbv beta. intros r Hr.
  apply sign_clear_not_negative, f8_to_f4_sign, nth_sign_clear, Hr.
Qed.

Lemma normal_calls_normal (mapping : list (Z * list spec_float)) (nclass : nat)
  (items : list (Z * nat)) (i : nat) :
  forallb is_normal (normal_calls mapping nclass items i) = true.
Proof.
  revert i. induction items as [|[l c] items IH]; intros i; cbn; [reflexivity|].
  destruct (dict_get mapping l); [|reflexivity].
  destruct (nth_error scales i); [|reflexivity]. cbn. apply IH.
Qed.

Section ScoreProperties.

Context {G : Type} {gen : Generator G} {platform : Platform}.

(** X1: [get_mock_scores] either returns an array with one record per label
    and the four "f4" score fields of the taxonomy, which happens exactly
    when every label has a mapping entry, or raises [KeyError] for a label
    of the input that has none.  It raises nothing else: the index into
    [scales], the masked assignment, the softmax and the cast never fail. *)
Theorem get_mock_scores_result (labels : list Z) (is_xbb : bool) (w : World) :
  match fst (get_mock_scores labels is_xbb w) with
  | Ok arr =>
      (forall l, In l labels -> dict_get (label_mapping is_xbb) l <> None) /\
      shape arr = [length labels] /\
      descr arr = map (fun c => (c, f4)) (score_cols is_xbb) /\
      Forall (fun f => col_len (snd f) = length labels) (fields arr)
  | Err e =>
      exists l, e = KeyError l /\ In l labels /\ dict_get (label_mapping is_xbb) l = None
  end.
Proof.
  destruct (Forall_dec (fun l => In l (known_labels is_xbb))
              (fun l => in_dec Z.eq_dec l (known_labels is_xbb)) labels) as [Hk|Hnk].
  - destruct (get_mock_scores_ok labels is_xbb Hk) as (arr & Hruns & Hs & Hd & Hl).
    rewrite Hruns. cbn [fst]. repeat split; try assumption.
    intros l Hin. apply label_mapping_known. rewrite Forall_forall in Hk. now apply Hk.
  - apply neg_Forall_Exists_neg in Hnk; [|intros l; apply in_dec, Z.eq_dec].
    apply Exists_exists in Hnk as (l0 & Hin0 & Hl0).
    destruct (get_mock_scores_unknown labels is_xbb) as (l & t & Hin & Hl & Hruns); [eauto|].
    rewrite Hruns. cbn [fst]. exists l. repeat split; try assumption.
    destruct (dict_get (label_mapping is_xbb) l) eqn:E; [|reflexivity].
    exfalso. apply Hl, label_mapping_known. congruence.
Qed.

(** X2: when some label has no mapping entry, the label [get_mock_scores]
    reports is the least such label, and the draws made before the failure
    are those for the distinct labels below it, one each. *)
Theorem least_unknown_label_reported (labels : list Z) (is_xbb : bool) (w : World) :
  (exists l, In l labels /\ dict_get (label_mapping is_xbb) l = None) ->
  exists l,
    fst (get_mock_scores labels is_xbb w) = Err (KeyError l) /\
    In l labels /\ dict_get (label_mapping is_xbb) l = None /\
    (forall l', In l' labels -> dict_get (label_mapping is_xbb) l' = None -> l <= l') /\
    let calls := normal_calls (label_mapping is_xbb) 4
                   (filter (fun it => fst it <? l) (unique_counts labels)) 0 in
    snd (get_mock_scores labels is_xbb w) = w ++ EvDefaultRng 42 :: calls /\
    length calls = rank labels l.
Proof.
  intros (l0 & Hin0 & Hget0).
  destruct (get_mock_scores_least_unknown labels is_xbb)
    as (l & Hin & Hl & Hleast & Hruns & Hlen).
  { exists l0. split; [assumption|]. intros Hk. apply label_mapping_known in Hk. congruence. }
  exists l. cbv zeta. rewrite !Hruns. cbn [fst snd].
  split; [reflexivity|]. split; [assumption|].
  split.
  { destruct (dict_get (label_mapping is_xbb) l) eqn:E; [|reflexivity].
    exfalso. apply Hl, label_mapping_known. congruence. }
  split; [|split; [reflexivity|exact Hlen]].
  intros l' Hin' Hget'. apply Hleast; [assumption|].
  intros Hk. apply label_mapping_known in Hk. congruence.
Qed.

(** X3: a successful [get_mock_scores] seeds one generator and then calls
    [rng.normal] once per distinct label and nothing else; the rows the calls
    ask for add up to the number of labels. *)
Theorem one_draw_per_distinct_label (labels : list Z) (is_xbb : bool) (w : World) :
  succeeds (fst (get_mock_scores labels is_xbb w)) = true ->
  exists calls,
    snd (get_mock_scores labels is_xbb w) = w ++ EvDefaultRng 42 :: calls /\
    forallb is_normal calls = true /\
    length calls = length (nodup Z.eq_dec labels) /\
    list_sum (map rows_requested calls) = length labels.
Proof.
  intros Hok. pose proof (get_mock_scores_succeeds_known labels is_xbb w Hok) as Hk.
  destruct (get_mock_scores_ok labels is_xbb Hk) as (arr & Hruns & _).
  exists (normal_calls (label_mapping is_xbb) 4 (unique_counts labels) 0).
  rewrite Hruns. cbn [snd]. split; [reflexivity|]. split; [apply normal_calls_normal|].
  assert (Hreq : map rows_requested
                   (normal_calls (label_mapping is_xbb) 4 (unique_counts labels) 0) =
                 map snd (unique_counts labels)).
  { apply (normal_calls_requested labels); [now apply unique_counts_items_ok|].
    apply (known_keys_length is_xbb).
    - apply sorted_lt_NoDup, unique_counts_sorted.
    - now apply unique_counts_known. }
  split.
  - rewrite <- (length_map rows_requested), Hreq, length_map. apply unique_counts_length.
  - rewrite Hreq. apply unique_counts_total.
Qed.

(** X4: the scale of the draw for a label is picked by the label's rank
    among the distinct labels of the input, not by the label: the draw for
    [l] uses [scales[r]], [r] the number of distinct labels below [l]. *)
Theorem scale_by_rank (labels : list Z) (is_xbb : bool) (w : World) (l : Z) :
  succeeds (fst (get_mock_scores labels is_xbb w)) = true ->
  In l labels ->
  exists loc s,
    dict_get (label_mapping is_xbb) l = Some loc /\
    nth_error scales (rank labels l) = Some s /\
    nth_error (snd (get_mock_scores labels is_xbb w)) (length w + 1 + rank labels l) =
      Some (EvNormal loc s [count_true (map (Z.eqb l) labels); 4%nat]).
Proof.
  intros Hok Hin. pose proof (get_mock_scores_succeeds_known labels is_xbb w Hok) as Hk.
  destruct (get_mock_scores_ok labels is_xbb Hk) as (arr & Hruns & _).
  assert (Hl : In l (keys (unique_counts labels))) by now apply unique_counts_keys.
  apply In_nth_error in Hl as [p Hp]. unfold keys in Hp. rewrite nth_error_map in Hp.
  destruct (nth_error (unique_counts labels) p) as [[l' c]|] eqn:Ep; [|discriminate].
  cbn in Hp. injection Hp as ->.
  pose proof (unique_counts_rank labels p l c Ep) as Hrank.
  pose proof (unique_counts_count labels l c (nth_error_In _ _ Ep)) as Hc.
  destruct (normal_calls_nth (label_mapping is_xbb) 4 labels (unique_counts labels) 0 p l c)
    as (loc & s & Hget & Hs & Hcall).
  { now apply unique_counts_items_ok. }
  { apply (known_keys_length is_xbb).
    - apply sorted_lt_NoDup, unique_counts_sorted.
    - now apply unique_counts_known. }
  { exact Ep. }
  exists loc, s. rewrite <- Hrank, <- Hc. cbn [Nat.add] in Hs.
  split; [assumption|]. split; [assumption|].
  rewrite Hruns. cbn [snd].
  rewrite nth_error_app2 by lia.
  replace (length w + 1 + p - length w)%nat with (S p) by lia. exact Hcall.
Qed.

(** X5: where the scores of a record come from.  Record [j], of label [l],
    takes the row of the draw made for [l] (the draw of index [rank labels l])
    at the position [j] has among the records of label [l]; field [k] of the
    record is entry [k] of the softmax of that row, cast to float32. *)
Theorem score_row_provenance (labels : list Z) (is_xbb : bool) (w : World)
  (j k : nat) (l : Z) (name : string) :
  succeeds (fst (get_mock_scores labels is_xbb w)) = true ->
  nth_error labels j = Some l ->
  nth_error (score_cols is_xbb) k = Some name ->
  exists arr draw row col,
    fst (get_mock_scores labels is_xbb w) = Ok arr /\
    nth_error (loop_draws (label_mapping is_xbb) 4 (unique_counts labels) 0 (rng_seed 42))
              (rank labels l) = Some draw /\
    nth_error draw (occurrences labels l j) = Some row /\
    getitem arr name = Ok (F4col col) /\
    nth_error col j = Some (f8_to_f4 (nth k (softmax_row row) S754_nan)).
Proof.
  intros Hok Hj Hname.
  pose proof (get_mock_scores_succeeds_known labels is_xbb w Hok) as Hk.
  destruct (get_mock_scores_run labels is_xbb Hk) as (raw & Hruns & Hraw & Hdl & Hrows).
  set (draws := loop_draws (label_mapping is_xbb) 4 (unique_counts labels) 0 (rng_seed 42))
    in *.
  assert (Hjlt : (j < length raw)%nat).
  { rewrite Hraw. apply nth_error_Some. congruence. }
  destruct (nth_error raw j) as [row|] eqn:Erow;
    [|apply nth_error_None in Erow; lia].
  assert (Hrank : (rank labels l < length draws)%nat).
  { assert (Hl : In l (keys (unique_counts labels))).
    { apply unique_counts_keys. eapply nth_error_In; eassumption. }
    apply In_nth_error in Hl as [p Hp]. unfold keys in Hp. rewrite nth_error_map in Hp.
    destruct (nth_error (unique_counts labels) p) as [[l' c]|] eqn:Ep; [|discriminate].
    cbn in Hp. injection Hp as ->.
    rewrite <- (unique_counts_rank labels p l c Ep), Hdl.
    apply nth_error_Some. congruence. }
  eexists. exists (nth (rank labels l) draws []), row. eexists.
  rewrite Hruns. cbn [fst]. split; [reflexivity|]. split; [|split; [|split]].
  - now apply nth_error_nth'.
  - rewrite <- (Hrows j l Hj). exact Erow.
  - unfold getitem. cbn [fields].
    rewrite (scores_fields_lookup is_xbb _ k name Hname). reflexivity.
  - unfold column_of. rewrite !nth_error_map, Erow. reflexivity.
Qed.

(** X6: no score is negative, provided libm's [exp] returns no negative value
    and the sum of values that are not negative is not negative: every entry
    of every score field compares as not below zero (it may be NaN). *)
Theorem scores_not_negative (labels : list Z) (is_xbb : bool) (w : World) :
  (forall v, sign_clear (np_exp v)) ->
  (forall l, Forall sign_clear l -> sign_clear (np_sum l)) ->
  succeeds (fst (get_mock_scores labels is_xbb w)) = true ->
  exists arr,
    fst (get_mock_scores labels is_xbb w) = Ok arr /\
    Forall (fun f => exists xs, snd f = F4col xs /\
                                Forall (fun x => not_negative x = true) xs)
           (fields arr).
Proof.
  intros Hexp Hsum Hok.
  pose proof (get_mock_scores_succeeds_known labels is_xbb w Hok) as Hk.
  destruct (get_mock_scores_run labels is_xbb Hk) as (raw & Hruns & _).
  eexists. rewrite Hruns. cbn [fst fields]. split; [reflexivity|].
  apply scores_fields_sign, Forall_map, Forall_forall. intros r _.
  now apply softmax_row_sign.
Qed.

(** C2: every row of the scores is a probability distribution, up to the
    rounding of float32, provided the draws are finite, numpy's [max] returns
    the largest entry, libm's [exp] maps a zero to 1 and what is not above
    zero into [[0, 1]], and the sum of the four exponentials has relative
    error at most [gamma]: the four scores of a record are finite, none is
    below zero, and they add up to 1 within [2 * gamma + 2^-22]. *)
Theorem scores_rows_are_distributions (labels : list Z) (is_xbb : bool) (w : World)
  (gamma tol : Q) :
  (0 <= gamma <= 1 # 4)%Q -> (2 * gamma + (1 # 4194304) <= tol)%Q ->
  normal_draws_finite -> max_is_largest -> exp_of_zero_is_one ->
  exp_in_unit_interval -> sum_of_exps_accurate gamma ->
  succeeds (fst (get_mock_scores labels is_xbb w)) = true ->
  exists arr,
    fst (get_mock_scores labels is_xbb w) = Ok arr /\
    shape arr = [length labels] /\
    forall j, (j < length labels)%nat ->
      exists row,
        length row = 4%nat /\
        (forall k name, nth_error (score_cols is_xbb) k = Some name ->
           exists col, getitem arr name = Ok (F4col col) /\
                       nth_error col j = nth_error row k) /\
        Forall (fun p => is_finite p = true /\ (0 <= to_Q p)%Q) row /\
        (Qabs (Qsum (map to_Q row) - 1) <= tol)%Q.
Proof.
  intros Hg Htol Hnormal Hmax Hexp0 Hexp Hsum Hok.
  pose proof (get_mock_scores_succeeds_known labels is_xbb w Hok) as Hk.
  destruct (get_mock_scores_run labels is_xbb Hk) as (raw & Hruns & Hraw & Hdl & Hrows).
  set (draws := loop_draws (label_mapping is_xbb) 4 (unique_counts labels) 0 (rng_seed 42))
    in *.
  eexists. rewrite Hruns. cbn [fst shape]. split; [reflexivity|]. split; [reflexivity|].
  intros j Hj.
  destruct (nth_error labels j) as [l|] eqn:El; [|apply nth_error_None in El; lia].
  destruct (nth_error raw j) as [r|] eqn:Er; [|apply nth_error_None in Er; lia].
  assert (Hr : length r = 4%nat /\ Forall (fun v => is_finite v = true) r).
  { pose proof (loop_draws_finite Hnormal is_xbb (unique_counts labels) 0 (rng_seed 42))
      as Hd. fold draws in Hd.
    rewrite (Hrows j l El) in Er.
    destruct (nth_in_or_default (rank labels l) draws []) as [Hin|Hdef].
    - rewrite Forall_forall in Hd. specialize (Hd _ Hin).
      rewrite Forall_forall in Hd. apply Hd. eapply nth_error_In; eassumption.
    - rewrite Hdef in Er. destruct (occurrences labels l j); discriminate. }
  destruct Hr as [Hlen Hfin].
  destruct (softmax_row_distribution gamma Hg Hmax Hexp0 Hexp Hsum r Hlen Hfin)
    as (Hl4 & Hpos & Hsm).
  exists (map f8_to_f4 (softmax_row r)).
  split; [exact Hl4|]. split; [|split; [exact Hpos|]].
  - intros k name Hname. eexists. split.
    + unfold getitem. cbn [fields].
      rewrite (scores_fields_lookup is_xbb _ k name Hname). reflexivity.
    + unfold column_of. rewrite !nth_error_map, Er. cbn [option_map].
      assert (Hk4 : (k < length (softmax_row r))%nat).
      { rewrite length_map in Hl4. rewrite Hl4.
        assert (length (score_cols is_xbb) = 4%nat) by (now destruct is_xbb).
        assert (nth_error (score_cols is_xbb) k <> None) by congruence.
        apply nth_error_Some in H0. lia. }
      rewrite (nth_error_nth' _ S754_nan Hk4). reflexivity.
  - eapply Qle_trans; [exact Hsm|exact Htol].
Qed.

(** X8: no entry of a softmax is negative, along whatever axis it is taken,
    under the same provisos on [exp] and the sum. *)
Theorem softmax_not_negative (x y : ndarray) (axis : option Z) :
  (forall v, sign_clear (np_exp v)) ->
  (forall l, Forall sign_clear l -> sign_clear (np_sum l)) ->
  softmax x axis = Ok y ->
  Forall (Forall (fun v => not_negative v = true)) (rows y).
Proof.
  intros Hexp Hsum.
  assert (Hdiv : forall v m l,
             not_negative (f8_div (np_exp (f8_sub v m))
                                  (np_sum (map (fun u => np_exp (f8_sub u m)) l))) = true).
  { intros v m l. apply sign_clear_not_negative, f8_div_sign; [apply Hexp|].
    apply Hsum, Forall_map, Forall_forall. intros u _. apply Hexp. }
  unfold softmax. destruct axis as [a|].
  - destruct (normalize_axis a (S (length (lead x)))) as [k|]; [|discriminate].
    destruct (k =? length (lead x))%nat.
    + destruct (last x =? 0)%nat; [discriminate|].
      intros [= <-]. cbn [rows]. apply Forall_map, Forall_forall. intros r _.
      eapply Forall_impl; [|apply softmax_row_sign; assumption].
      intros v. apply sign_clear_not_negative.
    + destruct (nth k (lead x) 0 =? 0)%nat; [discriminate|].
      intros [= <-]. cbn [rows]. unfold softmax_axis.
      apply Forall_map, Forall_forall. intros rr _.
      apply Forall_map, Forall_forall. intros cv _. apply Hdiv.
  - destruct (concat (rows x)) as [|v0 flat] eqn:Ef; [discriminate|].
    intros [= <-]. cbn [rows]. unfold softmax_all. rewrite Ef.
    apply Forall_map, Forall_forall. intros r _.
    apply Forall_map, Forall_forall. intros v _. apply Hdiv.
Qed.

End ScoreProperties.

(** ** Properties of the jet feature builder *)

Lemma lookup_field_In (name : string) (fs : list (string * column)) :
  In name (map fst fs) -> exists c, lookup_field name fs = Some c.
Proof.
  induction fs as [|[n c] fs IH]; [contradiction|]. cbn [map fst lookup_field].
  destruct (String.eqb_spec name n) as [->|Hne]; [eauto|].
  intros [H|H]; [congruence|auto].
Qed.

Lemma lookup_field_not_In (name : string) (fs : list (string * column)) :
  ~ In name (map fst fs) -> lookup_field name fs = None.
Proof.
  induction fs as [|[n c] fs IH]; [reflexivity|]. cbn [map fst lookup_field].
  intros Hn. destruct (String.eqb_spec name n) as [->|Hne]; [exfalso; apply Hn; now left|].
  apply IH. intros H. apply Hn. now right.
Qed.

Lemma seeds_app (t1 t2 : list event) : seeds (t1 ++ t2) = seeds t1 ++ seeds t2.
Proof.
  induction t1 as [|e t1 IH]; [reflexivity|]. destruct e; cbn; now rewrite IH.
Qed.

Lemma seeds_normal_calls (mapping : list (Z * list spec_float)) (nclass : nat)
  (items : list (Z * nat)) (i : nat) :
  seeds (normal_calls mapping nclass items i) = [].
Proof.
  revert i. induction items as [|[l c] items IH]; intros i; cbn; [reflexivity|].
  destruct (dict_get mapping l); [|reflexivity].
  destruct (nth_error scales i); [|reflexivity]. cbn. apply IH.
Qed.

Lemma abs_range (x : spec_float) :
  is_finite x = true /\ (-3 <= to_Q x <= 3)%Q ->
  is_finite (SFabs x) = true /\ (0 <= to_Q (SFabs x) <= 3)%Q.
Proof.
  intros [Hf Hr]. split; [now destruct x|]. rewrite to_Q_abs. split.
  - apply Qabs_nonneg.
  - apply Qabs_Qle_condition. exact Hr.
Qed.

Section JetProperties.

Context {G : Type} {gen : Generator G} {platform : Platform}.

(** X9: the label fields of the jets hold values of the lists they are
    drawn from: "flavour_label" of 0, 4, 5; "HadronConeExclTruthLabelID" of
    0, 4, 5, 15; "R10TruthLabel_R22v1" of 1, 10, 11, 12; and
    "n_truth_promptLepton" is 0 for every jet. *)
Theorem mock_jets_label_fields (N : nat) (w : World) :
  exists arr fl ids r10,
    fst (mock_jets N w) = Ok arr /\
    getitem arr "flavour_label" = Ok (I4col fl) /\
    getitem arr "HadronConeExclTruthLabelID" = Ok (I4col ids) /\
    getitem arr "R10TruthLabel_R22v1" = Ok (I4col r10) /\
    getitem arr "n_truth_promptLepton" = Ok (I4col (repeat 0 N)) /\
    length fl = N /\ length ids = N /\ length r10 = N /\
    Forall (fun z => In z [0; 4; 5]) fl /\
    Forall (fun z => In z [0; 4; 5; 15]) ids /\
    Forall (fun z => In z [1; 10; 11; 12]) r10.
Proof.
  destruct (mock_jets_run N)
    as (rws & fl & ids & r10 & sc & xsc & Hrws & Hunit & Hfl & Hids & Hr10 &
        Hflv & Hidsv & Hr10v & _ & _ & _ & _ & Hruns).
  eexists. exists fl, ids, r10. rewrite Hruns. cbn [fst].
  split; [reflexivity|].
  assert (Hwfl : map wrap32 fl = fl).
  { apply (wrap32_labels [0; 4; 5]); [|exact Hflv].
    apply wrap32_small. vm_compute. reflexivity. }
  assert (Hwids : map wrap32 ids = ids).
  { apply (wrap32_labels [0; 4; 5; 15]); [|exact Hidsv].
    apply wrap32_small. vm_compute. reflexivity. }
  assert (Hwr10 : map wrap32 r10 = r10).
  { apply (wrap32_labels [1; 10; 11; 12]); [|exact Hr10v].
    apply wrap32_small. vm_compute. reflexivity. }
  assert (Hz : map wrap32 (repeat 0 N) = repeat 0 N) by apply map_repeat.
  split; [rewrite <- Hwfl at 2; reflexivity|].
  split; [rewrite <- Hwids at 2; reflexivity|].
  split; [rewrite <- Hwr10 at 2; reflexivity|].
  split; [rewrite <- Hz at 1; reflexivity|].
  repeat split; assumption.
Qed.

(** X10: the float fields of the jets are finite and within the range the
    scaling gives them: "pt" in [0, 400000], "mass" in [0, 50000], "abs_eta"
    in [0, 3], and the three fields left as drawn in [0, 1]. *)
Theorem mock_jets_float_ranges (N : nat) (w : World) :
  exists arr pt mass abs_eta,
    fst (mock_jets N w) = Ok arr /\
    getitem arr "pt" = Ok (F4col pt) /\
    getitem arr "mass" = Ok (F4col mass) /\
    getitem arr "abs_eta" = Ok (F4col abs_eta) /\
    Forall (fun x => is_finite x = true /\ (0 <= to_Q x <= 400000)%Q) pt /\
    Forall (fun x => is_finite x = true /\ (0 <= to_Q x <= 50000)%Q) mass /\
    Forall (fun x => is_finite x = true /\ (0 <= to_Q x <= 3)%Q) abs_eta /\
    forall name, In name unscaled_jet_fields ->
      exists xs,
        getitem arr name = Ok (F4col xs) /\
        Forall (fun x => is_finite x = true /\ (0 <= to_Q x <= 1)%Q) xs.
Proof.
  destruct (mock_jets_run N)
    as (rws & fl & ids & r10 & sc & xsc & Hrws & Hunit & _ & _ & _ &
        _ & _ & _ & _ & _ & _ & _ & Hruns).
  do 4 eexists. rewrite Hruns. cbn [fst].
  split; [reflexivity|]. split; [reflexivity|]. split; [reflexivity|].
  split; [reflexivity|].
  split; [|split; [|split; [|]]].
  - apply Forall_map, Forall_map.
    eapply Forall_impl; [|exact (column_unit 0 rws ltac:(lia) Hunit)].
    cbv beta. intros u Hu. apply (scaled_unit_range 400000 u); auto.
  - apply Forall_map, Forall_map.
    eapply Forall_impl; [|exact (column_unit 3 rws ltac:(lia) Hunit)].
    cbv beta. intros u Hu. apply (scaled_unit_range 50000 u); auto.
  - apply Forall_map, Forall_map, Forall_map.
    eapply Forall_impl; [|exact (column_unit 1 rws ltac:(lia) Hunit)].
    cbv beta. intros u Hu. apply abs_range. apply (eta_of_unit_range u Hu).
  - intros name Hin. cbn in Hin.
    destruct Hin as [<-|[<-|[<-|[]]]]; eexists; (split; [reflexivity|]);
      apply Forall_map;
      (eapply Forall_impl; [intros u Hu; apply (cast_unit_range u Hu)|]).
    + exact (column_unit 4 rws ltac:(lia) Hunit).
    + exact (column_unit 5 rws ltac:(lia) Hunit).
    + exact (column_unit 8 rws ltac:(lia) Hunit).
Qed.

(** X11: [mock_jets] makes five calls on its own generator (the seeding,
    one uniform draw of shape (N, 12), three label draws), then
    [get_mock_scores] seeds a generator of its own for each of the two
    taxonomies: the seed 42 is set three times, and the normal draws are those
    for the two label fields of the result. *)
Theorem mock_jets_reseeds (N : nat) (w : World) :
  exists arr ids r10,
    fst (mock_jets N w) = Ok arr /\
    getitem arr "HadronConeExclTruthLabelID" = Ok (I4col ids) /\
    getitem arr "R10TruthLabel_R22v1" = Ok (I4col r10) /\
    snd (mock_jets N w) =
      w ++ [EvDefaultRng 42; EvRandom [N; 12%nat]; EvChoice 3 [N]; EvChoice 4 [N];
            EvChoice 4 [N]]
        ++ (EvDefaultRng 42 :: normal_calls (label_mapping false) 4 (unique_counts ids) 0)
        ++ (EvDefaultRng 42 :: normal_calls (label_mapping true) 4 (unique_counts r10) 0) /\
    seeds (snd (mock_jets N w)) = seeds w ++ [42; 42; 42].
Proof.
  destruct (mock_jets_run N)
    as (rws & fl & ids & r10 & sc & xsc & Hrws & Hunit & Hfl & Hids & Hr10 &
        Hflv & Hidsv & Hr10v & _ & _ & _ & _ & Hruns).
  eexists. exists ids, r10. rewrite !Hruns. cbn [fst snd].
  split; [reflexivity|].
  assert (Hwids : map wrap32 ids = ids).
  { apply (wrap32_labels [0; 4; 5; 15]); [|exact Hidsv].
    apply wrap32_small. vm_compute. reflexivity. }
  assert (Hwr10 : map wrap32 r10 = r10).
  { apply (wrap32_labels [1; 10; 11; 12]); [|exact Hr10v].
    apply wrap32_small. vm_compute. reflexivity. }
  split; [rewrite <- Hwids at 2; reflexivity|].
  split; [rewrite <- Hwr10 at 2; reflexivity|].
  split; [reflexivity|].
  rewrite !seeds_app. cbn [seeds]. now rewrite !seeds_normal_calls.
Qed.

(** X12: the score fields of the jets are what [get_mock_scores] returns for
    the label fields of the same jets: the standard scores for
    "HadronConeExclTruthLabelID" (not for "flavour_label"), the alternate ones
    for "R10TruthLabel_R22v1". *)
Theorem mock_jets_scores_from_labels (N : nat) (w : World) :
  exists arr ids r10 sc xsc,
    fst (mock_jets N w) = Ok arr /\
    getitem arr "HadronConeExclTruthLabelID" = Ok (I4col ids) /\
    getitem arr "R10TruthLabel_R22v1" = Ok (I4col r10) /\
    (forall w', fst (get_mock_scores ids false w') = Ok sc) /\
    (forall w', fst (get_mock_scores r10 true w') = Ok xsc) /\
    (forall name, In name (score_cols false) ->
       getitem arr name = getitem sc name /\ succeeds (getitem sc name) = true) /\
    (forall name, In name (score_cols true) ->
       getitem arr name = getitem xsc name /\ succeeds (getitem xsc name) = true).
Proof.
  destruct (mock_jets_run N)
    as (rws & fl & ids & r10 & sc & xsc & Hrws & Hunit & Hfl & Hids & Hr10 &
        Hflv & Hidsv & Hr10v & Hsc & Hxsc & Hscd & Hxscd & Hruns).
  eexists. exists ids, r10, sc, xsc. rewrite !Hruns. cbn [fst snd].
  split; [reflexivity|].
  assert (Hwids : map wrap32 ids = ids).
  { apply (wrap32_labels [0; 4; 5; 15]); [|exact Hidsv].
    apply wrap32_small. vm_compute. reflexivity. }
  assert (Hwr10 : map wrap32 r10 = r10).
  { apply (wrap32_labels [1; 10; 11; 12]); [|exact Hr10v].
    apply wrap32_small. vm_compute. reflexivity. }
  split; [rewrite <- Hwids at 2; reflexivity|].
  split; [rewrite <- Hwr10 at 2; reflexivity|].
  split; [intros w'; now rewrite Hsc|]. split; [intros w'; now rewrite Hxsc|].
  assert (Hnsc : map fst (fields sc) = score_cols false).
  { change (map fst (fields sc)) with (names sc). rewrite descr_names, Hscd.
    rewrite map_map. apply map_id. }
  assert (Hnxsc : map fst (fields xsc) = score_cols true).
  { change (map fst (fields xsc)) with (names xsc). rewrite descr_names, Hxscd.
    rewrite map_map. apply map_id. }
  split.
  - intros name Hin. unfold getitem. cbn [fields].
    rewrite lookup_field_app.
    assert (Hj : lookup_field name (jets_fields rws fl ids r10 N) = None).
    { apply lookup_field_not_In. cbn in Hin |- *.
      intros H. repeat (destruct Hin as [<-|Hin]; [clear - H; intuition discriminate|]).
      contradiction. }
    rewrite Hj, lookup_field_app.
    destruct (lookup_field_In name (fields sc)) as [c Hc]; [now rewrite Hnsc|].
    rewrite Hc. split; reflexivity.
  - intros name Hin. unfold getitem. cbn [fields].
    rewrite lookup_field_app.
    assert (Hj : lookup_field name (jets_fields rws fl ids r10 N) = None).
    { apply lookup_field_not_In. cbn in Hin |- *.
      intros H. repeat (destruct Hin as [<-|Hin]; [clear - H; intuition discriminate|]).
      contradiction. }
    rewrite Hj, lookup_field_app.
    rewrite (lookup_field_not_In name (fields sc)).
    + destruct (lookup_field_In name (fields xsc)) as [c Hc]; [now rewrite Hnxsc|].
      rewrite Hc. split; reflexivity.
    + rewrite Hnsc. cbn in Hin |- *.
      intros H. repeat (destruct Hin as [<-|Hin]; [clear - H; intuition discriminate|]).
      contradiction.
Qed.

End JetProperties.

(** ** Properties of the track feature builder *)

Lemma size_2 (n t : nat) : size [n; t] = (n * t)%nat.
Proof. cbn. lia. Qed.

Lemma integers_wrap32 (l : list Z) :
  Forall (fun z => 0 <= z < 3) l -> map wrap32 l = l.
Proof.
  intros Hl. apply (wrap32_labels [0; 1; 2]).
  - apply wrap32_small. vm_compute. reflexivity.
  - eapply Forall_impl; [|exact Hl]. cbv beta. intros z Hz.
    assert (z = 0 \/ z = 1 \/ z = 2) as [ -> | [ -> | -> ] ] by lia; cbn; auto.
Qed.

Lemma replay_integers_range (g : nat) (sh : list nat) :
  Forall (fun z => 0 <= z < 3) (fst (Replay.integers g 0 3 sh)).
Proof.
  unfold Replay.integers. cbn [fst]. apply Forall_map, Forall_forall. intros i _.
  pose proof (Z.mod_pos_bound (Z.of_nat (g + i)) (3 - 0) ltac:(lia)). lia.
Qed.

Section TrackProperties.

Context {G : Type} {gen : Generator G}.

(** X13: the nine hit, split-hit and hole counts of the tracks that
    [mock_tracks] never assigns are 0 for every track: they are casts to int32
    of draws from [0, 1). *)
Theorem mock_tracks_unassigned_hits_zero (N T : nat) (w : World) :
  exists arr,
    fst (mock_tracks N T w) = Ok arr /\
    forall name, In name unassigned_hit_fields ->
      getitem arr name = Ok (I4col (repeat 0 (N * T))).
Proof.
  destruct (mock_tracks_run N T) as (rws & g1 & g2 & iv & Hrws & Hunit & _ & _ & Hruns).
  eexists. rewrite Hruns. cbn [fst]. split; [reflexivity|].
  rewrite size_2 in Hrws.
  assert (Hz : forall k, (k < 21)%nat ->
                 map float_to_i4 (column_of k rws) = repeat 0 (N * T)).
  { intros k Hk. rewrite (column_zero 21 k rws Hk Hunit). now rewrite Hrws. }
  intros name Hin. cbn in Hin.
  repeat (destruct Hin as [<-|Hin];
          [match goal with
           | |- getitem _ _ = Ok (I4col ?r) =>
               first [ rewrite <- (Hz 10%nat ltac:(lia)); reflexivity
                     | rewrite <- (Hz 11%nat ltac:(lia)); reflexivity
                     | rewrite <- (Hz 12%nat ltac:(lia)); reflexivity
                     | rewrite <- (Hz 13%nat ltac:(lia)); reflexivity
                     | rewrite <- (Hz 14%nat ltac:(lia)); reflexivity
                     | rewrite <- (Hz 15%nat ltac:(lia)); reflexivity
                     | rewrite <- (Hz 17%nat ltac:(lia)); reflexivity
                     | rewrite <- (Hz 19%nat ltac:(lia)); reflexivity
                     | rewrite <- (Hz 20%nat ltac:(lia)); reflexivity ]
           end|]).
  contradiction.
Qed.

(** X14: when the generator keeps the range of [rng.integers(0, 3)], the two
    shared-hit counts the code assigns hold 0, 1 or 2, one value per track. *)
Theorem mock_tracks_shared_hits (N T : nat) (w : World) :
  (forall g sh, Forall (fun z => 0 <= z < 3) (fst (rng_integers g 0 3 sh))) ->
  exists arr pix sct,
    fst (mock_tracks N T w) = Ok arr /\
    getitem arr "numberOfPixelSharedHits" = Ok (I4col pix) /\
    getitem arr "numberOfSCTSharedHits" = Ok (I4col sct) /\
    length pix = (N * T)%nat /\ length sct = (N * T)%nat /\
    Forall (fun z => 0 <= z < 3) pix /\
    Forall (fun z => 0 <= z < 3) sct.
Proof.
  intros Hint.
  destruct (mock_tracks_run N T) as (rws & g1 & g2 & iv & Hrws & Hunit & _ & _ & Hruns).
  cbv zeta in Hruns.
  eexists. exists (fst (rng_integers g1 0 3 [N; T])), (fst (rng_integers g2 0 3 [N; T])).
  rewrite Hruns. cbn [fst]. split; [reflexivity|].
  split; [rewrite <- (integers_wrap32 _ (Hint g1 [N; T])) at 2; reflexivity|].
  split; [rewrite <- (integers_wrap32 _ (Hint g2 [N; T])) at 2; reflexivity|].
  rewrite !integers_count, size_2. repeat split; apply Hint.
Qed.

(** X15: the float fields of the tracks are finite and within range: "d0"
    in [0, 5], the nine others in [0, 1]. *)
Theorem mock_tracks_float_ranges (N T : nat) (w : World) :
  exists arr d0,
    fst (mock_tracks N T w) = Ok arr /\
    getitem arr "d0" = Ok (F4col d0) /\
    Forall (fun x => is_finite x = true /\ (0 <= to_Q x <= 5)%Q) d0 /\
    forall name, In name unscaled_track_fields ->
      exists xs,
        getitem arr name = Ok (F4col xs) /\
        Forall (fun x => is_finite x = true /\ (0 <= to_Q x <= 1)%Q) xs.
Proof.
  destruct (mock_tracks_run N T) as (rws & g1 & g2 & iv & Hrws & Hunit & _ & _ & Hruns).
  do 2 eexists. rewrite Hruns. cbn [fst]. split; [reflexivity|]. split; [reflexivity|].
  split.
  - apply Forall_map, Forall_map.
    eapply Forall_impl; [|exact (column_units 21 0 rws ltac:(lia) Hunit)].
    cbv beta. intros u Hu. apply (scaled_unit_range 5 u); auto.
  - intros name Hin. cbn in Hin.
    repeat (destruct Hin as [<-|Hin];
            [eexists; split; [reflexivity|]; apply Forall_map;
             (eapply Forall_impl; [intros u Hu; apply (cast_unit_range u Hu)|]);
             apply (column_units 21); [lia|exact Hunit]|]).
    contradiction.
Qed.

(** X16: whatever [N] and [T], [mock_tracks] makes exactly five calls, all
    on the generator: the seeding with 42, one uniform draw of shape
    (N, T, 21), two integer draws from [0, 3) and one draw for "valid". *)
Theorem mock_tracks_trace (N T : nat) (w : World) :
  snd (mock_tracks N T w) =
    w ++ [EvDefaultRng 42; EvRandom [N; T; 21%nat]; EvIntegers 0 3 [N; T];
          EvIntegers 0 3 [N; T]; EvChoice 2 [N; T]].
Proof.
  destruct (mock_tracks_run N T) as (rws & g1 & g2 & iv & _ & _ & _ & _ & Hruns).
  now rewrite Hruns.
Qed.

End TrackProperties.

(** ** The module loader of [__init__.py] *)

Section InitFacts.

Context {lib : Init.Library}.

Lemma insert_all_cons (k : Init.yaml) (v : Init.Flavour)
  (its d : list (Init.yaml * Init.Flavour)) :
  insert_all ((k, v) :: its) d = insert_all its (Init.setitem d k v).
Proof. reflexivity. Qed.

Lemma setitem_fresh (d : list (Init.yaml * Init.Flavour)) (k : Init.yaml)
  (v : Init.Flavour) :
  ~ In k (map fst d) -> Init.setitem d k v = d ++ [(k, v)].
Proof.
  induction d as [|[k0 v0] d IH]; intros Hn; [reflexivity|]. cbn [Init.setitem app].
  destruct (Init.yaml_eq_dec k k0) as [->|Hne]; [exfalso; apply Hn; now left|].
  f_equal. apply IH. intros H. apply Hn. now right.
Qed.

Lemma setitem_present (d : list (Init.yaml * Init.Flavour)) (k : Init.yaml)
  (v : Init.Flavour) :
  In k (map fst d) -> length (Init.setitem d k v) = length d.
Proof.
  induction d as [|[k0 v0] d IH]; intros Hin; [contradiction|]. cbn [Init.setitem].
  destruct (Init.yaml_eq_dec k k0) as [->|Hne]; [reflexivity|].
  cbn [length]. f_equal. apply IH. destruct Hin as [H|H]; [cbn in H; congruence|exact H].
Qed.

Lemma setitem_length (d : list (Init.yaml * Init.Flavour)) (k : Init.yaml)
  (v : Init.Flavour) :
  (length (Init.setitem d k v) <= S (length d))%nat.
Proof.
  destruct (in_dec Init.yaml_eq_dec k (map fst d)) as [Hin|Hn].
  - rewrite setitem_present by assumption. lia.
  - rewrite setitem_fresh by assumption. rewrite length_app. cbn. lia.
Qed.

Lemma insert_all_length (its d : list (Init.yaml * Init.Flavour)) :
  (length (insert_all its d) <= length d + length its)%nat.
Proof.
  revert d. induction its as [|[k v] its IH]; intros d; [cbn; lia|].
  rewrite insert_all_cons. cbn [length].
  pose proof (IH (Init.setitem d k v)). pose proof (setitem_length d k v). lia.
Qed.

(** When no insertion meets a key that is already there, the items are
    appended in order; and the length tells whether one did. *)
Lemma insert_all_distinct (its d : list (Init.yaml * Init.Flavour)) :
  NoDup (map fst d ++ map fst its) -> insert_all its d = d ++ its.
Proof.
  revert d. induction its as [|[k v] its IH]; intros d Hnd;
    [cbn; now rewrite app_nil_r|].
  rewrite insert_all_cons. cbn [fst snd map] in *.
  assert (Hk : ~ In k (map fst d)).
  { intros Hin. apply NoDup_remove_2 in Hnd. apply Hnd, in_or_app. now left. }
  rewrite (setitem_fresh d k v Hk). rewrite IH.
  - now rewrite <- app_assoc.
  - rewrite map_app. cbn [map fst]. now rewrite <- app_assoc.
Qed.

Lemma insert_all_full (its d : list (Init.yaml * Init.Flavour)) :
  NoDup (map fst d) ->
  length (insert_all its d) = (length d + length its)%nat ->
  NoDup (map fst d ++ map fst its).
Proof.
  revert d. induction its as [|[k v] its IH]; intros d Hnd Hlen;
    [cbn [map]; now rewrite app_nil_r|].
  rewrite insert_all_cons in Hlen. cbn [length map fst] in *.
  pose proof (insert_all_length its (Init.setitem d k v)) as Hle.
  assert (Hk : ~ In k (map fst d)).
  { intros Hin. rewrite (setitem_present d k v Hin) in Hle. lia. }
  rewrite (setitem_fresh d k v Hk) in Hlen.
  specialize (IH (d ++ [(k, v)])).
  rewrite map_app, length_app in IH. cbn [map fst length] in IH.
  rewrite <- app_assoc in IH. cbn [app] in IH. apply IH; [|lia].
  apply NoDup_app_remove_r with (l' := []). rewrite app_nil_r.
  rewrite <- (app_nil_r (map fst d ++ [k])).
  rewrite <- app_assoc. cbn [app].
  apply NoDup_Add with (a := k) (l := map fst d); [|now constructor].
  rewrite <- (app_nil_r (map fst d)) at 1. apply Add_app.
Qed.

(** The comprehension succeeds exactly when every turn does, and then
    inserts the items in order. *)
Lemma comprehension_ok (fs : list Init.entry) (d : list (Init.yaml * Init.Flavour))
  (its : list (Init.yaml * Init.Flavour)) :
  Forall2 (fun f it => Init.flavour_item f = inr it) fs its ->
  Init.comprehension fs d = inr (insert_all its d).
Proof.
  intros H. revert d. induction H as [|f [k v] fs its Hf _ IH]; intros d; [reflexivity|].
  cbn [Init.comprehension]. rewrite Hf. apply IH.
Qed.

Lemma comprehension_inv (fs : list Init.entry) (d d' : list (Init.yaml * Init.Flavour)) :
  Init.comprehension fs d = inr d' ->
  exists its,
    Forall2 (fun f it => Init.flavour_item f = inr it) fs its /\ d' = insert_all its d.
Proof.
  revert d. induction fs as [|f fs IH]; intros d H; cbn [Init.comprehension] in H.
  - injection H as <-. exists []. split; [constructor|reflexivity].
  - destruct (Init.flavour_item f) as [e|[k v]] eqn:Ef; [discriminate|].
    destruct (IH _ H) as (its & Hits & ->).
    exists ((k, v) :: its). split; [now constructor|reflexivity].
Qed.

Lemma comprehension_raises (pre post : list Init.entry) (f : Init.entry) (e : Init.error)
  (d : list (Init.yaml * Init.Flavour)) :
  Forall (fun f => exists it, Init.flavour_item f = inr it) pre ->
  Init.flavour_item f = inl e ->
  Init.comprehension (pre ++ f :: post) d = inl e.
Proof.
  intros Hpre Hf. revert d. induction Hpre as [|f0 pre [[k v] Hf0] _ IH]; intros d;
    cbn [app Init.comprehension].
  - now rewrite Hf.
  - rewrite Hf0. apply IH.
Qed.

Lemma flavour_item_name (f : Init.entry) (k : Init.yaml) (v : Init.Flavour) :
  Init.flavour_item f = inr (k, v) ->
  Init.get f "name" = Some k /\
  exists cuts c,
    Init.get f "cuts" = Some cuts /\ Init.Cuts_from_list cuts = inr c /\
    Init.new_Flavour c (Init.del f "cuts") = inr v.
Proof.
  unfold Init.flavour_item, Init.pop.
  destruct (Init.get f "name") as [name|]; [|discriminate].
  destruct (Init.get f "cuts") as [cuts|]; [|discriminate].
  destruct (Init.Cuts_from_list cuts) as [e|c] eqn:Ec; [discriminate|].
  destruct (Init.new_Flavour c (Init.del f "cuts")) as [e|fl] eqn:Efl; [discriminate|].
  intros [= <- <-]. split; [reflexivity|]. exists cuts, c. auto.
Qed.

Lemma flavour_items_names (fs : list Init.entry) (its : list (Init.yaml * Init.Flavour)) :
  Forall2 (fun f it => Init.flavour_item f = inr it) fs its ->
  map (fun f => Init.get f "name") fs = map (fun it => Some (fst it)) its.
Proof.
  induction 1 as [|f [k v] fs its Hf _ IH]; [reflexivity|]. cbn [map fst].
  destruct (flavour_item_name f k v Hf) as [-> _]. now rewrite IH.
Qed.

Lemma NoDup_map_Some {A : Type} (l : list A) : NoDup (map Some l) <-> NoDup l.
Proof.
  split; intros H.
  - now apply NoDup_map_inv in H.
  - induction H as [|x l Hx _ IH]; cbn [map]; constructor; [|exact IH].
    intros Hin. apply in_map_iff in Hin as (y & [= ->] & Hy). contradiction.
Qed.

(** X17: when the module loads, all flavour names of [flavours.yaml] are
    distinct, the dictionary holds one flavour per entry under the entry's
    name, in file order, and each flavour was built from the cuts of its
    entry and from the entry without its "cuts" key. *)
Theorem flavours_loaded_in_order (flavours_yaml : list Init.entry)
  (c : Init.FlavourContainer) :
  Init.Flavours flavours_yaml = inr c ->
  exists d,
    Init.flavours_dict flavours_yaml = inr d /\
    Init.new_FlavourContainer d = inr c /\
    NoDup (map (fun f => Init.get f "name") flavours_yaml) /\
    Forall2 (fun f kv =>
               Init.get f "name" = Some (fst kv) /\
               exists cuts cs,
                 Init.get f "cuts" = Some cuts /\ Init.Cuts_from_list cuts = inr cs /\
                 Init.new_Flavour cs (Init.del f "cuts") = inr (snd kv))
            flavours_yaml d.
Proof.
  unfold Init.Flavours. destruct (Init.flavours_dict flavours_yaml) as [e|d] eqn:Ed;
    [discriminate|].
  destruct (Nat.eqb_spec (length d) (length flavours_yaml)) as [Hlen|Hlen]; [|discriminate].
  destruct (Init.new_FlavourContainer d) as [e|c'] eqn:Ec; [discriminate|].
  intros [= <-]. exists d. split; [reflexivity|]. split; [exact Ec|].
  destruct (comprehension_inv _ _ _ Ed) as (its & Hits & Hd).
  pose proof (Forall2_length Hits) as Hl.
  assert (Hnd : NoDup (map fst its)).
  { apply (insert_all_full its []); [constructor|]. rewrite <- Hd. cbn [length]. lia. }
  rewrite (insert_all_distinct its []) in Hd by exact Hnd. cbn [app] in Hd. subst d.
  split.
  - rewrite (flavour_items_names _ _ Hits), <- (map_map fst Some).
    now apply NoDup_map_Some.
  - eapply Forall2_impl; [|exact Hits]. cbv beta. intros f [k v] Hf.
    now apply flavour_item_name.
Qed.



End InitFacts.

(** ** The generation entry point *)

Section FileProperties.

Context {G : Type} {gen : Generator G} {platform : Platform} {h5 : H5py}.



End FileProperties.

(** ** Runs of the further properties *)

Lemma least_unknown_label_reported_witness :
  (exists l, In l [15; 7; 0; 9] /\ dict_get (label_mapping false) l = None) /\
  exists l,
    fst (@get_mock_scores nat replay_generator replay_platform [15; 7; 0; 9] false [])
      = Err (KeyError l) /\
    l = 7 /\ rank [15; 7; 0; 9] l = 1%nat.
Proof.
  assert (H : exists l, In l [15; 7; 0; 9] /\ dict_get (label_mapping false) l = None).
  { exists 9. split; [cbn; auto|reflexivity]. }
  split; [exact H|].
  destruct (@least_unknown_label_reported nat replay_generator replay_platform
              [15; 7; 0; 9] false [] H) as (l & Hrun & Hin & Hget & Hleast & _).
  exists l. split; [exact Hrun|].
  assert (Hl : l = 7).
  { assert (l <= 7) by (apply Hleast; [cbn; auto|reflexivity]).
    cbn in Hin. destruct Hin as [<-|[<-|[<-|[<-|[]]]]]; try discriminate; try reflexivity; lia. }
  split; [exact Hl|]. subst l. reflexivity.
Defined.

Lemma one_draw_per_distinct_label_witness :
  succeeds (fst (@get_mock_scores nat replay_generator replay_platform
                   [5; 0; 5; 4] false [])) = true /\
  exists calls,
    snd (@get_mock_scores nat replay_generator replay_platform [5; 0; 5; 4] false []) =
      [] ++ EvDefaultRng 42 :: calls /\
    forallb is_normal calls = true /\
    length calls = length (nodup Z.eq_dec [5; 0; 5; 4]) /\
    list_sum (map rows_requested calls) = length [5; 0; 5; 4].
Proof.
  assert (H : succeeds (fst (@get_mock_scores nat replay_generator replay_platform
                               [5; 0; 5; 4] false [])) = true)
    by (vm_compute; reflexivity).
  split; [exact H|].
  exact (@one_draw_per_distinct_label nat replay_generator replay_platform
           [5; 0; 5; 4] false [] H).
Defined.

Lemma scale_by_rank_witness :
  succeeds (fst (@get_mock_scores nat replay_generator replay_platform
                   [15; 5] false [])) = true /\
  In 15 [15; 5] /\
  exists loc s,
    dict_get (label_mapping false) 15 = Some loc /\
    nth_error scales (rank [15; 5] 15) = Some s /\
    nth_error (snd (@get_mock_scores nat replay_generator replay_platform [15; 5] false []))
              (length (@nil event) + 1 + rank [15; 5] 15) =
      Some (EvNormal loc s [count_true (map (Z.eqb 15) [15; 5]); 4%nat]).
Proof.
  assert (H : succeeds (fst (@get_mock_scores nat replay_generator replay_platform
                               [15; 5] false [])) = true)
    by (vm_compute; reflexivity).
  assert (Hin : In 15 [15; 5]) by (cbn; auto).
  split; [exact H|]. split; [exact Hin|].
  exact (@scale_by_rank nat replay_generator replay_platform [15; 5] false [] 15 H Hin).
Defined.

Lemma score_row_provenance_witness :
  succeeds (fst (@get_mock_scores nat replay_generator replay_platform
                   [5; 0; 5; 4] false [])) = true /\
  nth_error [5; 0; 5; 4] 2 = Some 5 /\
  nth_error (score_cols false) 2 = Some "MockTagger_pb" /\
  exists arr draw row col,
    fst (@get_mock_scores nat replay_generator replay_platform [5; 0; 5; 4] false [])
      = Ok arr /\
    nth_error (loop_draws (gen := replay_generator) (label_mapping false) 4
                 (unique_counts [5; 0; 5; 4]) 0 (rng_seed 42))
              (rank [5; 0; 5; 4] 5) = Some draw /\
    nth_error draw (occurrences [5; 0; 5; 4] 5 2) = Some row /\
    getitem arr "MockTagger_pb" = Ok (F4col col) /\
    nth_error col 2 =
      Some (f8_to_f4 (nth 2 (softmax_row (platform := replay_platform) row) S754_nan)).
Proof.
  assert (H : succeeds (fst (@get_mock_scores nat replay_generator replay_platform
                               [5; 0; 5; 4] false [])) = true)
    by (vm_compute; reflexivity).
  split; [exact H|]. split; [reflexivity|]. split; [reflexivity|].
  exact (@score_row_provenance nat replay_generator replay_platform
           [5; 0; 5; 4] false [] 2 2 5 "MockTagger_pb" H eq_refl eq_refl).
Defined.

Lemma scores_not_negative_witness :
  (forall v, sign_clear (Replay.exp v)) /\
  (forall l, Forall sign_clear l -> sign_clear (Replay.sum l)) /\
  succeeds (fst (@get_mock_scores nat replay_generator replay_platform
                   [5; 0; 5; 4] false [])) = true /\
  exists arr,
    fst (@get_mock_scores nat replay_generator replay_platform [5; 0; 5; 4] false [])
      = Ok arr /\
    Forall (fun f => exists xs, snd f = F4col xs /\
                                Forall (fun x => not_negative x = true) xs)
           (fields arr).
Proof.
  assert (H : succeeds (fst (@get_mock_scores nat replay_generator replay_platform
                               [5; 0; 5; 4] false [])) = true)
    by (vm_compute; reflexivity).
  split; [exact replay_exp_sign|]. split; [exact replay_sum_sign|]. split; [exact H|].
  exact (@scores_not_negative nat replay_generator replay_platform
           [5; 0; 5; 4] false [] replay_exp_sign replay_sum_sign H).
Defined.

Lemma softmax_not_negative_witness :
  let x := {| lead := [1%nat]; last := 2; rows := [[f8_lit 1 0; f8_lit 1 (-1)]] |} in
  (forall v, sign_clear (Replay.exp v)) /\
  (forall l, Forall sign_clear l -> sign_clear (Replay.sum l)) /\
  exists y,
    softmax (platform := replay_platform) x (Some 1) = Ok y /\
    Forall (Forall (fun v => not_negative v = true)) (rows y).
Proof.
  cbv zeta. split; [exact replay_exp_sign|]. split; [exact replay_sum_sign|].
  eexists. split; [reflexivity|].
  apply (@softmax_not_negative replay_platform
           {| lead := [1%nat]; last := 2; rows := [[f8_lit 1 0; f8_lit 1 (-1)]] |} _
           (Some 1) replay_exp_sign replay_sum_sign).
  reflexivity.
Defined.

Lemma mock_tracks_shared_hits_witness :
  (forall g sh, Forall (fun z => 0 <= z < 3) (fst (Replay.integers g 0 3 sh))) /\
  exists arr pix sct,
    fst (mock_tracks (gen := replay_generator) 2 3 []) = Ok arr /\
    getitem arr "numberOfPixelSharedHits" = Ok (I4col pix) /\
    getitem arr "numberOfSCTSharedHits" = Ok (I4col sct) /\
    length pix = (2 * 3)%nat /\ length sct = (2 * 3)%nat /\
    Forall (fun z => 0 <= z < 3) pix /\
    Forall (fun z => 0 <= z < 3) sct.
Proof.
  split; [exact replay_integers_range|].
  exact (@mock_tracks_shared_hits nat replay_generator 2 3 [] replay_integers_range).
Defined.

Lemma flavours_loaded_in_order_witness :
  exists c,
    Init.Flavours (lib := test_library) [bjets; cjets] = inr c /\
    exists d,
      Init.flavours_dict (lib := test_library) [bjets; cjets] = inr d /\
      map fst d = ["bjets"; "cjets"] /\
      NoDup (map (fun f => Init.get (lib := test_library) f "name") [bjets; cjets]).
Proof.
  eexists. split; [reflexivity|].
  destruct (@flavours_loaded_in_order test_library [bjets; cjets] _ eq_refl)
    as (d & Hd & _ & Hnd & _).
  exists d. split; [exact Hd|]. split; [|exact Hnd].
  vm_compute in Hd. injection Hd as <-. reflexivity.
Defined.



(** The scale of a label depends on the labels it comes with: 15 ("tau") is
    drawn with scale 2.5 next to 5, and with scale 1 when 0, 4 and 5 are all
    there. *)
Example scale_depends_on_batch :
  nth_error scales (rank [15; 5] 15) = Some (f8_lit 5 (-1)) /\
  nth_error scales (rank [0; 4; 5; 15] 15) = Some (f8_lit 1 0).
Proof. split; reflexivity. Qed.

Lemma scores_rows_are_distributions_witness :
  let run := fst (@get_mock_scores nat replay_generator ordered_platform
                    [5; 0; 5; 4] false []) in
  (0 <= 0 <= 1 # 4)%Q /\ (2 * 0 + (1 # 4194304) <= 1 # 4194304)%Q /\
  @normal_draws_finite nat replay_generator /\
  @max_is_largest ordered_platform /\ @exp_of_zero_is_one ordered_platform /\
  @exp_in_unit_interval ordered_platform /\ @sum_of_exps_accurate ordered_platform 0 /\
  succeeds run = true /\
  exists arr,
    run = Ok arr /\
    shape arr = [length [5; 0; 5; 4]] /\
    forall j, (j < length [5; 0; 5; 4])%nat ->
      exists row,
        length row = 4%nat /\
        (forall k name, nth_error (score_cols false) k = Some name ->
           exists col, getitem arr name = Ok (F4col col) /\
                       nth_error col j = nth_error row k) /\
        Forall (fun p => is_finite p = true /\ (0 <= to_Q p)%Q) row /\
        (Qabs (Qsum (map to_Q row) - 1) <= 1 # 4194304)%Q.
Proof.
  assert (H : succeeds (fst (@get_mock_scores nat replay_generator ordered_platform
                               [5; 0; 5; 4] false [])) = true)
    by (vm_compute; reflexivity).
  assert (Hg : (0 <= 0 <= 1 # 4)%Q) by (split; discriminate).
  assert (Ht : (2 * 0 + (1 # 4194304) <= 1 # 4194304)%Q) by discriminate.
  cbv zeta.
  split; [exact Hg|]. split; [exact Ht|]. split; [exact replay_normal_finite|].
  split; [exact ordered_max_is_largest|]. split; [exact ordered_exp_of_zero|].
  split; [exact ordered_exp_in_unit|]. split; [exact ordered_sum_accurate|].
  split; [exact H|].
  exact (@scores_rows_are_distributions nat replay_generator ordered_platform
           [5; 0; 5; 4] false [] 0 (1 # 4194304) Hg Ht replay_normal_finite
           ordered_max_is_largest ordered_exp_of_zero ordered_exp_in_unit
           ordered_sum_accurate H).
Defined.
